(** * Context-Sensei transcript analysis: a shallow embedding of
      [src/utils/textAnalysis.ts] (class [TextAnalyzer]) and of the
      [AIAnalyzer] it delegates to.

    JavaScript strings are modelled as [string] over 8-bit characters
    (the ASCII fragment of UTF-16: one code unit per character), regular
    expressions as an abstract syntax run by a backtracking matcher that
    follows the ECMAScript continuation semantics, luxon [DateTime]
    values at local midnight as day numbers. *)

From Stdlib Require Import String Ascii List Bool Arith ZArith QArith Lia Permutation.
Import ListNotations.

Local Open Scope string_scope.
Local Open Scope list_scope.
Local Open Scope nat_scope.

(* ================================================================== *)
(** ** Characters and strings *)
(* ================================================================== *)

Module Str.

Definition code (c : ascii) : nat := nat_of_ascii c.

Definition between (lo hi : nat) (c : ascii) : bool :=
  (lo <=? code c) && (code c <=? hi).

Definition isUpper : ascii -> bool := between 65 90.
Definition isLower : ascii -> bool := between 97 122.
Definition isDigit : ascii -> bool := between 48 57.

(** [\w] *)
Definition isWord (c : ascii) : bool :=
  isUpper c || isLower c || isDigit c || (code c =? 95).

(** [\s] and the characters removed by [String.prototype.trim]:
    TAB, LF, VT, FF, CR and SPACE. *)
Definition isSpace (c : ascii) : bool :=
  between 9 13 c || (code c =? 32).

(** [.] without the [s] flag: anything but a line terminator. *)
Definition isDot (c : ascii) : bool :=
  negb ((code c =? 10) || (code c =? 13)).

Definition lowerChar (c : ascii) : ascii :=
  if isUpper c then ascii_of_nat (code c + 32) else c.

Definition upperChar (c : ascii) : ascii :=
  if isLower c then ascii_of_nat (code c - 32) else c.

Definition chars : string -> list ascii := list_ascii_of_string.
Definition ofChars : list ascii -> string := string_of_list_ascii.

(** [s.toLowerCase()], [s.toUpperCase()] *)
Definition toLowerCase (s : string) : string := ofChars (map lowerChar (chars s)).
Definition toUpperCase (s : string) : string := ofChars (map upperChar (chars s)).

Fixpoint dropSpaces (l : list ascii) : list ascii :=
  match l with
  | c :: l' => if isSpace c then dropSpaces l' else l
  | [] => []
  end.

(** [s.trim()] *)
Definition trim (s : string) : string :=
  ofChars (rev (dropSpaces (rev (dropSpaces (chars s))))).

Fixpoint prefixb (p l : list ascii) : bool :=
  match p, l with
  | [], _ => true
  | a :: p', b :: l' => Ascii.eqb a b && prefixb p' l'
  | _ :: _, [] => false
  end.

Fixpoint infixb (p l : list ascii) : bool :=
  prefixb p l || match l with [] => false | _ :: l' => infixb p l' end.

(** [s.includes(p)] *)
Definition includes (s p : string) : bool := infixb (chars p) (chars s).

(** [xs.includes(x)] on an array of strings *)
Definition mem (x : string) (xs : list string) : bool :=
  existsb (String.eqb x) xs.

(** [s.split(/\s+/)]: the pieces between maximal runs of whitespace; a
    leading or trailing run leaves an empty piece, and the empty string
    splits into one empty piece. *)
Fixpoint splitWs (cur : list ascii) (inRun : bool) (l : list ascii) : list string :=
  match l with
  | [] => [ofChars (rev cur)]
  | c :: l' =>
      if isSpace c
      then if inRun then splitWs cur true l'
           else ofChars (rev cur) :: splitWs [] true l'
      else splitWs (c :: cur) false l'
  end.

(** [s.split('\n')] *)
Fixpoint splitLines (cur : list ascii) (l : list ascii) : list string :=
  match l with
  | [] => [ofChars (rev cur)]
  | c :: l' =>
      if code c =? 10
      then ofChars (rev cur) :: splitLines [] l'
      else splitLines (c :: cur) l'
  end.

(** [xs.join(sep)] *)
Fixpoint join (sep : string) (xs : list string) : string :=
  match xs with
  | [] => EmptyString
  | [x] => x
  | x :: xs' => x ++ sep ++ join sep xs'
  end.

End Str.

(* ================================================================== *)
(** ** Regular expressions *)
(* ================================================================== *)

Module Re.

Inductive re : Type :=
| Eps                                   (* empty pattern *)
| Chr (c : ascii)                       (* a literal character *)
| Cls (p : ascii -> bool)               (* a class: [\w], [\d], [[A-Z]], [.] *)
| Seq (a b : re)
| Alt (a b : re)
| Star (greedy : bool) (a : re)         (* [a*] and [a*?] *)
| Grp (n : nat) (a : re)                (* the n-th capturing group *)
| Bol                                   (* [^] *)
| Eol                                   (* [$] *)
| Wb.                                   (* [\b] *)

Record mstate : Type := MState {
  pos  : nat;                           (* index of the next character *)
  prev : option ascii;                  (* the character before it *)
  rest : list ascii;                    (* the input from [pos] on *)
  caps : list (nat * list ascii)        (* captures, latest first *)
}.

Definition advance (c : ascii) (cs : list ascii) (st : mstate) : mstate :=
  MState (S (pos st)) (Some c) cs (caps st).

Definition isWordOpt (o : option ascii) : bool :=
  match o with Some c => Str.isWord c | None => false end.

Definition chrEq (ci : bool) (a b : ascii) : bool :=
  if ci then Ascii.eqb (Str.lowerChar a) (Str.lowerChar b) else Ascii.eqb a b.

Definition clsIn (ci : bool) (p : ascii -> bool) (c : ascii) : bool :=
  p c || (ci && (p (Str.lowerChar c) || p (Str.upperChar c))).

(** Backtracking matcher in continuation-passing style. [ci] is the
    [i] flag. As in ECMAScript, an iteration of a starred pattern that
    consumes nothing is rejected, which bounds the number of iterations
    by the length of the remaining input. *)
Fixpoint run (ci : bool) (r : re) (st : mstate)
    (k : mstate -> option mstate) {struct r} : option mstate :=
  match r with
  | Eps => k st
  | Chr c =>
      match rest st with
      | x :: xs => if chrEq ci c x then k (advance x xs st) else None
      | [] => None
      end
  | Cls p =>
      match rest st with
      | x :: xs => if clsIn ci p x then k (advance x xs st) else None
      | [] => None
      end
  | Seq a b => run ci a st (fun st' => run ci b st' k)
  | Alt a b =>
      match run ci a st k with
      | Some res => Some res
      | None => run ci b st k
      end
  | Star greedy a =>
      (fix loop (n : nat) (st0 : mstate) {struct n} : option mstate :=
         match n with
         | O => k st0
         | S n' =>
             let again :=
               run ci a st0
                   (fun st' => if pos st' =? pos st0 then None else loop n' st') in
             if greedy
             then match again with Some res => Some res | None => k st0 end
             else match k st0 with Some res => Some res | None => again end
         end) (length (rest st)) st
  | Grp n a =>
      run ci a st
          (fun st' =>
             k (MState (pos st') (prev st') (rest st')
                       ((n, firstn (pos st' - pos st) (rest st)) :: caps st')))
  | Bol => if pos st =? 0 then k st else None
  | Eol => match rest st with [] => k st | _ :: _ => None end
  | Wb =>
      if xorb (isWordOpt (prev st)) (isWordOpt (hd_error (rest st)))
      then k st else None
  end.

(** A regular expression literal: the pattern and its [i] flag. *)
Record regex : Type := Regex { pattern : re; ignoreCase : bool }.

(** The result of a successful match: where it starts and ends, and
    the captured groups. *)
Record result : Type := Result {
  first : nat;
  last : nat;
  groups : list (nat * list ascii)
}.

Fixpoint searchFrom (rx : regex) (i : nat) (before : option ascii)
    (l : list ascii) {struct l} : option result :=
  match run (ignoreCase rx) (pattern rx) (MState i before l []) Some with
  | Some st => Some (Result i (pos st) (caps st))
  | None =>
      match l with
      | [] => None
      | c :: l' => searchFrom rx (S i) (Some c) l'
      end
  end.

(** [s.match(rx)] for a pattern without the [g] flag. *)
Definition exec (rx : regex) (s : string) : option result :=
  searchFrom rx 0 None (Str.chars s).

(** [rx.test(s)] *)
Definition test (rx : regex) (s : string) : bool :=
  match exec rx s with Some _ => true | None => false end.

Fixpoint lookup (n : nat) (cs : list (nat * list ascii)) : option (list ascii) :=
  match cs with
  | [] => None
  | (m, v) :: cs' => if m =? n then Some v else lookup n cs'
  end.

(** [match[n]] for [n >= 1]; [None] is [undefined]. *)
Definition group (n : nat) (m : result) : option string :=
  option_map Str.ofChars (lookup n (groups m)).

(** [s.replace(rx, by)] for a pattern without the [g] flag and a
    replacement without [$] references. *)
Definition replace (rx : regex) (by_ : string) (s : string) : string :=
  match exec rx s with
  | Some m =>
      Str.ofChars (firstn (first m) (Str.chars s) ++ Str.chars by_
                   ++ skipn (last m) (Str.chars s))
  | None => s
  end.

(** [s.replace(rx, '')] *)
Definition remove (rx : regex) (s : string) : string :=
  replace rx EmptyString s.

(** All successive matches of a [g]-flagged pattern, as produced by
    [while ((m = rx.exec(s)) !== null)]. *)
Fixpoint execAll (fuel : nat) (rx : regex) (i : nat) (before : option ascii)
    (l : list ascii) : list result :=
  match fuel with
  | O => []
  | S fuel' =>
      match searchFrom rx i before l with
      | None => []
      | Some m =>
          let d := last m - i in
          m :: execAll fuel' rx (last m)
                 (match d with
                  | O => before
                  | S d' => nth_error l d'
                  end)
                 (skipn d l)
      end
  end.

(** *** Pattern combinators *)

Fixpoint seqs (rs : list re) : re :=
  match rs with
  | [] => Eps
  | [r] => r
  | r :: rs' => Seq r (seqs rs')
  end.

Fixpoint alts (rs : list re) : re :=
  match rs with
  | [] => Cls (fun _ => false)
  | [r] => r
  | r :: rs' => Alt r (alts rs')
  end.

Definition lit (s : string) : re := seqs (map Chr (Str.chars s)).
Definition oneOf (ss : list string) : re := alts (map lit ss).

Definition star (a : re) : re := Star true a.
Definition plus (a : re) : re := Seq a (Star true a).
Definition plusLazy (a : re) : re := Seq a (Star false a).
Definition starLazy (a : re) : re := Star false a.
Definition opt (a : re) : re := Alt a Eps.

Fixpoint times (n : nat) (a : re) : re :=
  match n with
  | O => Eps
  | S O => a
  | S n' => Seq a (times n' a)
  end.

Definition word : re := Cls Str.isWord.
Definition digit : re := Cls Str.isDigit.
Definition space : re := Cls Str.isSpace.
Definition dot : re := Cls Str.isDot.
Definition upper : re := Cls Str.isUpper.
Definition lower : re := Cls Str.isLower.

(** [\d{1,2}] *)
Definition digit12 : re := Seq digit (opt digit).

End Re.

Import Re.

(* ================================================================== *)
(** ** luxon [DateTime], restricted to calendar days *)
(* ================================================================== *)

(** Every [DateTime] the analyzer computes with sits at local midnight
    ([fromFormat] and [fromISO] of a date without a time, [startOf('day')])
    or is only ever printed with [toFormat('yyyy-MM-dd')], so a valid
    [DateTime] is modelled by its day number (days since 1970-01-01 in
    the proleptic Gregorian calendar) and an invalid one by [None]. *)

Module Luxon.

Local Open Scope Z_scope.

Definition DateTime : Type := Z.

Definition isLeapYear (y : Z) : bool :=
  ((y mod 4 =? 0) && negb (y mod 100 =? 0)) || (y mod 400 =? 0).

Definition daysInMonth (y m : Z) : Z :=
  if m =? 2 then (if isLeapYear y then 29 else 28)
  else if (m =? 4) || (m =? 6) || (m =? 9) || (m =? 11) then 30
  else 31.

Definition daysFromCivil (y m d : Z) : Z :=
  let y' := if m <=? 2 then y - 1 else y in
  let era := y' / 400 in
  let yoe := y' - era * 400 in
  let mp := if m <=? 2 then m + 9 else m - 3 in
  let doy := (153 * mp + 2) / 5 + d - 1 in
  let doe := yoe * 365 + yoe / 4 - yoe / 100 + doy in
  era * 146097 + doe - 719468.

Definition civilFromDays (z : Z) : Z * Z * Z :=
  let z' := z + 719468 in
  let era := z' / 146097 in
  let doe := z' - era * 146097 in
  let yoe := (doe - doe / 1460 + doe / 36524 - doe / 146096) / 365 in
  let doy := doe - (365 * yoe + yoe / 4 - yoe / 100) in
  let mp := (5 * doy + 2) / 153 in
  let d := doy - (153 * mp + 2) / 5 + 1 in
  let m := if mp <? 10 then mp + 3 else mp - 9 in
  let y := yoe + era * 400 in
  (if m <=? 2 then y + 1 else y, m, d).

Definition year (t : DateTime) : Z := fst (fst (civilFromDays t)).
Definition month (t : DateTime) : Z := snd (fst (civilFromDays t)).
Definition day (t : DateTime) : Z := snd (civilFromDays t).

(** ISO weekday, Monday = 1 ... Sunday = 7; day 0 is a Thursday. *)
Definition weekday (t : DateTime) : Z := (t + 3) mod 7 + 1.

(** A calendar date, or an invalid [DateTime] when out of range. *)
Definition ofYMD (y m d : Z) : option DateTime :=
  if (1 <=? m) && (m <=? 12) && (1 <=? d) && (d <=? daysInMonth y m)
  then Some (daysFromCivil y m d) else None.

(** Month and year arithmetic clamps the day to the end of the month. *)
Definition clamped (y m d : Z) : DateTime :=
  daysFromCivil y m (Z.min d (daysInMonth y m)).

Definition plusDays (n : Z) (t : DateTime) : DateTime := t + n.
Definition plusWeeks (n : Z) (t : DateTime) : DateTime := t + 7 * n.

Definition plusMonths (n : Z) (t : DateTime) : DateTime :=
  let k := year t * 12 + (month t - 1) + n in
  clamped (k / 12) (k mod 12 + 1) (day t).

Definition plusYears (n : Z) (t : DateTime) : DateTime :=
  clamped (year t + n) (month t) (day t).

(** [t.set({ weekday: w })]: the day with ISO weekday [w] in the ISO
    week (Monday to Sunday) of [t]. *)
Definition setWeekday (w : Z) (t : DateTime) : DateTime := t - weekday t + w.

(** [t.set({ year: y })] *)
Definition setYear (y : Z) (t : DateTime) : DateTime :=
  clamped y (month t) (day t).

Definition startOfWeek (t : DateTime) : DateTime := setWeekday 1 t.
Definition endOfWeek (t : DateTime) : DateTime := setWeekday 7 t.
Definition startOfMonth (t : DateTime) : DateTime :=
  daysFromCivil (year t) (month t) 1.
Definition endOfMonth (t : DateTime) : DateTime :=
  daysFromCivil (year t) (month t) (daysInMonth (year t) (month t)).

(** *** Printing and parsing *)

Definition digitChar (n : nat) : ascii := ascii_of_nat (48 + n mod 10).

Fixpoint digitsOf (fuel n : nat) : list ascii :=
  match fuel with
  | O => []
  | S fuel' =>
      if (n <? 10)%nat then [digitChar n]
      else digitsOf fuel' (n / 10) ++ [digitChar n]
  end.

Definition padStart (w : nat) (l : list ascii) : list ascii :=
  repeat "0"%char (w - length l) ++ l.

Definition padded (w : nat) (n : Z) : list ascii :=
  let a := Z.to_nat (Z.abs n) in
  (if n <? 0 then ["-"%char] else []) ++ padStart w (digitsOf (S a) a).

(** [t.toFormat('yyyy-MM-dd')] *)
Definition toFormat (t : DateTime) : string :=
  Str.ofChars (padded 4 (year t) ++ ["-"%char] ++ padded 2 (month t)
               ++ ["-"%char] ++ padded 2 (day t)).

Fixpoint numberOf (acc : Z) (l : list ascii) : option Z :=
  match l with
  | [] => Some acc
  | c :: l' =>
      if Str.isDigit c
      then numberOf (10 * acc + (Z.of_nat (Str.code c) - 48)) l'
      else None
  end.

(** [parseInt(s)] on a string of digits *)
Definition parseInt (s : string) : option Z :=
  match Str.chars s with
  | [] => None
  | l => numberOf 0 l
  end.

Definition isoDate : regex :=
  Regex (seqs [Bol; Grp 1 (times 4 digit); Chr "-"; Grp 2 (times 2 digit);
               Chr "-"; Grp 3 (times 2 digit); Eol]) false.

Definition bindOpt {A B : Type} (o : option A) (f : A -> option B) : option B :=
  match o with Some a => f a | None => None end.

Definition intGroup (n : nat) (m : result) : option Z :=
  bindOpt (group n m) parseInt.

(** [DateTime.fromISO(s)] for the calendar-date form [yyyy-MM-dd], the
    form every deadline written by [toFormat('yyyy-MM-dd')] has. The
    other ISO 8601 forms luxon accepts (week dates, ordinal dates,
    times) are outside the model and read as invalid. *)
Definition fromISO (s : string) : option DateTime :=
  bindOpt (exec isoDate s) (fun m =>
  bindOpt (intGroup 1 m) (fun y =>
  bindOpt (intGroup 2 m) (fun mo =>
  bindOpt (intGroup 3 m) (fun d => ofYMD y mo d)))).

Definition monthNames : list (string * Z) :=
  [("january", 1); ("february", 2); ("march", 3); ("april", 4);
   ("may", 5); ("june", 6); ("july", 7); ("august", 8);
   ("september", 9); ("october", 10); ("november", 11); ("december", 12)].

Fixpoint assoc {A : Type} (k : string) (l : list (string * A)) : option A :=
  match l with
  | [] => None
  | (k', v) :: l' => if String.eqb k k' then Some v else assoc k l'
  end.

Definition monthName : re := oneOf (map fst monthNames).

(** [DateTime.fromFormat(s, 'd MMMM yyyy')]; luxon compiles a format to
    a case-insensitive anchored pattern, [d] to one or two digits,
    [MMMM] to the full month names and [yyyy] to four to six digits. *)
Definition dMMMMyyyy : regex :=
  Regex (seqs [Bol; Grp 1 digit12; Chr " "; Grp 2 monthName; Chr " ";
               Grp 3 (seqs [times 4 digit; opt digit; opt digit]); Eol]) true.

Definition dMMMM : regex :=
  Regex (seqs [Bol; Grp 1 digit12; Chr " "; Grp 2 monthName; Eol]) true.

Definition monthGroup (n : nat) (m : result) : option Z :=
  bindOpt (group n m) (fun s => assoc (Str.toLowerCase s) monthNames).

Definition fromFormat_d_MMMM_yyyy (s : string) : option DateTime :=
  bindOpt (exec dMMMMyyyy s) (fun m =>
  bindOpt (intGroup 1 m) (fun d =>
  bindOpt (monthGroup 2 m) (fun mo =>
  bindOpt (intGroup 3 m) (fun y => ofYMD y mo d)))).

(** [DateTime.fromFormat(s, 'd MMMM')]: the missing year is the
    current one, the year of [now]. *)
Definition fromFormat_d_MMMM (now : DateTime) (s : string) : option DateTime :=
  bindOpt (exec dMMMM s) (fun m =>
  bindOpt (intGroup 1 m) (fun d =>
  bindOpt (monthGroup 2 m) (fun mo => ofYMD (year now) mo d))).

(** The formats of [extractMeetingDate]. *)
Definition yyyyMMdd : regex :=
  Regex (seqs [Bol; Grp 1 (seqs [times 4 digit; opt digit; opt digit]); Chr "-";
               Grp 2 (times 2 digit); Chr "-"; Grp 3 (times 2 digit); Eol]) true.

Definition MMMMdyyyy : regex :=
  Regex (seqs [Bol; Grp 2 monthName; Chr " "; Grp 3 digit12; Chr " ";
               Grp 1 (seqs [times 4 digit; opt digit; opt digit]); Eol]) true.

Definition Mdyyyy : regex :=
  Regex (seqs [Bol; Grp 2 digit12; Chr "/"; Grp 3 digit12; Chr "/";
               Grp 1 (seqs [times 4 digit; opt digit; opt digit]); Eol]) true.

Definition ddMMyyyy : regex :=
  Regex (seqs [Bol; Grp 3 (times 2 digit); Chr "."; Grp 2 (times 2 digit); Chr ".";
               Grp 1 (seqs [times 4 digit; opt digit; opt digit]); Eol]) true.

(** [DateTime.fromFormat(s, fmt)] for a numeric format compiled to
    [rx], with the year in group 1, the month in 2 and the day in 3. *)
Definition fromNumeric (rx : regex) (s : string) : option DateTime :=
  bindOpt (exec rx s) (fun m =>
  bindOpt (intGroup 1 m) (fun y =>
  bindOpt (intGroup 2 m) (fun mo =>
  bindOpt (intGroup 3 m) (fun d => ofYMD y mo d)))).

Definition fromFormat_MMMM_d_yyyy (s : string) : option DateTime :=
  bindOpt (exec MMMMdyyyy s) (fun m =>
  bindOpt (intGroup 1 m) (fun y =>
  bindOpt (monthGroup 2 m) (fun mo =>
  bindOpt (intGroup 3 m) (fun d => ofYMD y mo d)))).

End Luxon.

Import Luxon.

(* ================================================================== *)
(** ** Types ([src/types/index.ts]) *)
(* ================================================================== *)

Inductive TaskPriority : Type := High | Medium | Low.

Inductive TaskStatus : Type := pending | in_progress | completed.

(** [interface Task]; [priority] is optional there. Dates are strings
    in [yyyy-MM-dd] form. *)
Record Task : Type := mkTask {
  id : string;
  description : string;
  assignedTo : string;
  assignedDate : string;
  deadline : string;
  priority : option TaskPriority;
  status : TaskStatus
}.

(** [{ ...task, description: d }] *)
Definition withDescription (task : Task) (d : string) : Task :=
  mkTask (id task) d (assignedTo task) (assignedDate task) (deadline task)
         (priority task) (status task).

Definition isPriority (p : TaskPriority) (o : option TaskPriority) : bool :=
  match o, p with
  | Some High, High | Some Medium, Medium | Some Low, Low => true
  | _, _ => false
  end.

(* ================================================================== *)
(** ** [TextAnalyzer]: tokens, priority, merging *)
(* ================================================================== *)

(** [tokenize] *)
Definition tokenize (text : string) : list string :=
  Str.splitWs [] false (Str.chars (Str.toLowerCase text)).

Definition highPriorityPatterns : list regex :=
  [ Regex (oneOf ["critical"; "urgent"; "immediate"; "asap"]) true;
    Regex (seqs [lit "enterprise"; starLazy dot; lit "client"]) true;
    Regex (oneOf ["prioritize"; "top priority"]) true;
    Regex (Alt (seqs [lit "fix"; starLazy dot; lit "issue"])
               (seqs [lit "issue"; starLazy dot; lit "fix"])) true;
    Regex (oneOf ["error"; "problem"; "bug"]) true ].

Definition mediumPriorityPatterns : list regex :=
  [ Regex (oneOf ["investigate"; "report"; "improve"]) true;
    Regex (oneOf ["optimize"; "enhance"; "update"]) true;
    Regex (oneOf ["next sprint"; "soon"; "following"]) true;
    Regex (oneOf ["performance"; "bottleneck"]) true ].

(** [determinePriority]: the tokens of the text and of the context are
    computed, the patterns are tested on [text]. *)
Definition determinePriority (text : string) (context : list string) : TaskPriority :=
  let tokens := tokenize text ++ flat_map tokenize context in
  if existsb (fun pattern => test pattern text) highPriorityPatterns then High
  else if existsb (fun pattern => test pattern text) mediumPriorityPatterns then Medium
  else Low.

Definition leadingRequest : regex :=
  Regex (seqs [Bol;
               oneOf ["please"; "can you"; "could you"; "would you";
                      "I'll"; "I will"; "going to"; "plan to"];
               plus space]) true.

Definition leadingConnective : regex :=
  Regex (seqs [Bol; oneOf ["to"; "and"; "then"]; plus space]) true.

(** [normalizeTaskDescription] *)
Definition normalizeTaskDescription (description : string) : string :=
  Str.trim (remove leadingConnective (remove leadingRequest description)).

(** [Math.min(n1, n2) * 0.6 <= c] for array lengths. The product is a
    double in the source; for lengths below 2^53 the rounded product
    compares with an integer as the exact one does (a multiple of 5
    times 0.6 rounds to the integer, any other product is at least 0.2
    away from every integer), so the bound is taken over the rationals. *)
Definition atLeastSixtyPercent (c n1 n2 : nat) : bool :=
  Qle_bool (inject_Z (Z.of_nat (Nat.min n1 n2)) * (6 # 10))
           (inject_Z (Z.of_nat c)).

(** [shouldMergeTasks] *)
Definition shouldMergeTasks (task1 task2 : Task) : bool :=
  let desc1 := tokenize (description task1) in
  let desc2 := tokenize (description task2) in
  let commonWords := filter (fun word => Str.mem word desc2) desc1 in
  atLeastSixtyPercent (List.length commonWords) (List.length desc1) (List.length desc2).

(** [a < b] on two [DateTime]s: false as soon as one is invalid. *)
Definition dateLt (a b : option DateTime) : bool :=
  match a, b with
  | Some x, Some y => (x <? y)%Z
  | _, _ => false
  end.

(** [mergeTasks] *)
Definition mergeTasks (task1 task2 : Task) : Task :=
  mkTask
    (id task1)
    (if String.length (description task2) <? String.length (description task1)
     then description task1 else description task2)
    (assignedTo task1)
    (assignedDate task1)
    (if dateLt (fromISO (deadline task1)) (fromISO (deadline task2))
     then deadline task1 else deadline task2)
    (Some (if isPriority High (priority task1) || isPriority High (priority task2)
           then High
           else if isPriority Medium (priority task1)
                   || isPriority Medium (priority task2)
                then Medium else Low))
    (status task1).

(** [xs.findIndex(p)]; [None] is [-1]. *)
Fixpoint findIndex {A : Type} (p : A -> bool) (xs : list A) : option nat :=
  match xs with
  | [] => None
  | x :: xs' => if p x then Some 0 else option_map S (findIndex p xs')
  end.

(** [xs[i] = f(xs[i])] for an index inside the array. *)
Fixpoint updateAt {A : Type} (i : nat) (f : A -> A) (xs : list A) : list A :=
  match xs, i with
  | [], _ => []
  | x :: xs', O => f x :: xs'
  | x :: xs', S i' => x :: updateAt i' f xs'
  end.

(** The loop of [deduplicateAndMergeTasks] over the remaining tasks,
    with the [result] array and the [seen] set built so far. *)
Fixpoint dedupeLoop (tasks result : list Task) (seen : list string) : list Task :=
  match tasks with
  | [] => result
  | task :: tasks' =>
      let normalizedDesc := normalizeTaskDescription (description task) in
      if Str.mem normalizedDesc seen then dedupeLoop tasks' result seen
      else
        match findIndex
                (fun t => shouldMergeTasks t (withDescription task normalizedDesc))
                result with
        | Some similarTaskIndex =>
            dedupeLoop tasks'
              (updateAt similarTaskIndex (fun t => mergeTasks t task) result) seen
        | None =>
            dedupeLoop tasks'
              (result ++ [withDescription task normalizedDesc])
              (normalizedDesc :: seen)
        end
  end.

(** [deduplicateAndMergeTasks] *)
Definition deduplicateAndMergeTasks (tasks : list Task) : list Task :=
  dedupeLoop tasks [] [].

(* ================================================================== *)
(** ** [TextAnalyzer]: the instance and its environment *)
(* ================================================================== *)

(** A JavaScript [Map] with string keys: entries in insertion order,
    [set] on a present key keeps its place. *)
Module JsMap.

Definition t (V : Type) : Type := list (string * V).

Fixpoint get {V : Type} (k : string) (m : t V) : option V :=
  match m with
  | [] => None
  | (k', v) :: m' => if String.eqb k k' then Some v else get k m'
  end.

Fixpoint set {V : Type} (k : string) (v : V) (m : t V) : t V :=
  match m with
  | [] => [(k, v)]
  | (k', v') :: m' =>
      if String.eqb k k' then (k', v) :: m' else (k', v') :: set k v m'
  end.

Definition keys {V : Type} (m : t V) : list string := map fst m.
Definition values {V : Type} (m : t V) : list V := map snd m.

End JsMap.

(** The fields of a [TextAnalyzer] the extraction reads. [dateContext]
    is assigned a valid [DateTime] by the constructor. *)
Record TextAnalyzer : Type := mkAnalyzer {
  text : string;
  employeeNames : JsMap.t string;
  dateContext : DateTime
}.

(** What a run takes from outside the transcript: the clock and the
    random number generator. [now] is [DateTime.local().startOf('day')];
    [randomId k] is [Math.random().toString(36).substr(2, 9)] at the
    [k]-th call of [Math.random] in the run. *)
Record Env : Type := mkEnv {
  now : DateTime;
  randomId : nat -> string
}.

(** [weekdays] *)
Definition weekdays : list (string * Z) :=
  [("sunday", 7); ("monday", 1); ("tuesday", 2); ("wednesday", 3);
   ("thursday", 4); ("friday", 5); ("saturday", 6)]%Z.

Definition orElse {A : Type} (a b : option A) : option A :=
  match a with Some _ => a | None => b end.

Definition anywhereISO : regex :=
  Regex (Grp 1 (seqs [times 4 digit; Chr "-"; times 2 digit; Chr "-";
                      times 2 digit])) false.

Definition weekdayWord : re := Grp 1 (Seq (plus word) (lit "day")).

Definition byWeekday : regex := Regex (Seq (lit "by ") weekdayWord) true.
Definition nextWeekday : regex := Regex (Seq (lit "next ") weekdayWord) true.

Definition inAmount : regex :=
  Regex (seqs [lit "in "; Grp 1 (plus digit); Chr " ";
               Grp 2 (oneOf ["day"; "week"; "month"]); opt (Chr "s")]) true.

Definition namedTerm : regex :=
  Regex (Grp 1 (oneOf ["today"; "tomorrow"; "next week"; "next month";
                       "end of week"; "end of month"])) true.

Definition ordinalSuffix : re := oneOf ["st"; "nd"; "rd"; "th"].

Definition monthWord : re :=
  alts [ Seq (lit "jan") (opt (lit "uary")); Seq (lit "feb") (opt (lit "ruary"));
         Seq (lit "mar") (opt (lit "ch")); Seq (lit "apr") (opt (lit "il"));
         lit "may"; Seq (lit "jun") (opt (lit "e")); Seq (lit "jul") (opt (lit "y"));
         Seq (lit "aug") (opt (lit "ust")); Seq (lit "sep") (opt (lit "tember"));
         Seq (lit "oct") (opt (lit "ober")); Seq (lit "nov") (opt (lit "ember"));
         Seq (lit "dec") (opt (lit "ember")) ].

Definition monthDate : regex :=
  Regex (seqs [oneOf ["by"; "on"; "before"]; Chr " "; opt (lit "the ");
               Grp 1 (seqs [digit12; opt ordinalSuffix; opt (lit " of"); Chr " ";
                            monthWord;
                            opt (seqs [opt (Chr ","); Chr " "; times 4 digit])])])
        true.

(** The handlers of [extractDate]'s [relativeTimePatterns], each
    applied to the match of its pattern. *)
Section Handlers.

Variable self : TextAnalyzer.
Variable env : Env.

(** [this.weekdays[day.replace('day', '')]] for the captured word; [None]
    is [undefined]. The table is read by its own keys: the two inherited
    properties a lower-cased word can name, [constructor] and
    [__proto__], are left out of the model. *)
Definition weekdayOf (m : result) : option Z :=
  bindOpt (group 1 m) (fun s =>
    let day := Str.toLowerCase s in
    assoc (remove (Regex (lit "day") false) day) weekdays).

(** The date the [by <weekday>] handler computes once it has a
    weekday number: that weekday in the week of the context, moved to
    the next week when it falls before the context. *)
Definition byWeekdayTarget (weekday : Z) : DateTime :=
  let targetDay := setWeekday weekday (dateContext self) in
  if (targetDay <? dateContext self)%Z then plusWeeks 1 targetDay else targetDay.

Definition byWeekdayHandler (m : result) : option DateTime :=
  bindOpt (weekdayOf m) (fun weekday => Some (byWeekdayTarget weekday)).

Definition nextWeekdayHandler (m : result) : option DateTime :=
  bindOpt (weekdayOf m) (fun weekday =>
    Some (plusWeeks 1 (setWeekday weekday (dateContext self)))).

Definition inAmountHandler (m : result) : option DateTime :=
  bindOpt (intGroup 1 m) (fun amount =>
  bindOpt (group 2 m) (fun unit =>
    let u := Str.toLowerCase unit in
    if String.eqb u "day" then Some (plusDays amount (dateContext self))
    else if String.eqb u "week" then Some (plusWeeks amount (dateContext self))
    else if String.eqb u "month" then Some (plusMonths amount (dateContext self))
    else None)).

Definition namedTermHandler (m : result) : option DateTime :=
  bindOpt (group 1 m) (fun s =>
    let term := Str.toLowerCase s in
    if String.eqb term "today" then Some (dateContext self)
    else if String.eqb term "tomorrow" then Some (plusDays 1 (dateContext self))
    else if String.eqb term "next week"
         then Some (startOfWeek (plusWeeks 1 (dateContext self)))
    else if String.eqb term "next month"
         then Some (startOfMonth (plusMonths 1 (dateContext self)))
    else if String.eqb term "end of week" then Some (endOfWeek (dateContext self))
    else if String.eqb term "end of month" then Some (endOfMonth (dateContext self))
    else None).

Definition monthDateHandler (m : result) : option DateTime :=
  bindOpt (group 1 m) (fun s =>
    let cleanedDate :=
      replace (Regex (lit " of ") false) " "
              (remove (Regex (Grp 1 ordinalSuffix) false) (Str.toLowerCase s)) in
    match fromFormat_d_MMMM_yyyy cleanedDate with
    | Some parsed => Some parsed
    | None =>
        bindOpt (fromFormat_d_MMMM (now env) cleanedDate) (fun parsed0 =>
          let parsed := setYear (year (dateContext self)) parsed0 in
          if (parsed <? dateContext self)%Z
          then Some (plusYears 1 parsed) else Some parsed)
    end).

Definition relativeTimePatterns : list (regex * (result -> option DateTime)) :=
  [ (byWeekday, byWeekdayHandler);
    (nextWeekday, nextWeekdayHandler);
    (inAmount, inAmountHandler);
    (namedTerm, namedTermHandler);
    (monthDate, monthDateHandler) ].

Fixpoint firstResolved (ps : list (regex * (result -> option DateTime)))
    (s : string) : option DateTime :=
  match ps with
  | [] => None
  | (pattern, handler) :: ps' =>
      match bindOpt (exec pattern s) handler with
      | Some d => Some d
      | None => firstResolved ps' s
      end
  end.

(** [extractDate]; [None] is [null]. *)
Definition extractDate (s : string) : option DateTime :=
  match bindOpt (exec anywhereISO s) (fun m => bindOpt (group 1 m) fromISO) with
  | Some parsed => Some parsed
  | None => firstResolved relativeTimePatterns s
  end.

End Handlers.

(** *** The constructor *)

Definition datePatterns : list (regex * (string -> option DateTime)) :=
  [ (anywhereISO, fromNumeric yyyyMMdd);
    (Regex (Grp 1 (seqs [plus word; Chr " "; digit12; opt (Chr ","); Chr " ";
                         times 4 digit])) false,
     fromFormat_MMMM_d_yyyy);
    (Regex (Grp 1 (seqs [digit12; Chr "/"; digit12; Chr "/"; times 4 digit])) false,
     fromNumeric Mdyyyy);
    (Regex (Grp 1 (seqs [digit12; Chr "."; digit12; Chr "."; times 4 digit])) false,
     fromNumeric ddMMyyyy) ].

Fixpoint firstParsed (ps : list (regex * (string -> option DateTime)))
    (s : string) : option DateTime :=
  match ps with
  | [] => None
  | (pattern, parse) :: ps' =>
      match bindOpt (exec pattern s) (fun m => bindOpt (group 1 m) parse) with
      | Some parsed => Some parsed
      | None => firstParsed ps' s
      end
  end.

(** [extractMeetingDate] *)
Definition extractMeetingDate (env : Env) (s : string) : DateTime :=
  match firstParsed datePatterns s with
  | Some parsed => parsed
  | None => now env
  end.

Definition speakerMarker : regex :=
  Regex (seqs [Grp 1 (times 2 upper); Chr ":"; space]) false.

Definition rosterEntry : regex :=
  Regex (seqs [Grp 1 (seqs [upper; plus lower; Chr " "; upper; plus lower]);
               lit " ("; Grp 2 (times 2 upper); Chr ")"]) false.

Definition matches (rx : regex) (s : string) : list result :=
  execAll (S (String.length s)) rx 0 None (Str.chars s).

(** [extractEmployeeNames]: the markers first, then the roster. *)
Definition extractEmployeeNames (s : string) : JsMap.t string :=
  let afterMarkers :=
    fold_left (fun names m =>
                 match group 1 m with
                 | Some code => JsMap.set code code names
                 | None => names
                 end) (matches speakerMarker s) [] in
  fold_left (fun names m =>
               match group 2 m, group 1 m with
               | Some code, Some name => JsMap.set code name names
               | _, _ => names
               end) (matches rosterEntry s) afterMarkers.

(** The fields [new TextAnalyzer(text, key)] computes from the text. *)
Definition construct (env : Env) (s : string) : TextAnalyzer :=
  mkAnalyzer s (extractEmployeeNames s) (extractMeetingDate env s).

(** *** Dialogue *)

Record DialogueLine : Type := mkLine { speaker : string; content : string }.

Definition speakerLine : regex :=
  Regex (seqs [Bol; Grp 1 (times 2 upper); Chr ":"; star space; Grp 2 (star dot)])
        false.

Definition parseLine (line : string) : option DialogueLine :=
  bindOpt (exec speakerLine line) (fun m =>
  bindOpt (group 1 m) (fun sp =>
  bindOpt (group 2 m) (fun c => Some (mkLine sp (Str.trim c))))).

Fixpoint filterMap {A B : Type} (f : A -> option B) (l : list A) : list B :=
  match l with
  | [] => []
  | a :: l' =>
      match f a with
      | Some b => b :: filterMap f l'
      | None => filterMap f l'
      end
  end.

(** [parseDialogue] (and [AIAnalyzer.parseTranscript]) *)
Definition parseDialogue (s : string) : list DialogueLine :=
  filterMap parseLine (Str.splitLines [] (Str.chars s)).

Definition bounded (ws : list re) : regex :=
  Regex (seqs [Wb; alts ws; Wb]) true.

Definition taskIndicators : list regex :=
  [ bounded [Seq (oneOf ["need"; "needs"; "needed"]) (lit " to")];
    bounded [oneOf ["should"; "must"; "will"; "going to"]];
    bounded [oneOf ["implement"; "create"; "develop"; "fix"; "update"; "review";
                    "test"; "check"; "analyze"; "design"; "prepare"; "coordinate";
                    "setup"; "configure"]];
    bounded [Seq (oneOf ["task"; "todo"; "action item"; "action"; "item"])
                 (opt (Chr "s"))];
    bounded [oneOf ["assigned to"; "responsible for"; "in charge of"]];
    bounded [oneOf ["work on"; "handle"; "manage"; "lead"; "oversee"]];
    bounded [oneOf ["schedule"; "plan"; "organize"; "arrange"]];
    bounded [oneOf ["consider"; "look into"; "investigate"; "research"]];
    bounded [oneOf ["follow up"; "follow-up"; "track"; "monitor"]];
    bounded [oneOf ["priority"; "deadline"; "timeline"; "milestone"]];
    bounded [oneOf ["let's"; "we should"; "we need to"; "we must"]];
    bounded [Seq (lit "action point") (opt (Chr "s"));
             Seq (lit "next step") (opt (Chr "s"));
             Seq (lit "deliverable") (opt (Chr "s"))] ].

Definition opening (ws : list string) : regex :=
  Regex (seqs [Bol; oneOf ws; Wb]) true.

Definition ignorePatterns : list regex :=
  [ opening ["hi"; "hello"; "hey"; "thanks"; "thank you"; "okay"; "ok"; "yes";
             "no"; "maybe"];
    opening ["i see"; "i understand"; "got it"; "makes sense"];
    opening ["good morning"; "good afternoon"; "good evening"];
    opening ["welcome"; "great"; "awesome"; "perfect"];
    opening ["bye"; "goodbye"; "see you"; "talk to you"] ].

(** [isTaskLike] *)
Definition isTaskLike (s : string) : bool :=
  if existsb (fun pattern => test pattern (Str.trim s)) ignorePatterns then false
  else if String.length (Str.trim s) <? 10 then false
  else existsb (fun pattern => test pattern s) taskIndicators.

(** *** Task creation *)

(** The task buckets ([Map<string, Task[]>]) and the number of
    [Math.random] calls made so far. *)
Record Run : Type := mkRun {
  tasks : JsMap.t (list Task);
  draws : nat
}.

Definition leadingPolite : regex :=
  Regex (seqs [Bol; oneOf ["please"; "can you"; "could you"; "would you"];
               plus space]) true.

Definition isEndMark (c : ascii) : bool :=
  Ascii.eqb c "." || Ascii.eqb c "?" || Ascii.eqb c "!".

Definition trailingMarks : regex := Regex (Seq (plus (Cls isEndMark)) Eol) false.

Definition genericStem : regex :=
  Regex (seqs [Bol; oneOf ["do"; "make"; "get"; "have"; "be"]; plus space]) true.

(** [tasks.get(k).push(task)], after [tasks.set(k, [])] for a new key *)
Definition pushInto (m : JsMap.t (list Task)) (k : string) (task : Task)
    : JsMap.t (list Task) :=
  let bucket := match JsMap.get k m with Some ts => ts | None => [] end in
  JsMap.set k (bucket ++ [task]) m.

Section Extraction.

Variable self : TextAnalyzer.
Variable env : Env.

(** The name an assignee code maps to: the exact key, else the first
    key equal to it up to case, else ['Unassigned']. *)
Definition mapAssignee (assignee : string) : string :=
  match JsMap.get assignee (employeeNames self) with
  | Some name => name
  | None =>
      match find (fun k => String.eqb (Str.toLowerCase k) (Str.toLowerCase assignee))
                 (JsMap.keys (employeeNames self)) with
      | Some k =>
          match JsMap.get k (employeeNames self) with
          | Some name => name
          | None => "Unassigned"
          end
      | None => "Unassigned"
      end
  end.

Definition cleanDescriptionOf (description : string) : string :=
  Str.trim (remove trailingMarks
              (remove leadingConnective (remove leadingPolite description))).

(** The deadline [addTask] computes. *)
Definition deadlineOf (description : string) (context : list string) : DateTime :=
  let defaultDate := now env in
  match orElse (extractDate self env description)
               (extractDate self env (Str.join " " context)) with
  | Some d => d
  | None => plusDays 7 defaultDate
  end.

(** The task [addTask] builds, with the [k]-th random id; [None] when
    it returns early on a short or generic description. *)
Definition newTask (k : nat) (assignee description : string)
    (context : list string) : option Task :=
  let deadline := deadlineOf description context in
  let cleanDescription := cleanDescriptionOf description in
  if (String.length cleanDescription <? 10) || test genericStem cleanDescription
  then None
  else
    Some (mkTask (randomId env k)
                 cleanDescription
                 (mapAssignee assignee)
                 (toFormat (dateContext self))
                 (toFormat deadline)
                 (Some (determinePriority description context))
                 pending).

(** [addTask] *)
Definition addTask (st : Run) (assignee description : string)
    (context : list string) : Run :=
  match newTask (draws st) assignee description context with
  | None => st
  | Some task => mkRun (pushInto (tasks st) (assignedTo task) task) (S (draws st))
  end.

Definition decisionListPattern : regex :=
  Regex (seqs [lit "decision"; opt (Chr "s"); lit " for today are"; opt (Chr ":")])
        true.

Definition numberedTaskPattern : regex :=
  Regex (seqs [Bol; plus digit; Chr "."; star space; Grp 1 (plus dot); Eol]) false.

Definition embeddedAssignee : regex :=
  Regex (alts [ seqs [Bol; Grp 1 (plus word); lit " will"];
                seqs [Bol; Grp 2 (plus word); Chr ","];
                seqs [lit "for "; Grp 3 (plus word); lit " to"];
                seqs [lit "for "; Grp 4 (plus word); Chr ":"] ]) true.

(** A JavaScript string used as a condition: true unless empty or
    [undefined]. *)
Definition truthy (o : option string) : option string :=
  match o with
  | Some EmptyString => None
  | _ => o
  end.

Definition firstTruthy (os : list (option string)) : string :=
  match filterMap truthy os with
  | s :: _ => s
  | [] => EmptyString
  end.

(** One turn of the decision-list loop; the state is [inDecisionList],
    [lastSpeaker] and the run. *)
Definition decisionStep (acc : bool * string * Run) (dialogue : DialogueLine)
    : bool * string * Run :=
  let '(inDecisionList, lastSpeaker, st) := acc in
  if test decisionListPattern (content dialogue)
  then (true, speaker dialogue, st)
  else if inDecisionList then
    match exec numberedTaskPattern (content dialogue) with
    | Some m =>
        match group 1 m with
        | Some item =>
            let found :=
              match exec embeddedAssignee item with
              | Some am =>
                  Str.toUpperCase
                    (firstTruthy [group 1 am; group 2 am; group 3 am; group 4 am])
              | None => EmptyString
              end in
            let assignee :=
              match truthy (Some found) with
              | Some a => a
              | None => lastSpeaker
              end in
            (inDecisionList, lastSpeaker, addTask st assignee item [])
        | None => (inDecisionList, lastSpeaker, st)
        end
    | None => (false, lastSpeaker, st)
    end
  else acc.

(** An entry of [taskPatterns]; a missing [assignee] is the speaker. *)
Record TaskPattern : Type := mkPattern {
  pattern : regex;
  assigneeGroup : option nat;
  taskGroup : option nat
}.

Definition untilStop (stop : ascii) : re :=
  seqs [Chr " "; Grp 2 (plusLazy dot); Alt (Chr stop) Eol].

Definition taskPatterns : list TaskPattern :=
  [ mkPattern (Regex (seqs [Bol; Grp 1 (plus word); lit ", can you";
                            untilStop "?"]) true) (Some 1) (Some 2);
    mkPattern (Regex (seqs [lit "Action item for "; Grp 1 (plus word); Chr ":";
                            untilStop "."]) true) (Some 1) (Some 2);
    mkPattern (Regex (seqs [Bol; Grp 1 (plus word); lit " will";
                            untilStop "."]) true) (Some 1) (Some 2);
    mkPattern (Regex (seqs [Bol; Grp 1 (plus word); lit " to";
                            untilStop "."]) true) (Some 1) (Some 2);
    mkPattern (Regex (seqs [oneOf ["please"; "can you"; "could you"; "would you"];
                            Chr " "; Grp 1 (plusLazy dot); Alt (Chr ".") Eol]) true)
              None None;
    mkPattern (Regex (seqs [oneOf ["going to"; "plan to"];
                            Chr " "; Grp 1 (plusLazy dot); Alt (Chr ".") Eol]) true)
              None None ].

Definition groupOpt (g : option nat) (m : result) : option string :=
  match g with
  | Some n => truthy (group n m)
  | None => None
  end.

(** The walk over [taskPatterns] for one line: [Some st'] when a
    pattern matched with an assignee and a description of more than
    three characters ([matched = true]), [None] otherwise. *)
Fixpoint tryPatterns (ps : list TaskPattern) (st : Run) (dialogue : DialogueLine)
    (contextWindow : list string) : option Run :=
  match ps with
  | [] => None
  | p :: ps' =>
      match exec (pattern p) (content dialogue) with
      | Some m =>
          let taskAssignee :=
            match groupOpt (assigneeGroup p) m with
            | Some a => Str.toUpperCase a
            | None => speaker dialogue
            end in
          let taskDescription :=
            match groupOpt (taskGroup p) m with
            | Some d => Some d
            | None => group 1 m
            end in
          match truthy (Some taskAssignee), truthy taskDescription with
          | Some a, Some d =>
              if 3 <? String.length d
              then Some (addTask st a d contextWindow)
              else tryPatterns ps' st dialogue contextWindow
          | _, _ => tryPatterns ps' st dialogue contextWindow
          end
      | None => tryPatterns ps' st dialogue contextWindow
      end
  end.

(** [xs.slice(a, b)] for [0 <= a] *)
Definition slice {A : Type} (a b : nat) (xs : list A) : list A :=
  firstn (b - a) (skipn a xs).

Definition contextWindowAt (dialogues : list DialogueLine) (index : nat)
    (dialogue : DialogueLine) : list string :=
  map content (slice (index - 2) index dialogues)
  ++ [content dialogue]
  ++ map content (slice (index + 1) (index + 3) dialogues).

(** One turn of the per-line loop. *)
Definition lineStep (dialogues : list DialogueLine) (st : Run)
    (indexed : nat * DialogueLine) : Run :=
  let '(index, dialogue) := indexed in
  let contextWindow := contextWindowAt dialogues index dialogue in
  match tryPatterns taskPatterns st dialogue contextWindow with
  | Some st' => st'
  | None =>
      if isTaskLike (content dialogue)
      then addTask st (speaker dialogue) (content dialogue) contextWindow
      else st
  end.

Definition indexed {A : Type} (xs : list A) : list (nat * A) :=
  combine (seq 0 (List.length xs)) xs.

(** The buckets before the final deduplication, and the number of ids
    drawn. *)
Definition collectTasks : Run :=
  let dialogues := parseDialogue (text self) in
  let '(_, _, st1) :=
    fold_left decisionStep dialogues (false, EmptyString, mkRun [] 0) in
  fold_left (lineStep dialogues) (indexed dialogues) st1.

(** [extractTasks] *)
Definition extractTasks : JsMap.t (list Task) :=
  map (fun entry => (fst entry, deduplicateAndMergeTasks (snd entry)))
      (tasks collectTasks).

End Extraction.

(* ================================================================== *)
(** ** [AIAnalyzer] and [TextAnalyzer.analyze] *)
(* ================================================================== *)

Definition LF : string := String (ascii_of_nat 10) EmptyString.

(** A call that returns or throws ([async] functions: a promise that
    fulfils or rejects). *)
Inductive Outcome (A : Type) : Type :=
| Returned (a : A)
| Thrown (message : string).

Arguments Returned {A} a.
Arguments Thrown {A} message.

Definition andThen {A B : Type} (o : Outcome A) (f : A -> Outcome B) : Outcome B :=
  match o with
  | Returned a => f a
  | Thrown e => Thrown e
  end.

(** [await Promise.all(xs)]: every result, or the first rejection. *)
Fixpoint allOf {A : Type} (os : list (Outcome A)) : Outcome (list A) :=
  match os with
  | [] => Returned []
  | o :: os' =>
      andThen o (fun a => andThen (allOf os') (fun l => Returned (a :: l)))
  end.

(** [try { ... } catch (error) { throw new Error(message) }] *)
Definition rethrowAs {A : Type} (message : string) (o : Outcome A) : Outcome A :=
  match o with
  | Returned a => Returned a
  | Thrown _ => Thrown message
  end.

(** The body of a provider response: the summarization model answers
    with an array of [{ summary_text }], the zero-shot classifier with
    [{ labels, scores }]. Scores are doubles, held by their exact value. *)
Inductive Response : Type :=
| Summaries (texts : list string)
| Labelled (labels : list string) (scores : list Q).

(** The double nearest to [0.6]. *)
Definition sixTenths : Q := 5404319552844595 # 9007199254740992.

Record AITask : Type := mkAITask {
  aiDescription : string;
  aiPriority : string;
  aiDeadline : option string;
  aiAssignee : string
}.

Record AIAnalysisResponse : Type := mkAIAnalysis {
  aiSummary : string;
  aiTasks : list AITask;
  keyPoints : list string
}.

Definition summaryModel : string := "facebook/bart-large-cnn".
Definition classificationModel : string := "facebook/bart-large-mnli".

Definition includesAny (s : string) (ps : list string) : bool :=
  existsb (Str.includes s) ps.

Definition greetings : list string :=
  ["good morning"; "thanks for"; "hello"; "hi everyone"].

(** The filter of [identifyTasks] that selects the candidate lines. *)
Definition isTaskIndicator (d : DialogueLine) : bool :=
  let content := Str.toLowerCase (content d) in
  includesAny content
    ["will"; "need to"; "should"; "must"; "going to"; "plan to";
     "review"; "schedule"; "set"; "address"; "fix"; "improve";
     "task"; "action item"; "follow up";
     "can you"; "could you"; "please"]
  && negb (includesAny content greetings)
  && (10 <? String.length content).

Definition codeThen : regex :=
  Regex (Seq (Grp 1 (times 2 upper))
             (alts [Chr ","; lit " will"; lit " should"; lit " to"; lit " can";
                    seqs [lit " need"; opt (Chr "s"); lit " to"];
                    lit " is going to";
                    seqs [lit " plan"; opt (Chr "s"); lit " to"]])) true.

Definition assignmentPatterns : list (regex * option nat * option string) :=
  [ (codeThen, Some 1, None);
    (Regex (seqs [lit "assign"; opt (lit "ed"); lit " to "; Grp 1 (times 2 upper)])
           true, Some 1, None);
    (Regex (seqs [lit "for "; Grp 1 (times 2 upper); lit " to"]) true, Some 1, None);
    (Regex (Seq (Grp 1 (times 2 upper)) (Chr ":")) false, Some 1, None);
    (Regex (oneOf ["let's"; "we should"; "we need to"; "we must"]) false,
     None, Some "TEAM") ].

Fixpoint detectAssignee (ps : list (regex * option nat * option string))
    (content fallback : string) : string :=
  match ps with
  | [] => fallback
  | (rx, g, defaultAssignee) :: ps' =>
      match exec rx content with
      | Some m =>
          match groupOpt g m, g, defaultAssignee with
          | Some a, _, _ => a
          | None, None, Some d => d
          | None, _, _ => detectAssignee ps' content fallback
          end
      | None => detectAssignee ps' content fallback
      end
  end.

Definition leadingWe : regex :=
  Regex (seqs [Bol; oneOf ["we should"; "we need to"; "we must"; "let's"];
               plus space]) true.

Definition cleanContent (content : string) : string :=
  Str.trim (remove trailingMarks
              (remove leadingConnective
                 (remove leadingWe (remove leadingPolite content)))).

Record Candidate : Type := mkCandidate {
  candSpeaker : string;
  candAssignee : string;
  candContent : string;
  candContext : list string
}.

(** The candidate built from the [index]-th selected line. The context
    is sliced from [dialogues] at that index. *)
Definition candidateOf (dialogues : list DialogueLine)
    (indexedLine : nat * DialogueLine) : Candidate :=
  let '(index, line) := indexedLine in
  mkCandidate (speaker line)
              (detectAssignee assignmentPatterns (content line) (speaker line))
              (cleanContent (content line))
              (map content
                   (slice (index - 3) (Nat.min (List.length dialogues) (index + 4))
                          dialogues)).

Definition candidates (dialogues : list DialogueLine) : list Candidate :=
  map (candidateOf dialogues) (indexed (filter isTaskIndicator dialogues)).

Definition headIs (accepted : list string) (labels : list string) : bool :=
  match labels with
  | l :: _ => Str.mem l accepted
  | [] => false
  end.

Definition headAbove (scores : list Q) : bool :=
  match scores with
  | x :: _ => negb (Qle_bool x sixTenths)
  | [] => false
  end.

(** The [inputs] of the summary request: the opening statement and
    the key discussions. *)
Definition summaryInputs (dialogues : list DialogueLine) : string :=
  "Meeting Agenda: "
  ++ match dialogues with d :: _ => content d | [] => EmptyString end
  ++ LF ++ LF ++ "Key Discussions: "
  ++ Str.join " "
       (map content
          (filter (fun d =>
                     negb (includesAny (Str.toLowerCase (content d))
                                       ["hello"; "hi everyone"; "bye"])
                     && (30 <? String.length (content d)))
                  dialogues)).

Section AIAnalyzer.

(** [query]: the provider, a function of the model and the inputs. A
    failed request throws. *)
Variable query : string -> string -> Outcome Response.

(** [AIAnalyzer.determinePriority] and [AIAnalyzer.extractDeadline]
    read the wall clock and the time zone ([new Date()], [toISOString]);
    they return without throwing, and are taken as functions of the
    text. *)
Variable aiDeterminePriority : string -> string.
Variable aiExtractDeadline : string -> option string.

(** [AIAnalyzer.generateSummary] *)
Definition generateSummary (dialogues : list DialogueLine) : Outcome string :=
  andThen (query summaryModel (summaryInputs dialogues))
          (fun response =>
             match response with
             | Summaries (t :: _) => Returned t
             | _ => Thrown "TypeError"
             end).

(** The validation of one candidate: [Some task] when the classifier
    accepts it, [None] when it rejects it. *)
Definition validateTask (task : Candidate) : Outcome (option AITask) :=
  andThen (query classificationModel (candContent task))
          (fun response =>
             match response with
             | Labelled labels scores =>
                 if headIs ["task assignment"; "action item"] labels
                    && headAbove scores
                 then
                   let full :=
                     (candContent task ++ " "
                      ++ Str.join " " (candContext task))%string in
                   Returned (Some (mkAITask (candContent task)
                                            (aiDeterminePriority full)
                                            (aiExtractDeadline full)
                                            (candAssignee task)))
                 else Returned None
             | Summaries _ => Thrown "TypeError"
             end).

(** [AIAnalyzer.identifyTasks] *)
Definition identifyTasks (dialogues : list DialogueLine) : Outcome (list AITask) :=
  andThen (allOf (map validateTask (candidates dialogues)))
          (fun validated => Returned (filterMap (fun o => o) validated)).

Definition isDecisionIndicator (d : DialogueLine) : bool :=
  let content := Str.toLowerCase (content d) in
  includesAny content
    ["decided"; "decision"; "will"; "agreed"; "let's"; "action item"]
  && negb (includesAny content greetings).

(** The grouping loop of [extractKeyPoints]: the decisions closed so
    far, in reverse, and [currentDecision]. *)
Fixpoint groupDecisions (previous : option DialogueLine) (lines : list DialogueLine)
    (closed : list string) (currentDecision : string) : list string :=
  match lines with
  | [] =>
      rev (match truthy (Some currentDecision) with
           | Some c => Str.trim c :: closed
           | None => closed
           end)
  | line :: lines' =>
      let lower := Str.toLowerCase (content line) in
      let starts :=
        includesAny lower ["action item"; "decided"; "will"]
        || match previous with
           | None => true
           | Some before =>
               negb (Str.includes (Str.toLowerCase (content before)) lower)
           end in
      if starts
      then groupDecisions (Some line) lines'
             (match truthy (Some currentDecision) with
              | Some c => Str.trim c :: closed
              | None => closed
              end)
             (speaker line ++ ": " ++ content line)
      else groupDecisions (Some line) lines' closed
             (currentDecision ++ " " ++ content line)
  end.

Definition validateDecision (decision : string) : Outcome (option string) :=
  andThen (query classificationModel decision)
          (fun response =>
             match response with
             | Labelled labels scores =>
                 if negb (headIs ["general discussion"] labels) && headAbove scores
                 then Returned (Some decision) else Returned None
             | Summaries _ => Thrown "TypeError"
             end).

(** [AIAnalyzer.extractKeyPoints] *)
Definition extractKeyPoints (dialogues : list DialogueLine) : Outcome (list string) :=
  let decisions :=
    groupDecisions None (filter isDecisionIndicator dialogues) [] EmptyString in
  andThen (allOf (map validateDecision decisions))
          (fun validated => Returned (filterMap (fun o => o) validated)).

(** [AIAnalyzer.analyzeText] *)
Definition analyzeText (s : string) : Outcome AIAnalysisResponse :=
  let dialogues := parseDialogue s in
  rethrowAs "Failed to analyze text with AI"
    (andThen (generateSummary dialogues) (fun summary =>
     andThen (identifyTasks dialogues) (fun found =>
     andThen (extractKeyPoints dialogues) (fun points =>
       Returned (mkAIAnalysis summary found points))))).

End AIAnalyzer.

(** *** The result of [analyze] *)

Module Employee.
Record t : Type := make {
  name : string;
  tasks : list Task;
  totalTasks : nat
}.
End Employee.

Module Statistics.
Record t : Type := make {
  totalTasks : nat;
  highPriorityTasks : nat;
  tasksPerPerson : Q
}.
End Statistics.

(** [meetingDetails], without [startTime] and [endTime]: the two are
    formatted clock times that nothing below depends on. *)
Module MeetingDetails.
Record t : Type := make {
  date : string;
  participants : list string;
  summary : string;
  keyDecisions : list string
}.
End MeetingDetails.

Record AnalysisResults : Type := mkResults {
  employees : list Employee.t;
  meetingDetails : MeetingDetails.t;
  statistics : Statistics.t
}.

Definition metadataDate : regex :=
  Regex (seqs [oneOf ["Meeting Date"; "Date"]; Chr ":"; star space;
               Grp 1 (Alt (seqs [plus (Cls (fun c => Str.isUpper c || Str.isLower c));
                                 Chr " "; digit12; opt (Chr ","); Chr " ";
                                 times 4 digit])
                          (seqs [times 4 digit; Chr "-"; times 2 digit; Chr "-";
                                 times 2 digit]))]) true.

(** [t.toFormat('yyyy-MM-dd')] on a possibly invalid [DateTime] *)
Definition toFormatOpt (t : option DateTime) : string :=
  match t with
  | Some d => toFormat d
  | None => "Invalid DateTime"
  end.

(** The [date] of [extractMetadata] *)
Definition extractMetadataDate (env : Env) (s : string) : string :=
  match bindOpt (exec metadataDate s) (group 1) with
  | Some d =>
      toFormatOpt (if Str.includes d "-" then fromNumeric yyyyMMdd d
                   else fromFormat_MMMM_d_yyyy d)
  | None => toFormat (now env)
  end.

(** [task.priority as TaskPriority || 'Medium']: an empty string gives
    ['Medium']; a string outside the union is kept by the cast, equals
    none of ['High'], ['Medium'], ['Low'], and is held as [None]. *)
Definition castPriority (p : string) : option TaskPriority :=
  if String.eqb p EmptyString then Some Medium
  else if String.eqb p "High" then Some High
  else if String.eqb p "Medium" then Some Medium
  else if String.eqb p "Low" then Some Low
  else None.

Section Analyze.

Variable self : TextAnalyzer.
Variable env : Env.

(** The task [analyze] creates for the [k]-th task of the AI analysis. *)
Definition taskOfAI (metadataDate : string) (k : nat) (task : AITask) : Task :=
  let assignee := aiAssignee task in
  mkTask (randomId env k)
         (aiDescription task)
         (match truthy (JsMap.get assignee (employeeNames self)) with
          | Some n => n
          | None => assignee
          end)
         metadataDate
         (match truthy (aiDeadline task) with
          | Some d => d
          | None => toFormat (plusDays 7 (now env))
          end)
         (castPriority (aiPriority task))
         pending.

Definition employeeTaskMap (d : string) (found : list AITask) : JsMap.t (list Task) :=
  fold_left (fun m kt => pushInto m (aiAssignee (snd kt)) (taskOfAI d (fst kt) (snd kt)))
            (indexed found) [].

Definition employeesOf (m : JsMap.t (list Task)) : list Employee.t :=
  filterMap (fun entry =>
               match snd entry, JsMap.get (fst entry) (employeeNames self) with
               | _ :: _, Some n =>
                   Some (Employee.make n (snd entry) (List.length (snd entry)))
               | _, _ => None
               end) m.

Definition sumOf (f : Employee.t -> nat) (es : list Employee.t) : nat :=
  fold_left (fun sum emp => sum + f emp) es 0.

Definition statisticsOf (es : list Employee.t) : Statistics.t :=
  let totalTasks := sumOf (fun emp => List.length (Employee.tasks emp)) es in
  let highPriorityTasks :=
    sumOf (fun emp =>
             List.length (filter (fun t => isPriority High (priority t))
                                 (Employee.tasks emp))) es in
  Statistics.make totalTasks highPriorityTasks
    (match es with
     | [] => 0%Q
     | _ :: _ => inject_Z (Z.of_nat totalTasks) / inject_Z (Z.of_nat (List.length es))
     end).

(** The object [analyze] returns once the AI analysis is there. *)
Definition assemble (aiAnalysis : AIAnalysisResponse) : AnalysisResults :=
  let d := extractMetadataDate env (text self) in
  let es := employeesOf (employeeTaskMap d (aiTasks aiAnalysis)) in
  mkResults es
    (MeetingDetails.make d (JsMap.values (employeeNames self))
                         (aiSummary aiAnalysis) (keyPoints aiAnalysis))
    (statisticsOf es).

Variable query : string -> string -> Outcome Response.
Variable aiDeterminePriority : string -> string.
Variable aiExtractDeadline : string -> option string.

(** [TextAnalyzer.analyze] *)
Definition analyze : Outcome AnalysisResults :=
  rethrowAs "Failed to analyze text"
    (andThen (analyzeText query aiDeterminePriority aiExtractDeadline (text self))
             (fun aiAnalysis => Returned (assemble aiAnalysis))).

End Analyze.

(** [new AIAnalyzer(apiKey)] inside [new TextAnalyzer(text, apiKey)]:
    an empty key throws. *)
Definition newTextAnalyzer (env : Env) (s : string) (huggingFaceApiKey : string)
    : Outcome TextAnalyzer :=
  match truthy (Some huggingFaceApiKey) with
  | Some _ => Returned (construct env s)
  | None => Thrown "Hugging Face API key is required"
  end.

(* ================================================================== *)
(** ** Notions used to state the properties *)
(* ================================================================== *)

(** The similarity rule in the words of the design: the number of
    tokens of the first description that occur in the second, against
    60 percent of the token count of the description with fewer tokens. *)
Definition sharedTokens (d1 d2 : string) : nat :=
  List.length (filter (fun w => Str.mem w (tokenize d2)) (tokenize d1)).

Definition similarEnough (d1 d2 : string) : bool :=
  60 * Nat.min (List.length (tokenize d1)) (List.length (tokenize d2))
  <=? 100 * sharedTokens d1 d2.

(** Urgency order: [High > Medium > Low]. *)
Definition urgency (p : TaskPriority) : nat :=
  match p with High => 3 | Medium => 2 | Low => 1 end.

Definition moreUrgent (p q : TaskPriority) : TaskPriority :=
  if urgency p <? urgency q then q else p.

(** The fields a merge leaves alone. *)
Definition frame (t : Task) : string * string * string * TaskStatus :=
  (id t, assignedTo t, assignedDate t, status t).

(** A list on which the merge has nothing left to do: every
    description is its own normal form and no record is similar to a
    later one. *)
Fixpoint settledAfter (earlier tasks : list Task) : bool :=
  match tasks with
  | [] => true
  | t :: tasks' =>
      String.eqb (normalizeTaskDescription (description t)) (description t)
      && negb (existsb (fun e => shouldMergeTasks e t) earlier)
      && settledAfter (earlier ++ [t]) tasks'
  end.

Definition settled (tasks : list Task) : bool := settledAfter [] tasks.

(** A subsequence: some elements dropped, order kept. *)
Inductive Subseq {A : Type} : list A -> list A -> Prop :=
| SubseqNil : Subseq [] []
| SubseqSkip (x : A) (s l : list A) : Subseq s l -> Subseq s (x :: l)
| SubseqKeep (x : A) (s l : list A) : Subseq s l -> Subseq (x :: s) (x :: l).

(** Every id held in the buckets, bucket after bucket. *)
Definition allIds (m : JsMap.t (list Task)) : list string :=
  flat_map (fun entry => map id (snd entry)) m.

(** Every task held in the buckets. *)
Definition allTasks (m : JsMap.t (list Task)) : list Task :=
  flat_map (fun entry => snd entry) m.

(** The ids held in the buckets are the ids drawn so far. *)
Definition idsDrawnIn (env : Env) (st : Run) : Prop :=
  Permutation (allIds (tasks st)) (map (randomId env) (seq 0 (draws st))).

Inductive WeekdayName : Type :=
| Monday | Tuesday | Wednesday | Thursday | Friday | Saturday | Sunday.

Definition spell (w : WeekdayName) : string :=
  match w with
  | Monday => "Monday" | Tuesday => "Tuesday" | Wednesday => "Wednesday"
  | Thursday => "Thursday" | Friday => "Friday" | Saturday => "Saturday"
  | Sunday => "Sunday"
  end.

(** Every request a run of [analyzeText] sends to the provider: model
    and inputs. *)
Definition requests (s : string) : list (string * string) :=
  let dialogues := parseDialogue s in
  (summaryModel, summaryInputs dialogues)
  :: map (fun c => (classificationModel, candContent c)) (candidates dialogues)
  ++ map (fun d => (classificationModel, d))
         (groupDecisions None (filter isDecisionIndicator dialogues) [] EmptyString).

(** *** Sample data *)

Definition exampleTranscript : string :=
  "Date: 2025-04-22" ++ LF
  ++ "Participants: John Smith (JS), Tom Wilson (TW)" ++ LF
  ++ "JS: Tom, can you fix the Redis caching issue by Thursday?" ++ LF
  ++ "TW: Sure, I'll handle that.".

(** The roster and date the example gives, as the analyzer holds them. *)
Definition exampleAnalyzer : TextAnalyzer :=
  mkAnalyzer exampleTranscript
             [("JS", "John Smith"); ("TW", "Tom Wilson")]
             (daysFromCivil 2025 4 22).

Definition base36 (k : nat) : string :=
  match k with
  | 0 => "k3v9x2m1q" | 1 => "7fd0a4z8w" | 2 => "p0o9i8u7y"
  | _ => "zzzzzzzz" ++ String (ascii_of_nat (48 + k mod 10)) EmptyString
  end.

(** A run on the day of the meeting, and one eighteen months later. *)
Definition meetingDay : Env := mkEnv (daysFromCivil 2025 4 22) base36.
Definition laterDay : Env := mkEnv (daysFromCivil 2026 11 2) base36.

(** A generator that repeats itself. *)
Definition stuckGenerator : Env :=
  mkEnv (daysFromCivil 2025 4 22) (fun _ => "k3v9x2m1q").

(** A provider that is down, and one that answers: a summary, and
    ["action item"] with score 0.93 for every classification. *)
Definition downProvider (model inputs : string) : Outcome Response :=
  Thrown "Failed to query Hugging Face API: connect ECONNREFUSED".

Definition answeringProvider (model inputs : string) : Outcome Response :=
  if String.eqb model summaryModel
  then Returned (Summaries ["Tom reviews the caching implementation."])
  else Returned (Labelled ["action item"; "task assignment"; "general discussion"]
                          [93 # 100; 5 # 100; 2 # 100]).

Definition reviewTranscript : string :=
  "Participants: Tom Wilson (TW)" ++ LF
  ++ "TW: I will review the caching implementation.".

Definition mondayAnalyzer : TextAnalyzer :=
  mkAnalyzer EmptyString [] (daysFromCivil 2025 4 21).

(** What a task says apart from its id and deadline. *)
Definition outline (t : Task)
    : string * string * string * option TaskPriority * TaskStatus :=
  (description t, assignedTo t, assignedDate t, priority t, status t).

Definition sampleTask (i d dl : string) (p : TaskPriority) : Task :=
  mkTask i d "Tom Wilson" "2025-04-22" dl (Some p) pending.

Definition cacheCode : Task := sampleTask "t1" "review cache code" "2025-04-29" Low.
Definition cacheTest : Task := sampleTask "t2" "review cache test" "2025-04-25" Medium.

Definition handleCaching : Task :=
  sampleTask "t1" "I'll handle caching" "2025-04-29" Low.
Definition handleLogging : Task :=
  sampleTask "t2" "I'll handle logging" "2025-04-29" Low.
Definition illFix : Task := sampleTask "t1" "I'll fix" "2025-04-29" High.
Definition toFix : Task := sampleTask "t2" "to fix" "2025-04-29" High.

Definition reviewShort : Task :=
  sampleTask "t1" "review caching code" "2025-04-29" Low.
Definition reviewLong : Task :=
  sampleTask "t2" "I'll review caching code now" "2025-04-25" Medium.
Definition reviewNow : Task :=
  sampleTask "t3" "review caching code now" "2025-04-25" Medium.

(* ================================================================== *)
(** ** More of [AIAnalyzer] and of [TextAnalyzer] *)
(* ================================================================== *)

Definition priorityScores : list (list string * nat) :=
  [ (["urgent"; "asap"; "immediately"; "critical"; "emergency"], 3);
    (["important"; "priority"; "crucial"; "essential"; "needed"], 2);
    (["should"; "would be good"; "nice to have"; "when possible"], 1) ].

(** The keyword part of the score: every keyword the text includes
    adds the score of its group. *)
Definition keywordScore (lowercaseText : string) : nat :=
  fold_left
    (fun totalScore group =>
       fold_left (fun total keyword =>
                    if Str.includes lowercaseText keyword
                    then total + snd group else total)
                 (fst group) totalScore)
    priorityScores 0.

(** [AIAnalyzer.determinePriority]. The days until the deadline,
    [Math.ceil] of the time from [new Date()] to the extracted deadline,
    depend on the wall clock: [daysUntilDeadline text] stands for them,
    [None] when the text has no deadline or the difference is [NaN]. *)
Definition aiDeterminePriorityWith (daysUntilDeadline : string -> option Z)
    (text : string) : string :=
  let lowercaseText := Str.toLowerCase text in
  let bonus :=
    match daysUntilDeadline text with
    | Some days =>
        if (days <=? 2)%Z then 3
        else if (days <=? 7)%Z then 2
        else if (days <=? 14)%Z then 1
        else 0
    | None => 0
    end in
  let totalScore := keywordScore lowercaseText + bonus in
  if 3 <=? totalScore then "HIGH"
  else if 1 <=? totalScore then "MEDIUM"
  else "LOW".

Module Heuristics.

Definition summaryCues : list string :=
  ["agenda"; "decided"; "conclusion"; "priority"; "next steps"].

(** [TextAnalyzer.generateSummary] *)
Definition generateSummary (self : TextAnalyzer) : string :=
  let keyPoints :=
    map content
        (filter (fun d => includesAny (content d) summaryCues)
                (parseDialogue (text self))) in
  match keyPoints with
  | _ :: _ => Str.join " " keyPoints
  | [] => "Meeting focused on project updates and task assignments."
  end.

End Heuristics.

(** A request is well answered when the response has the shape the
    caller reads: a non-empty array of summaries for the summary
    model, labels and scores for the classifier. *)
Definition wellAnswered (query : string -> string -> Outcome Response)
    (rq : string * string) : Prop :=
  if String.eqb (fst rq) summaryModel
  then exists t ts, query (fst rq) (snd rq) = Returned (Summaries (t :: ts))
  else exists labels scores, query (fst rq) (snd rq) = Returned (Labelled labels scores).

(** A clock under which no deadline is in sight. *)
Definition noDeadline (text : string) : option Z := None.

Definition silentTranscript : string :=
  "Duration: 45 minutes" ++ LF ++ "Participants: Tom Wilson (TW)".

Definition doubtfulProvider (model inputs : string) : Outcome Response :=
  if String.eqb model summaryModel
  then Returned (Summaries ["A short meeting."])
  else Returned (Labelled ["action item"; "general discussion"] [55 # 100; 45 # 100]).

Definition urgentTranscript : string :=
  "Participants: Tom Wilson (TW)" ++ LF
  ++ "TW: We must fix the urgent production bug asap.".

(* ================================================================== *)
(** ** Task details ([extractTaskDetails], [createTask]) *)
(* ================================================================== *)

(** [[a-zA-Z0-9\s,]] *)
Definition dueChar (c : ascii) : bool :=
  Str.isLower c || Str.isUpper c || Str.isDigit c || Str.isSpace c
  || Ascii.eqb c ",".

Definition deadlinePatterns : list regex :=
  [ Regex (seqs [lit "by"; plus space; opt (Grp 1 (Seq (lit "next") (plus space)));
                 oneOf ["monday"; "tuesday"; "wednesday"; "thursday"; "friday";
                        "saturday"; "sunday"]]) true;
    Regex (seqs [lit "by"; plus space;
                 alts [seqs [lit "end"; plus space; lit "of"];
                       lit "eow"; lit "eom"; lit "eoq"]; Wb]) true;
    Regex (seqs [lit "due"; plus space; opt (oneOf ["on"; "by"]); star space;
                 Grp 1 (plus (Cls dueChar))]) true;
    Regex (seqs [lit "deadline"; star space; opt (oneOf ["is"; ":"]); star space;
                 Grp 1 (plus (Cls dueChar))]) true ].

(** [for (const pattern of ps) { const match = text.match(pattern);
    if (match) { ...; break; } }]: the match of the first pattern that
    has one. *)
Fixpoint firstMatch (ps : list regex) (s : string) : option result :=
  match ps with
  | [] => None
  | pattern :: ps' =>
      match exec pattern s with
      | Some m => Some m
      | None => firstMatch ps' s
      end
  end.

(** The date the loop over [deadlinePatterns] stores, if any: group 1
    of the first match, when it is a non-empty string that
    [DateTime.fromFormat(_, "yyyy-MM-dd")] reads as a valid date. *)
Definition parsedDeadline (s : string) : option DateTime :=
  bindOpt (firstMatch deadlinePatterns s) (fun m =>
  bindOpt (truthy (group 1 m)) (fromNumeric yyyyMMdd)).

(** [priorityPatterns], in the order of [Object.entries]. *)
Definition priorityPatterns : list (TaskPriority * regex) :=
  [ (High, bounded [oneOf ["urgent"; "critical"; "asap"; "high priority";
                           "highest priority"; "p0"; "p1"]]);
    (Medium, bounded [oneOf ["medium priority"; "normal priority"; "p2"]]);
    (Low, bounded [oneOf ["low priority"; "when possible"; "p3"; "p4"]]) ].

(** The [Partial<Task>] that [extractTaskDetails] returns. *)
Module TaskDetails.
Record t : Type := make {
  assignedDate : string;
  deadline : string;
  priority : option TaskPriority;
  status : TaskStatus
}.
End TaskDetails.

(** [extractTaskDetails]; [DateTime.local()] is the clock of [env]. *)
Definition extractTaskDetails (self : TextAnalyzer) (env : Env) (s : string)
    : TaskDetails.t :=
  let defaultDate := now env in
  let deadline :=
    match parsedDeadline s with
    | Some parsedDate => parsedDate
    | None => plusDays 7 (dateContext self)
    end in
  let priority :=
    option_map fst (find (fun lp => test (snd lp) s) priorityPatterns) in
  TaskDetails.make (toFormat defaultDate) (toFormat deadline) priority pending.

(** [createTask]; [uuid] is the value of [crypto.randomUUID()] and
    [currentSpeaker] the field of that name; [None] is [null]. *)
Definition createTask (self : TextAnalyzer) (env : Env)
    (uuid currentSpeaker s : string) : option Task :=
  if negb (isTaskLike s) then None
  else
    let details := extractTaskDetails self env s in
    Some (mkTask uuid (Str.trim s) currentSpeaker
                 (TaskDetails.assignedDate details)
                 (TaskDetails.deadline details)
                 (Some match TaskDetails.priority details with
                       | Some p => p
                       | None => Medium
                       end)
                 pending).

(** Every match of [r] consumes a character of the class [Q]. *)
Fixpoint demands (Q : ascii -> bool) (ci : bool) (r : re) : Prop :=
  match r with
  | Chr c => forall x, chrEq ci c x = true -> Q x = true
  | Cls p => forall x, clsIn ci p x = true -> Q x = true
  | Seq a b => demands Q ci a \/ demands Q ci b
  | Alt a b => demands Q ci a /\ demands Q ci b
  | Grp _ a => demands Q ci a
  | _ => False
  end.

(** No match of [r] consumes the character [bad]. *)
Fixpoint avoids (bad : ascii) (ci : bool) (r : re) : bool :=
  match r with
  | Chr c => negb (chrEq ci c bad)
  | Cls p => negb (clsIn ci p bad)
  | Seq a b | Alt a b => avoids bad ci a && avoids bad ci b
  | Star _ a | Grp _ a => avoids bad ci a
  | _ => true
  end.

(* ================================================================== *)
(** ** What a match is *)
(* ================================================================== *)

(** [Matches ci r st st']: the pattern [r] takes the matcher from the
    state [st] to the state [st'], the relation the backtracking
    search of [run] explores. *)
Inductive Matches (ci : bool) : re -> mstate -> mstate -> Prop :=
| MatchEps (st : mstate) : Matches ci Eps st st
| MatchChr (c x : ascii) (xs : list ascii) (st : mstate) :
    rest st = x :: xs -> chrEq ci c x = true ->
    Matches ci (Chr c) st (advance x xs st)
| MatchCls (p : ascii -> bool) (x : ascii) (xs : list ascii) (st : mstate) :
    rest st = x :: xs -> clsIn ci p x = true ->
    Matches ci (Cls p) st (advance x xs st)
| MatchSeq (a b : re) (st st1 st2 : mstate) :
    Matches ci a st st1 -> Matches ci b st1 st2 -> Matches ci (Seq a b) st st2
| MatchAltL (a b : re) (st st' : mstate) :
    Matches ci a st st' -> Matches ci (Alt a b) st st'
| MatchAltR (a b : re) (st st' : mstate) :
    Matches ci b st st' -> Matches ci (Alt a b) st st'
| MatchStarStop (g : bool) (a : re) (st : mstate) : Matches ci (Star g a) st st
| MatchStarStep (g : bool) (a : re) (st st1 st2 : mstate) :
    Matches ci a st st1 -> Matches ci (Star g a) st1 st2 ->
    Matches ci (Star g a) st st2
| MatchGrp (n : nat) (a : re) (st st' : mstate) :
    Matches ci a st st' ->
    Matches ci (Grp n a) st
            (MState (pos st') (prev st') (rest st')
                    ((n, firstn (pos st' - pos st) (rest st)) :: caps st'))
| MatchBol (st : mstate) : pos st = 0 -> Matches ci Bol st st
| MatchEol (st : mstate) : rest st = [] -> Matches ci Eol st st
| MatchWb (st : mstate) :
    xorb (isWordOpt (prev st)) (isWordOpt (hd_error (rest st))) = true ->
    Matches ci Wb st st.

(** A contiguous part of a list. *)
Definition within {A : Type} (a l : list A) : Prop :=
  exists p q, l = p ++ a ++ q.

(** A contiguous part of a string. *)
Definition occursIn (a s : string) : Prop :=
  exists p q, s = (p ++ a ++ q)%string.

(** A pattern without capturing groups. *)
Fixpoint groupFree (r : re) : bool :=
  match r with
  | Grp _ _ => false
  | Seq a b | Alt a b => groupFree a && groupFree b
  | Star _ a => groupFree a
  | _ => true
  end.

(* ================================================================== *)
(** ** Further notions used to state the properties *)
(* ================================================================== *)

(** The state of the buckets: one bucket per key, no bucket empty,
    every task filed under its assignee and built by [newTask]. *)
Definition filed (self : TextAnalyzer) (env : Env) (m : JsMap.t (list Task)) : Prop :=
  NoDup (JsMap.keys m)
  /\ forall k ts, In (k, ts) m ->
       ts <> []
       /\ forall t, In t ts ->
            assignedTo t = k
            /\ exists n a x c, newTask self env n a x c = Some t.


(** Two upper-case letters, the shape of a speaker code. *)
Definition isCode (s : string) : Prop :=
  exists a b, s = String a (String b EmptyString)
              /\ Str.isUpper a = true /\ Str.isUpper b = true.

(* ================================================================== *)
(** ** Further sample data *)
(* ================================================================== *)

Definition urgentDuplicate : Task :=
  sampleTask "t9" "Please review caching code" "2025-04-23" High.

Definition oneWord : Task := sampleTask "t8" "Review" "2025-04-29" Low.

Definition reviewShouting : Task :=
  sampleTask "t7" "REVIEW Caching Code" "2025-04-24" Medium.

(* ================================================================== *)
(** ** Properties of the merge engine *)
(* ================================================================== *)

Section MergeFacts.

Lemma mem_In (x : string) (xs : list string) :
  Str.mem x xs = true <-> In x xs.
Proof.
  unfold Str.mem. rewrite existsb_exists. split.
  - intros [y [Hy Heq]]. apply String.eqb_eq in Heq. now subst.
  - intros H. exists x. split; [assumption | apply String.eqb_refl].
Qed.

Lemma filter_all {A : Type} (p : A -> bool) (l : list A) :
  (forall x, In x l -> p x = true) -> filter p l = l.
Proof.
  induction l as [| a l IH]; intros H; simpl; [reflexivity |].
  rewrite (H a (or_introl eq_refl)). f_equal. apply IH.
  intros x Hx. apply H. now right.
Qed.

(** The bound of [shouldMergeTasks] in integers. *)
Lemma atLeastSixtyPercent_nat (c n1 n2 : nat) :
  atLeastSixtyPercent c n1 n2 = (3 * Nat.min n1 n2 <=? 5 * c).
Proof.
  unfold atLeastSixtyPercent, Qle_bool. cbn [Qnum Qden Qmult inject_Z].
  destruct (Nat.leb_spec (3 * Nat.min n1 n2) (5 * c)) as [H | H].
  - apply Z.leb_le. lia.
  - apply Z.leb_gt. lia.
Qed.

(** [shouldMergeTasks] is the similarity rule on the two descriptions. *)
Lemma shouldMergeTasks_similarEnough (t1 t2 : Task) :
  shouldMergeTasks t1 t2 = similarEnough (description t1) (description t2).
Proof.
  unfold shouldMergeTasks, similarEnough, sharedTokens.
  rewrite atLeastSixtyPercent_nat.
  set (c := List.length (filter _ _)).
  set (n := Nat.min _ _).
  destruct (Nat.leb_spec (3 * n) (5 * c)); symmetry;
    [apply Nat.leb_le | apply Nat.leb_gt]; lia.
Qed.

Lemma similarEnough_refl (d : string) : similarEnough d d = true.
Proof.
  unfold similarEnough, sharedTokens.
  rewrite filter_all by (intros x Hx; now apply mem_In).
  apply Nat.leb_le. rewrite Nat.min_id. lia.
Qed.

Lemma withDescription_same (t : Task) : withDescription t (description t) = t.
Proof. now destruct t. Qed.

Lemma frame_mergeTasks (t1 t2 : Task) : frame (mergeTasks t1 t2) = frame t1.
Proof. reflexivity. Qed.

Lemma frame_withDescription (t : Task) (d : string) :
  frame (withDescription t d) = frame t.
Proof. reflexivity. Qed.

Lemma findIndex_none {A : Type} (p : A -> bool) (l : list A) :
  existsb p l = false -> findIndex p l = None.
Proof.
  induction l as [| a l IH]; simpl; [reflexivity |].
  destruct (p a); simpl; [discriminate |].
  intros H. now rewrite IH.
Qed.

(** On a settled list the loop only appends. *)
Lemma dedupeLoop_settled (tasks : list Task) :
  forall earlier seen,
    (forall d, In d seen -> exists e, In e earlier /\ description e = d) ->
    settledAfter earlier tasks = true ->
    dedupeLoop tasks earlier seen = earlier ++ tasks.
Proof.
  induction tasks as [| t tasks IH]; intros earlier seen Hseen Hs; simpl.
  - now rewrite app_nil_r.
  - simpl in Hs.
    apply andb_prop in Hs as [Hs Hrest]. apply andb_prop in Hs as [Hnorm Hfresh].
    apply String.eqb_eq in Hnorm. apply negb_true_iff in Hfresh.
    rewrite Hnorm, withDescription_same.
    destruct (Str.mem (description t) seen) eqn:Hmem.
    + apply mem_In, Hseen in Hmem as [e [He Hd]].
      assert (Hex : existsb (fun e0 => shouldMergeTasks e0 t) earlier = true).
      { apply existsb_exists. exists e. split; [assumption |].
        rewrite shouldMergeTasks_similarEnough, Hd. apply similarEnough_refl. }
      congruence.
    + rewrite (findIndex_none _ _ Hfresh), IH.
      * now rewrite <- app_assoc.
      * intros d [Hd | Hd].
        -- exists t. split; [apply in_or_app; right; now left | assumption].
        -- destruct (Hseen d Hd) as [e [He Hde]].
           exists e. split; [apply in_or_app; now left | assumption].
      * assumption.
Qed.

Lemma Subseq_In {A : Type} (s l : list A) (x : A) :
  Subseq s l -> In x s -> In x l.
Proof.
  induction 1 as [| y s l _ IH | y s l _ IH]; simpl; intros Hx.
  - assumption.
  - right. now apply IH.
  - destruct Hx as [Hx | Hx]; [now left | right; now apply IH].
Qed.

Lemma Subseq_NoDup {A : Type} (s l : list A) :
  Subseq s l -> NoDup l -> NoDup s.
Proof.
  induction 1 as [| y s l Hs IH | y s l Hs IH]; intros Hl.
  - constructor.
  - inversion Hl; subst. now apply IH.
  - inversion Hl as [| ? ? Hy Hl']; subst. constructor.
    + intros Hin. apply Hy. exact (Subseq_In _ _ _ Hs Hin).
    + now apply IH.
Qed.

Lemma Subseq_refl {A : Type} (l : list A) : Subseq l l.
Proof. induction l; [apply SubseqNil | now apply SubseqKeep]. Qed.

Lemma Subseq_nil {A : Type} (l : list A) : Subseq [] l.
Proof. induction l; [apply SubseqNil | now apply SubseqSkip]. Qed.

Lemma Subseq_app {A : Type} (s1 l1 s2 l2 : list A) :
  Subseq s1 l1 -> Subseq s2 l2 -> Subseq (s1 ++ s2) (l1 ++ l2).
Proof.
  induction 1 as [| x s l _ IH | x s l _ IH]; intros H2; simpl.
  - assumption.
  - apply SubseqSkip. now apply IH.
  - apply SubseqKeep. now apply IH.
Qed.

Lemma Subseq_skip_prefix {A : Type} (p s l : list A) :
  Subseq s l -> Subseq s (p ++ l).
Proof.
  intros H. induction p as [| x p IH]; simpl; [exact H | now apply SubseqSkip].
Qed.

(** A projection of tasks that merging and renaming leave alone is
    carried through the loop: the surviving values are those of the
    accepted tasks, in order. *)
Section Carried.

Context {B : Type} (f : Task -> B).
Hypothesis f_merge : forall t1 t2, f (mergeTasks t1 t2) = f t1.
Hypothesis f_rename : forall t d, f (withDescription t d) = f t.

Lemma map_updateAt_merge (task : Task) (result : list Task) :
  forall i, map f (updateAt i (fun t => mergeTasks t task) result) = map f result.
Proof.
  induction result as [| r result IH]; intros [| i]; simpl;
    try reflexivity; f_equal; auto.
Qed.

Lemma dedupeLoop_carried (tasks : list Task) :
  forall result seen,
    exists s, Subseq s (map f tasks)
              /\ map f (dedupeLoop tasks result seen) = map f result ++ s.
Proof.
  induction tasks as [| task tasks IH]; intros result seen; simpl.
  - exists []. split; [apply SubseqNil | now rewrite app_nil_r].
  - destruct (Str.mem _ seen).
    + destruct (IH result seen) as [s [Hs Heq]].
      exists s. split; [now apply SubseqSkip | assumption].
    + destruct (findIndex _ result) as [i |].
      * destruct (IH (updateAt i (fun t => mergeTasks t task) result) seen)
          as [s [Hs Heq]].
        exists s. split; [now apply SubseqSkip |].
        now rewrite Heq, map_updateAt_merge.
      * match goal with
        | |- context [dedupeLoop tasks ?r ?sn] =>
            destruct (IH r sn) as [s [Hs Heq]]
        end.
        exists (f task :: s). split; [now apply SubseqKeep |].
        rewrite Heq, map_app. simpl. rewrite f_rename, <- app_assoc.
        reflexivity.
Qed.

Lemma dedupe_carried (tasks : list Task) :
  Subseq (map f (deduplicateAndMergeTasks tasks)) (map f tasks).
Proof.
  unfold deduplicateAndMergeTasks.
  destruct (dedupeLoop_carried tasks [] []) as [s [Hs Heq]].
  rewrite Heq. exact Hs.
Qed.

End Carried.

End MergeFacts.

(** *** The claims on the merge engine *)

(** C9. The tiered priority classifier returns the same priority for
    a description whatever the context window: for every description
    [d] and context lists [c1], [c2],
    [determinePriority d c1 = determinePriority d c2]. *)
Theorem determinePriority_ignores_context :
  forall (d : string) (c1 c2 : list string),
    determinePriority d c1 = determinePriority d c2.
Proof. intros d c1 c2. unfold determinePriority. reflexivity. Qed.

(** C10. In a merge of two tasks, [assignedTo], [assignedDate],
    [status] and [id] of the surviving record are those of the
    first-seen task, whatever the second task is; through a whole run
    of the merge engine the surviving records carry, in order, these
    four fields of tasks of the input. *)
Theorem mergeTasks_keeps_frame_of_first :
  forall t1 t2 : Task,
    (assignedTo (mergeTasks t1 t2) = assignedTo t1
     /\ assignedDate (mergeTasks t1 t2) = assignedDate t1
     /\ status (mergeTasks t1 t2) = status t1
     /\ id (mergeTasks t1 t2) = id t1)
    /\ (forall t2', frame (mergeTasks t1 t2') = frame (mergeTasks t1 t2))
    /\ (forall tasks,
          Subseq (map frame (deduplicateAndMergeTasks tasks)) (map frame tasks)).
Proof.
  intros t1 t2. split; [| split].
  - repeat split.
  - intros t2'. now rewrite !frame_mergeTasks.
  - intros tasks.
    apply dedupe_carried; [apply frame_mergeTasks | apply frame_withDescription].
Qed.

(** C7, as stated, fails on a length tie: the two descriptions below
    have 17 characters each and the surviving record carries the
    second one, not the first-seen one. *)
Lemma merged_tie_keeps_second_description :
  String.length (description cacheCode) = String.length (description cacheTest)
  /\ deduplicateAndMergeTasks [cacheCode; cacheTest]
     = [mkTask "t1" "review cache test" "Tom Wilson" "2025-04-22" "2025-04-25"
               (Some Medium) pending]
  /\ description (mergeTasks cacheCode cacheTest) <> description cacheCode.
Proof.
  split; [reflexivity | split; [vm_compute; reflexivity |]].
  vm_compute. discriminate.
Qed.

(** C7, amended. When two tasks are merged the surviving record has
    the strictly longer description, and the second task's description
    on a length tie; the more urgent of the two priorities under
    [High > Medium > Low]; the earlier of the two deadlines; and the
    first-seen task's id. *)
Theorem mergeTasks_policy :
  forall (t1 t2 : Task) (p1 p2 : TaskPriority) (d1 d2 : DateTime),
    priority t1 = Some p1 -> priority t2 = Some p2 ->
    fromISO (deadline t1) = Some d1 -> fromISO (deadline t2) = Some d2 ->
    (String.length (description t2) < String.length (description t1) ->
     description (mergeTasks t1 t2) = description t1)
    /\ (String.length (description t1) <= String.length (description t2) ->
        description (mergeTasks t1 t2) = description t2)
    /\ priority (mergeTasks t1 t2) = Some (moreUrgent p1 p2)
    /\ fromISO (deadline (mergeTasks t1 t2)) = Some (Z.min d1 d2)
    /\ id (mergeTasks t1 t2) = id t1.
Proof.
  intros t1 t2 p1 p2 d1 d2 Hp1 Hp2 Hd1 Hd2.
  unfold mergeTasks. cbn [description priority deadline id].
  repeat split.
  - intros Hlt. apply Nat.ltb_lt in Hlt. now rewrite Hlt.
  - intros Hle. apply Nat.ltb_ge in Hle. now rewrite Hle.
  - rewrite Hp1, Hp2. now destruct p1, p2.
  - rewrite Hd1, Hd2. unfold dateLt.
    destruct (Z.ltb_spec d1 d2) as [H | H].
    + rewrite Hd1. f_equal. lia.
    + rewrite Hd2. f_equal. lia.
Qed.

Lemma mergeTasks_policy_witness :
  description (mergeTasks reviewLong reviewShort) = description reviewLong
  /\ priority (mergeTasks reviewLong reviewShort) = Some Medium
  /\ deadline (mergeTasks reviewLong reviewShort) = "2025-04-25"
  /\ id (mergeTasks reviewLong reviewShort) = "t2".
Proof.
  destruct (mergeTasks_policy reviewLong reviewShort Medium Low
              (daysFromCivil 2025 4 25) (daysFromCivil 2025 4 29)
              eq_refl eq_refl eq_refl eq_refl)
    as [Hlonger [_ [Hp [_ Hid]]]].
  split; [apply Hlonger; vm_compute; lia |].
  split; [exact Hp |].
  split; [reflexivity | exact Hid].
Defined.

(** C6, as stated, fails in both directions, because the engine
    compares normalized descriptions: the first two descriptions share
    two of their three tokens and both records survive; the last two
    share one of their two tokens and collapse into one record. *)
Lemma similarity_is_not_on_raw_descriptions :
  (similarEnough (description handleCaching) (description handleLogging) = true
   /\ map description (deduplicateAndMergeTasks [handleCaching; handleLogging])
      = ["handle caching"; "handle logging"])
  /\ (similarEnough (description illFix) (description toFix) = false
      /\ map description (deduplicateAndMergeTasks [illFix; toFix]) = ["fix"]).
Proof. repeat split; vm_compute; reflexivity. Qed.

(** C6, amended. [shouldMergeTasks] holds exactly when the number of
    tokens of the first description that occur in the second is at
    least 60 percent of the token count of the description with fewer
    tokens; the engine applies it to normalized descriptions: of two
    tasks whose normalized descriptions are similar enough one record
    remains, otherwise both remain, each under its normalized
    description. *)
Theorem dedupe_pair_by_normalized_similarity :
  forall t1 t2 : Task,
    let n1 := normalizeTaskDescription (description t1) in
    let n2 := normalizeTaskDescription (description t2) in
    shouldMergeTasks t1 t2 = similarEnough (description t1) (description t2)
    /\ deduplicateAndMergeTasks [t1; t2]
       = if similarEnough n1 n2
         then [if String.eqb n2 n1 then withDescription t1 n1
               else mergeTasks (withDescription t1 n1) t2]
         else [withDescription t1 n1; withDescription t2 n2].
Proof.
  intros t1 t2 n1 n2. split; [apply shouldMergeTasks_similarEnough |].
  unfold deduplicateAndMergeTasks. cbn [dedupeLoop Str.mem existsb findIndex app].
  fold n1 n2. rewrite orb_false_r.
  destruct (String.eqb n2 n1) eqn:Heq.
  - apply String.eqb_eq in Heq. rewrite Heq, similarEnough_refl. reflexivity.
  - rewrite shouldMergeTasks_similarEnough. cbn [description withDescription].
    destruct (similarEnough n1 n2); reflexivity.
Qed.

(** C5, as stated, fails: merging the two tasks below leaves one
    record under the longer, raw description, which a second merge
    normalizes. *)
Lemma merge_twice_differs :
  map description (deduplicateAndMergeTasks [reviewShort; reviewLong])
  = ["I'll review caching code now"]
  /\ map description
       (deduplicateAndMergeTasks (deduplicateAndMergeTasks [reviewShort; reviewLong]))
     = ["review caching code now"]
  /\ deduplicateAndMergeTasks (deduplicateAndMergeTasks [reviewShort; reviewLong])
     <> deduplicateAndMergeTasks [reviewShort; reviewLong].
Proof.
  split; [vm_compute; reflexivity | split; [vm_compute; reflexivity |]].
  vm_compute. discriminate.
Qed.

(** C5, amended. The merge leaves unchanged every list in which each
    description is its own normal form and no record is similar to a
    later one; so a second merge is a no-op, [merge (merge L) = merge L],
    whenever [merge L] is such a list. *)
Theorem merge_idempotent_when_settled :
  forall L : list Task,
    settled (deduplicateAndMergeTasks L) = true ->
    deduplicateAndMergeTasks (deduplicateAndMergeTasks L)
    = deduplicateAndMergeTasks L.
Proof.
  intros L Hs. unfold deduplicateAndMergeTasks at 1.
  rewrite dedupeLoop_settled; [reflexivity | intros d [] | exact Hs].
Qed.

Lemma merge_idempotent_when_settled_witness :
  deduplicateAndMergeTasks (deduplicateAndMergeTasks [reviewNow; reviewShort; cacheTest])
  = deduplicateAndMergeTasks [reviewNow; reviewShort; cacheTest].
Proof.
  apply merge_idempotent_when_settled. vm_compute. reflexivity.
Defined.

(* ================================================================== *)
(** ** Properties of the temporal resolver and of task creation *)
(* ================================================================== *)


(** The handler reaches that arithmetic when the key it looks up
    survives the removal of ["day"], as for ["by fridayday"], and not
    for a weekday name. *)
Example by_fridayday_on_a_monday :
  option_map toFormat (extractDate mondayAnalyzer meetingDay "by fridayday")
  = Some "2025-04-25"
  /\ extractDate mondayAnalyzer meetingDay "by Friday" = None.
Proof. split; vm_compute; reflexivity. Qed.

(** C2 (the code departs from it). For every weekday name and every
    meeting-date context, [extractDate] resolves ["by <weekday>"] to
    no date at all: the handler strips ["day"] from the name and looks
    up ["fri"], ["mon"], ... in a table keyed by the full names. *)
Theorem by_weekday_is_never_resolved :
  forall (self : TextAnalyzer) (env : Env) (w : WeekdayName),
    extractDate self env ("by " ++ spell w) = None
    /\ extractDate self env ("by " ++ Str.toLowerCase (spell w)) = None.
Proof. intros self env w. destruct w; split; vm_compute; reflexivity. Qed.

(** C4 (the code departs from it). When neither the candidate's text
    nor its context window resolves to a date, the task [addTask]
    creates has the meeting date as [assignedDate] and the processing
    date plus seven days as [deadline]. *)
Theorem default_deadline_counts_from_the_clock :
  forall (self : TextAnalyzer) (env : Env) (k : nat)
         (assignee description : string) (context : list string) (task : Task),
    extractDate self env description = None ->
    extractDate self env (Str.join " " context) = None ->
    newTask self env k assignee description context = Some task ->
    assignedDate task = toFormat (dateContext self)
    /\ deadline task = toFormat (plusDays 7 (now env)).
Proof.
  intros self env k assignee description context task Hd Hc Hnew.
  unfold newTask in Hnew.
  destruct (_ || _) in Hnew; [discriminate |].
  injection Hnew as <-. cbn [assignedDate deadline].
  unfold deadlineOf. rewrite Hd, Hc. split; reflexivity.
Qed.

Lemma default_deadline_counts_from_the_clock_witness :
  exists task,
    newTask exampleAnalyzer laterDay 0 "JS" "review the onboarding guide" []
    = Some task
    /\ assignedDate task = "2025-04-22"
    /\ deadline task = "2026-11-09".
Proof.
  exists (mkTask "k3v9x2m1q" "review the onboarding guide" "John Smith"
                 "2025-04-22" "2026-11-09" (Some Low) pending).
  split; [vm_compute; reflexivity |].
  exact (default_deadline_counts_from_the_clock exampleAnalyzer laterDay 0 "JS"
           "review the onboarding guide" [] _ eq_refl eq_refl eq_refl).
Defined.

(** C1, as stated, fails. Run on the day of the meeting, the example
    yields two tasks, not one; the request is filed under
    ["Unassigned"], not ["Tom Wilson"], and its deadline is
    2025-04-29, not 2025-04-24. *)
Lemma example_yields_two_tasks :
  construct meetingDay exampleTranscript = exampleAnalyzer
  /\ extractTasks exampleAnalyzer meetingDay
     = [ ("Unassigned",
          [mkTask "k3v9x2m1q" "fix the Redis caching issue by Thursday"
                  "Unassigned" "2025-04-22" "2025-04-29" (Some High) pending]);
         ("Tom Wilson",
          [mkTask "7fd0a4z8w" "Sure, I'll handle that"
                  "Tom Wilson" "2025-04-22" "2025-04-29" (Some Low) pending]) ].
Proof. split; vm_compute; reflexivity. Qed.

(** C1, amended. For the example transcript, with its date and roster
    lines, the pipeline produces two tasks whatever the processing
    date and the random ids: the request, under ["Unassigned"] (the
    captured name, upper-cased to ["TOM"], is no roster code), with
    description ["fix the Redis caching issue by Thursday"] and
    priority [High]; and the reply ["Sure, I'll handle that"],
    assigned to ["Tom Wilson"] with priority [Low]; both with
    [assignedDate] 2025-04-22 and status [pending]. *)
Theorem example_outline :
  forall env : Env,
    map (fun entry => (fst entry, map outline (snd entry)))
        (extractTasks (construct env exampleTranscript) env)
    = [ ("Unassigned",
         [("fix the Redis caching issue by Thursday", "Unassigned", "2025-04-22",
           Some High, pending)]);
        ("Tom Wilson",
         [("Sure, I'll handle that", "Tom Wilson", "2025-04-22",
           Some Low, pending)]) ].
Proof. intros env. vm_compute. reflexivity. Qed.

(* ================================================================== *)
(** ** Task ids *)
(* ================================================================== *)

Lemma allTasks_pushInto (m : JsMap.t (list Task)) (k : string) (t : Task) :
  Permutation (allTasks (pushInto m k t)) (t :: allTasks m).
Proof.
  unfold pushInto, allTasks. induction m as [| [k' v] m IH]; simpl.
  - constructor. constructor.
  - destruct (String.eqb k k'); simpl.
    + rewrite <- app_assoc. simpl. symmetry. apply Permutation_middle.
    + rewrite IH. symmetry. apply (Permutation_middle v _ t).
Qed.

Lemma allIds_allTasks (m : JsMap.t (list Task)) :
  allIds m = map id (allTasks m).
Proof.
  unfold allIds, allTasks. induction m as [| [k v] m IH]; simpl; [reflexivity |].
  now rewrite map_app, IH.
Qed.

Section Ids.

Variable self : TextAnalyzer.
Variable env : Env.

Lemma allIds_pushInto (m : JsMap.t (list Task)) (k : string) (t : Task) :
  Permutation (allIds (pushInto m k t)) (id t :: allIds m).
Proof.
  rewrite !allIds_allTasks.
  exact (Permutation_map id (allTasks_pushInto m k t)).
Qed.

Lemma addTask_idsDrawn (st : Run) (assignee description : string)
    (context : list string) :
  idsDrawnIn env st -> idsDrawnIn env (addTask self env st assignee description context).
Proof.
  unfold idsDrawnIn, addTask. intros H.
  destruct (newTask self env (draws st) assignee description context)
    as [task |] eqn:Hnew; [| exact H].
  cbn [tasks draws]. rewrite allIds_pushInto, seq_S, map_app. simpl.
  assert (Hid : id task = randomId env (draws st)).
  { unfold newTask in Hnew. destruct (_ || _) in Hnew; [discriminate |].
    now injection Hnew as <-. }
  rewrite Hid, H. apply Permutation_cons_append.
Qed.

Lemma fold_left_preserves {A B : Type} (P : A -> Prop) (f : A -> B -> A) :
  (forall a b, P a -> P (f a b)) ->
  forall l a, P a -> P (fold_left f l a).
Proof.
  intros Hf l. induction l as [| b l IH]; intros a Ha; simpl; auto.
Qed.

Lemma decisionStep_idsDrawn (acc : bool * string * Run) (d : DialogueLine) :
  idsDrawnIn env (snd acc) -> idsDrawnIn env (snd (decisionStep self env acc d)).
Proof.
  destruct acc as [[inList lastSpeaker] st]. unfold decisionStep. cbn [snd].
  intros H.
  destruct (test _ _); [exact H |].
  destruct inList; [| exact H].
  destruct (exec numberedTaskPattern _) as [m |]; [| exact H].
  destruct (group 1 m); [| exact H].
  cbn [snd]. now apply addTask_idsDrawn.
Qed.

Lemma tryPatterns_idsDrawn (ps : list TaskPattern) (st st' : Run)
    (d : DialogueLine) (w : list string) :
  idsDrawnIn env st -> tryPatterns self env ps st d w = Some st' -> idsDrawnIn env st'.
Proof.
  intros H. induction ps as [| p ps IH]; cbn [tryPatterns]; [discriminate |].
  destruct (exec _ _) as [m |]; [| exact IH].
  cbv zeta.
  repeat match goal with
         | |- (match ?x with _ => _ end = Some _ -> _) => destruct x
         | |- ((if ?x then _ else _) = Some _ -> _) => destruct x
         end; try exact IH.
  intros Heq. injection Heq as <-. now apply addTask_idsDrawn.
Qed.

Lemma lineStep_idsDrawn (dialogues : list DialogueLine) (st : Run)
    (x : nat * DialogueLine) :
  idsDrawnIn env st -> idsDrawnIn env (lineStep self env dialogues st x).
Proof.
  destruct x as [index d]. unfold lineStep. intros H.
  destruct (tryPatterns _ _ _ _ _ _) as [st' |] eqn:Htry.
  - exact (tryPatterns_idsDrawn _ _ _ _ _ H Htry).
  - destruct (isTaskLike _); [now apply addTask_idsDrawn | exact H].
Qed.

Lemma collectTasks_idsDrawn : idsDrawnIn env (collectTasks self env).
Proof.
  unfold collectTasks.
  set (dialogues := parseDialogue (text self)).
  pose proof (fold_left_preserves (fun acc => idsDrawnIn env (snd acc))
                (decisionStep self env) decisionStep_idsDrawn dialogues
                (false, EmptyString, mkRun [] 0)) as H1.
  destruct (fold_left (decisionStep self env) dialogues _) as [[b sp] st1].
  apply fold_left_preserves.
  - intros a b0. apply lineStep_idsDrawn.
  - apply H1. unfold idsDrawnIn. simpl. constructor.
Qed.

Lemma allIds_deduplicated (m : JsMap.t (list Task)) :
  Subseq (allIds (map (fun entry => (fst entry, deduplicateAndMergeTasks (snd entry))) m))
         (allIds m).
Proof.
  induction m as [| [k v] m IH]; simpl; [apply SubseqNil |].
  apply Subseq_app; [| exact IH].
  apply (dedupe_carried id); reflexivity.
Qed.

Lemma employeesOf_ids (m : JsMap.t (list Task)) :
  Subseq (flat_map (fun e => map id (Employee.tasks e)) (employeesOf self m))
         (allIds m).
Proof.
  induction m as [| [k v] m IH]; [apply SubseqNil |].
  unfold employeesOf in *. cbn [filterMap fst snd].
  unfold allIds. cbn [flat_map snd]. fold (allIds m).
  destruct v as [| t v]; [exact IH |].
  destruct (JsMap.get k (employeeNames self)).
  - cbn [flat_map Employee.tasks]. apply Subseq_app; [apply Subseq_refl | exact IH].
  - apply Subseq_skip_prefix. exact IH.
Qed.

Lemma employeeTaskMap_ids (d : string) (found : list AITask) :
  forall start m,
    Permutation
      (allIds (fold_left
                 (fun m kt => pushInto m (aiAssignee (snd kt))
                                       (taskOfAI self env d (fst kt) (snd kt)))
                 (combine (seq start (List.length found)) found) m))
      (allIds m ++ map (randomId env) (seq start (List.length found))).
Proof.
  induction found as [| t found IH]; intros start m; simpl.
  - now rewrite app_nil_r.
  - rewrite IH, allIds_pushInto. cbn [fst snd taskOfAI id app].
    apply Permutation_middle.
Qed.

End Ids.

(** C8, as stated, fails: ids are random draws and nothing keeps two
    draws apart; with a generator that returns the same value twice
    the two tasks of the example share their id. *)
Lemma repeated_draw_repeats_id :
  allIds (extractTasks exampleAnalyzer stuckGenerator) = ["k3v9x2m1q"; "k3v9x2m1q"]
  /\ ~ NoDup (allIds (extractTasks exampleAnalyzer stuckGenerator)).
Proof.
  assert (H : allIds (extractTasks exampleAnalyzer stuckGenerator)
              = ["k3v9x2m1q"; "k3v9x2m1q"]) by (vm_compute; reflexivity).
  split; [exact H |]. rewrite H. intros Hnd.
  inversion Hnd as [| ? ? Hnotin _]. apply Hnotin. now left.
Qed.

(** C8, amended. The ids of the tasks of a run are the successive
    random draws of the run; they are pairwise distinct whenever these
    draws are, both in the tasks [extractTasks] returns and in the
    tasks [analyze] reports for an AI analysis. *)
Theorem ids_distinct_when_draws_distinct :
  forall (self : TextAnalyzer) (env : Env),
    (NoDup (map (randomId env) (seq 0 (draws (collectTasks self env)))) ->
     NoDup (allIds (extractTasks self env)))
    /\ (forall aiAnalysis : AIAnalysisResponse,
          NoDup (map (randomId env) (seq 0 (List.length (aiTasks aiAnalysis)))) ->
          NoDup (flat_map (fun e => map id (Employee.tasks e))
                          (employees (assemble self env aiAnalysis)))).
Proof.
  intros self env. split.
  - intros Hnd. unfold extractTasks.
    apply (Subseq_NoDup _ _ (allIds_deduplicated _)).
    apply (Permutation_NoDup (Permutation_sym (collectTasks_idsDrawn self env))).
    exact Hnd.
  - intros aiAnalysis Hnd. unfold assemble. cbn [employees].
    apply (Subseq_NoDup _ _ (employeesOf_ids self _)).
    unfold employeeTaskMap, indexed.
    apply (Permutation_NoDup
             (Permutation_sym (employeeTaskMap_ids self env _ _ 0 []))).
    exact Hnd.
Qed.

Lemma ids_distinct_when_draws_distinct_witness :
  NoDup (allIds (extractTasks exampleAnalyzer meetingDay)).
Proof.
  apply (proj1 (ids_distinct_when_draws_distinct exampleAnalyzer meetingDay)).
  vm_compute. repeat constructor; simpl; intuition discriminate.
Defined.


(* ================================================================== *)
(** ** The provider *)
(* ================================================================== *)

Lemma allOf_thrown {A : Type} (os : list (Outcome A)) (e : string) :
  In (Thrown e) os -> exists e', allOf os = Thrown e'.
Proof.
  induction os as [| o os IH]; [contradiction |].
  intros [H | H]; simpl.
  - subst o. simpl. eauto.
  - destruct o as [a | e0]; simpl; [| eauto].
    destruct (IH H) as [e' He']. rewrite He'. simpl. eauto.
Qed.

Lemma allOf_returned {A : Type} (os : list (Outcome A)) :
  forall l, allOf os = Returned l -> forall a, In a l -> In (Returned a) os.
Proof.
  induction os as [| o os IH]; simpl; intros l Hl a Ha.
  - injection Hl as <-. contradiction.
  - destruct o as [x | e]; simpl in Hl; [| discriminate].
    destruct (allOf os) as [l' | e]; simpl in Hl; [| discriminate].
    injection Hl as <-. destruct Ha as [<- | Ha]; [now left | right].
    now apply (IH l').
Qed.

Lemma In_filterMap {A B : Type} (f : A -> option B) (l : list A) (b : B) :
  In b (filterMap f l) -> exists a, In a l /\ f a = Some b.
Proof.
  induction l as [| x l IH]; simpl; [contradiction |].
  destruct (f x) as [y |] eqn:Hfx.
  - intros [<- | H]; [exists x; auto |].
    destruct (IH H) as [a [Ha Hfa]]. exists a. auto.
  - intros H. destruct (IH H) as [a [Ha Hfa]]. exists a. auto.
Qed.

Section ProviderFacts.

Variable query : string -> string -> Outcome Response.
Variable aiDeterminePriority : string -> string.
Variable aiExtractDeadline : string -> option string.

Lemma identifyTasks_thrown (ds : list DialogueLine) (c : Candidate) (m : string) :
  In c (candidates ds) ->
  query classificationModel (candContent c) = Thrown m ->
  exists e, identifyTasks query aiDeterminePriority aiExtractDeadline ds = Thrown e.
Proof.
  intros Hc Hq. unfold identifyTasks.
  destruct (allOf_thrown
              (map (validateTask query aiDeterminePriority aiExtractDeadline)
                   (candidates ds)) m) as [e He].
  - apply in_map_iff. exists c. split; [| assumption].
    unfold validateTask. now rewrite Hq.
  - rewrite He. simpl. eauto.
Qed.

Lemma extractKeyPoints_thrown (ds : list DialogueLine) (d m : string) :
  In d (groupDecisions None (filter isDecisionIndicator ds) [] EmptyString) ->
  query classificationModel d = Thrown m ->
  exists e, extractKeyPoints query ds = Thrown e.
Proof.
  intros Hd Hq. unfold extractKeyPoints.
  destruct (allOf_thrown (map (validateDecision query)
              (groupDecisions None (filter isDecisionIndicator ds) [] EmptyString)) m)
    as [e He].
  - apply in_map_iff. exists d. split; [| assumption].
    unfold validateDecision. now rewrite Hq.
  - rewrite He. simpl. eauto.
Qed.

(** A request that fails makes [analyzeText] throw. *)
Lemma analyzeText_thrown (s : string) (rq : string * string) (m : string) :
  In rq (requests s) ->
  query (fst rq) (snd rq) = Thrown m ->
  analyzeText query aiDeterminePriority aiExtractDeadline s
  = Thrown "Failed to analyze text with AI".
Proof.
  unfold requests, analyzeText. set (ds := parseDialogue s).
  intros Hin Hq.
  enough (H : exists e,
             andThen (generateSummary query ds) (fun summary =>
             andThen (identifyTasks query aiDeterminePriority aiExtractDeadline ds)
                     (fun found =>
             andThen (extractKeyPoints query ds) (fun points =>
               Returned (mkAIAnalysis summary found points)))) = Thrown e)
    by (destruct H as [e He]; now rewrite He).
  destruct Hin as [<- | Hin].
  - unfold generateSummary. cbn [fst snd] in Hq. rewrite Hq. simpl. eauto.
  - destruct (generateSummary query ds) as [summary | e]; simpl; [| eauto].
    apply in_app_or in Hin as [Hin | Hin]; apply in_map_iff in Hin as [x [<- Hx]];
      cbn [fst snd] in Hq.
    + destruct (identifyTasks_thrown ds x m Hx Hq) as [e He].
      rewrite He. simpl. eauto.
    + destruct (identifyTasks query aiDeterminePriority aiExtractDeadline ds);
        simpl; [| eauto].
      destruct (extractKeyPoints_thrown ds x m Hx Hq) as [e He].
      rewrite He. simpl. eauto.
Qed.

(** The tasks [identifyTasks] returns are candidates of the keyword
    filter that the classifier accepted. *)
Lemma identifyTasks_filters (ds : list DialogueLine) (found : list AITask) :
  identifyTasks query aiDeterminePriority aiExtractDeadline ds = Returned found ->
  forall t, In t found ->
    exists c labels scores,
      In c (candidates ds)
      /\ aiDescription t = candContent c
      /\ query classificationModel (candContent c) = Returned (Labelled labels scores)
      /\ headIs ["task assignment"; "action item"] labels = true
      /\ headAbove scores = true.
Proof.
  unfold identifyTasks.
  destruct (allOf _) as [validated |] eqn:Hall; simpl; [| discriminate].
  intros Hf t Ht. injection Hf as <-.
  apply In_filterMap in Ht as [o [Ho ->]].
  apply (allOf_returned _ _ Hall) in Ho.
  apply in_map_iff in Ho as [c [Hv Hc]].
  unfold validateTask in Hv.
  destruct (query classificationModel (candContent c)) as [[texts | labels scores] | e]
    eqn:Hq; simpl in Hv; try discriminate.
  destruct (headIs _ labels && headAbove scores) eqn:Hacc; [| discriminate].
  injection Hv as <-. apply andb_prop in Hacc as [Hl Hs].
  exists c, labels, scores. auto.
Qed.

End ProviderFacts.

Lemma employeeTaskMap_tasks (self : TextAnalyzer) (env : Env) (d : string)
    (l : list (nat * AITask)) :
  forall m,
    Permutation
      (allTasks (fold_left
                   (fun m kt => pushInto m (aiAssignee (snd kt))
                                         (taskOfAI self env d (fst kt) (snd kt)))
                   l m))
      (allTasks m ++ map (fun kt => taskOfAI self env d (fst kt) (snd kt)) l).
Proof.
  induction l as [| kt l IH]; intros m; simpl.
  - now rewrite app_nil_r.
  - rewrite IH, allTasks_pushInto. apply Permutation_middle.
Qed.

Lemma employeesOf_tasks (self : TextAnalyzer) (m : JsMap.t (list Task))
    (e : Employee.t) (t : Task) :
  In e (employeesOf self m) -> In t (Employee.tasks e) -> In t (allTasks m).
Proof.
  unfold employeesOf, allTasks. intros He Ht.
  apply In_filterMap in He as [[k v] [Hin Hsome]]. cbn [fst snd] in Hsome.
  destruct v as [| t0 v]; [discriminate |].
  destruct (JsMap.get k (employeeNames self)); [| discriminate].
  injection Hsome as <-. cbn [Employee.tasks] in Ht.
  apply in_flat_map. exists (k, t0 :: v). auto.
Qed.

(** C3, as stated, fails: with the provider down, [analyze] returns
    no analysis for the example; it throws. *)
Lemma provider_down_analysis_throws :
  analyze exampleAnalyzer meetingDay downProvider (fun _ => "LOW") (fun _ => None)
  = Thrown "Failed to analyze text".
Proof. vm_compute. reflexivity. Qed.

(** With a provider that answers, the line selected by the keyword
    filter and accepted by the classifier is the one task reported. *)
Example answering_provider_analysis_returns :
  match analyze (construct meetingDay reviewTranscript) meetingDay
                answeringProvider (fun _ => "LOW") (fun _ => None) with
  | Returned r =>
      map (fun e => (Employee.name e, map description (Employee.tasks e)))
          (employees r)
      = [("Tom Wilson", ["I will review the caching implementation"])]
  | Thrown _ => False
  end.
Proof. vm_compute. reflexivity. Qed.

(** C3, amended. [analyze] has no heuristic fallback: whenever a
    request of the run to the provider fails, it throws ["Failed to
    analyze text"], and without an API key the analyzer is not even
    constructed. When [analyze] returns, every task it reports is a
    line selected by the deterministic keyword filter that the
    provider's classification accepted: classification only filters
    candidates. *)
Theorem provider_failure_is_surfaced :
  forall (self : TextAnalyzer) (env : Env)
         (query : string -> string -> Outcome Response)
         (aiDeterminePriority : string -> string)
         (aiExtractDeadline : string -> option string),
    (forall rq message,
        In rq (requests (text self)) ->
        query (fst rq) (snd rq) = Thrown message ->
        analyze self env query aiDeterminePriority aiExtractDeadline
        = Thrown "Failed to analyze text")
    /\ (forall r,
          analyze self env query aiDeterminePriority aiExtractDeadline = Returned r ->
          forall e t, In e (employees r) -> In t (Employee.tasks e) ->
            exists c labels scores,
              In c (candidates (parseDialogue (text self)))
              /\ description t = candContent c
              /\ query classificationModel (candContent c)
                 = Returned (Labelled labels scores)
              /\ headIs ["task assignment"; "action item"] labels = true
              /\ headAbove scores = true)
    /\ (forall s, newTextAnalyzer env s EmptyString
                  = Thrown "Hugging Face API key is required").
Proof.
  intros self env query prio dl. split; [| split].
  - intros rq message Hin Hq. unfold analyze.
    now rewrite (analyzeText_thrown query prio dl _ rq message Hin Hq).
  - intros r Hr e t He Ht. unfold analyze in Hr.
    unfold analyzeText in Hr.
    destruct (generateSummary query _) as [summary |]; simpl in Hr; [| discriminate].
    destruct (identifyTasks query prio dl _) as [found |] eqn:Hfound;
      simpl in Hr; [| discriminate].
    destruct (extractKeyPoints query _) as [points |]; simpl in Hr; [| discriminate].
    injection Hr as <-. unfold assemble in He. cbn [employees aiTasks] in He.
    pose proof (employeesOf_tasks self _ e t He Ht) as Hin.
    unfold employeeTaskMap in Hin.
    apply (Permutation_in _ (employeeTaskMap_tasks self env _ _ [])) in Hin.
    cbn [allTasks flat_map app] in Hin.
    apply in_map_iff in Hin as [[k ai] [<- Hk]]. cbn [fst snd taskOfAI description].
    apply in_combine_r in Hk.
    destruct (identifyTasks_filters query prio dl _ found Hfound ai Hk)
      as [c [labels [scores [Hc [Hd H]]]]].
    exists c, labels, scores. rewrite Hd. auto.
  - intros s. reflexivity.
Qed.

Lemma provider_failure_is_surfaced_witness :
  analyze exampleAnalyzer meetingDay
          (fun model inputs =>
             if String.eqb model summaryModel
             then answeringProvider model inputs
             else downProvider model inputs)
          (fun _ => "LOW") (fun _ => None)
  = Thrown "Failed to analyze text".
Proof.
  apply (proj1 (provider_failure_is_surfaced exampleAnalyzer meetingDay _ _ _))
    with (rq := (classificationModel,
                 "Tom, can you fix the Redis caching issue by Thursday"))
         (message := "Failed to query Hugging Face API: connect ECONNREFUSED").
  - vm_compute. right. left. reflexivity.
  - reflexivity.
Defined.

(* ================================================================== *)
(** ** Further properties of the merge engine *)
(* ================================================================== *)

Lemma Subseq_length {A : Type} (s l : list A) :
  Subseq s l -> List.length s <= List.length l.
Proof.
  induction 1 as [| x s l _ IH | x s l _ IH]; simpl; lia.
Qed.

Lemma updateAt_head (task r0 : Task) (result : list Task) (i : nat) :
  exists r R,
    updateAt i (fun t => mergeTasks t task) (r0 :: result) = r :: R
    /\ frame r = frame r0.
Proof.
  destruct i as [| i]; simpl; eauto.
Qed.

(** Once a record is accepted, the first place of the result is its
    own: the loop may merge into it, never displace it. *)
Lemma dedupeLoop_head (tasks : list Task) :
  forall r0 result seen,
    exists r R,
      dedupeLoop tasks (r0 :: result) seen = r :: R /\ frame r = frame r0.
Proof.
  induction tasks as [| task tasks IH]; intros r0 result seen; cbn [dedupeLoop].
  - eauto.
  - destruct (Str.mem _ seen); [apply IH |].
    match goal with
    | |- context [findIndex ?p (r0 :: result)] =>
        destruct (findIndex p (r0 :: result)) as [i |]
    end.
    + destruct (updateAt_head task r0 result i) as [r [R [-> Hr]]].
      destruct (IH r R seen) as [r' [R' [Heq Hr']]].
      exists r', R'. split; [exact Heq | congruence].
    + apply (IH r0 (result ++ [withDescription task _])).
Qed.

(** X1. The merge never returns more records than it is given; it
    returns none only for an empty list, and otherwise the first record
    of the result carries the id, assignee, assigned date and status of
    the first task of the input. *)
Theorem dedupe_never_grows_and_keeps_the_first :
  forall L : list Task,
    List.length (deduplicateAndMergeTasks L) <= List.length L
    /\ match L with
       | [] => deduplicateAndMergeTasks L = []
       | t :: _ =>
           exists r R, deduplicateAndMergeTasks L = r :: R /\ frame r = frame t
       end.
Proof.
  intros L. split.
  - rewrite <- (length_map frame (deduplicateAndMergeTasks L)),
            <- (length_map frame L).
    apply Subseq_length.
    apply dedupe_carried; [apply frame_mergeTasks | apply frame_withDescription].
  - destruct L as [| t L]; [reflexivity |].
    unfold deduplicateAndMergeTasks.
    cbn [dedupeLoop Str.mem existsb findIndex app].
    destruct (dedupeLoop_head L (withDescription t (normalizeTaskDescription (description t)))
                [] [normalizeTaskDescription (description t)]) as [r [R [Heq Hr]]].
    exists r, R. split; [exact Heq |]. now rewrite Hr, frame_withDescription.
Qed.

Lemma dedupeLoop_all_seen (tasks result : list Task) (seen : list string) :
  (forall u, In u tasks -> Str.mem (normalizeTaskDescription (description u)) seen = true) ->
  dedupeLoop tasks result seen = result.
Proof.
  induction tasks as [| task tasks IH]; intros H; simpl; [reflexivity |].
  rewrite (H task (or_introl eq_refl)). apply IH.
  intros u Hu. apply H. now right.
Qed.

(** X2. Tasks whose descriptions normalize to the same text are not
    merged: the first one is kept under the normalized description and
    the others are dropped, so a higher priority or an earlier deadline
    of a dropped duplicate is lost. *)
Theorem exact_duplicates_are_dropped_unmerged :
  forall (t : Task) (L : list Task),
    (forall u, In u L ->
       normalizeTaskDescription (description u)
       = normalizeTaskDescription (description t)) ->
    deduplicateAndMergeTasks (t :: L)
    = [withDescription t (normalizeTaskDescription (description t))].
Proof.
  intros t L H. unfold deduplicateAndMergeTasks.
  cbn [dedupeLoop Str.mem existsb findIndex app].
  apply dedupeLoop_all_seen. intros u Hu.
  apply mem_In. left. symmetry. now apply H.
Qed.

Lemma exact_duplicates_are_dropped_unmerged_witness :
  deduplicateAndMergeTasks [reviewShort; urgentDuplicate]
  = [reviewShort]
  /\ priority urgentDuplicate = Some High
  /\ priority reviewShort = Some Low.
Proof.
  split; [| split; reflexivity].
  apply (exact_duplicates_are_dropped_unmerged reviewShort [urgentDuplicate]).
  intros u [<- | []]. vm_compute. reflexivity.
Defined.

(** X3. A description of a single word merges with every description
    that has this word among its tokens, whichever of the two was seen
    first. *)
Theorem one_word_description_merges_with_any_holder :
  forall (t1 t2 : Task) (w : string),
    tokenize (description t2) = [w] ->
    In w (tokenize (description t1)) ->
    shouldMergeTasks t1 t2 = true /\ shouldMergeTasks t2 t1 = true.
Proof.
  intros t1 t2 w H2 H1.
  rewrite !shouldMergeTasks_similarEnough.
  unfold similarEnough, sharedTokens. rewrite H2.
  set (d1 := tokenize (description t1)) in *.
  assert (Hlen : 1 <= List.length d1) by (destruct d1; [contradiction | simpl; lia]).
  split; apply Nat.leb_le.
  - assert (Hc : 1 <= List.length (filter (fun x => Str.mem x [w]) d1)).
    { clear Hlen. induction d1 as [| a d1 IH]; [contradiction |].
      simpl. destruct H1 as [-> | H1].
      - rewrite String.eqb_refl. simpl. lia.
      - destruct (String.eqb a w); simpl; [lia | now apply IH]. }
    cbn [List.length]. rewrite Nat.min_r by lia. lia.
  - cbn [filter List.length].
    replace (Str.mem w d1) with true by (symmetry; now apply mem_In).
    cbn [List.length]. rewrite Nat.min_l by lia. lia.
Qed.

Lemma one_word_description_merges_with_any_holder_witness :
  shouldMergeTasks reviewLong oneWord = true
  /\ shouldMergeTasks oneWord reviewLong = true.
Proof.
  apply (one_word_description_merges_with_any_holder reviewLong oneWord "review").
  - reflexivity.
  - vm_compute. right. left. reflexivity.
Defined.

(* ================================================================== *)
(** ** Properties of tokens and of normalization *)
(* ================================================================== *)

Lemma lowerChar_upperChar (c : ascii) :
  Str.lowerChar (Str.upperChar c) = Str.lowerChar c.
Proof. destruct c as [[] [] [] [] [] [] [] []]; reflexivity. Qed.

Lemma lowerChar_idem (c : ascii) :
  Str.lowerChar (Str.lowerChar c) = Str.lowerChar c.
Proof. destruct c as [[] [] [] [] [] [] [] []]; reflexivity. Qed.

Lemma isUpper_lowerChar (c : ascii) : Str.isUpper (Str.lowerChar c) = false.
Proof. destruct c as [[] [] [] [] [] [] [] []]; reflexivity. Qed.

Lemma chars_ofChars (l : list ascii) : Str.chars (Str.ofChars l) = l.
Proof. apply list_ascii_of_string_of_list_ascii. Qed.

Lemma ofChars_chars (s : string) : Str.ofChars (Str.chars s) = s.
Proof. apply string_of_list_ascii_of_string. Qed.

Lemma toLowerCase_toUpperCase (s : string) :
  Str.toLowerCase (Str.toUpperCase s) = Str.toLowerCase s.
Proof.
  unfold Str.toLowerCase, Str.toUpperCase.
  rewrite chars_ofChars, map_map. f_equal.
  apply map_ext. apply lowerChar_upperChar.
Qed.

Lemma toLowerCase_idem (s : string) :
  Str.toLowerCase (Str.toLowerCase s) = Str.toLowerCase s.
Proof.
  unfold Str.toLowerCase.
  rewrite chars_ofChars, map_map. f_equal.
  apply map_ext. apply lowerChar_idem.
Qed.

Lemma tokenize_by_lower (d d' : string) :
  Str.toLowerCase d = Str.toLowerCase d' -> tokenize d = tokenize d'.
Proof. unfold tokenize. now intros ->. Qed.

(** X4. Similarity does not see letter case: writing the first
    description in upper case and the second in lower case changes
    nothing to [shouldMergeTasks]. *)
Theorem shouldMergeTasks_ignores_case :
  forall t1 t2 : Task,
    shouldMergeTasks (withDescription t1 (Str.toUpperCase (description t1)))
                     (withDescription t2 (Str.toLowerCase (description t2)))
    = shouldMergeTasks t1 t2.
Proof.
  intros t1 t2. unfold shouldMergeTasks. cbn [description withDescription].
  rewrite (tokenize_by_lower _ _ (toLowerCase_toUpperCase (description t1))).
  rewrite (tokenize_by_lower _ _ (toLowerCase_idem (description t2))).
  reflexivity.
Qed.

Lemma similarEnough_by_lower (d1 d2 : string) :
  Str.toLowerCase d1 = Str.toLowerCase d2 -> similarEnough d1 d2 = true.
Proof.
  intros H. unfold similarEnough, sharedTokens.
  rewrite (tokenize_by_lower _ _ H).
  apply (similarEnough_refl d2).
Qed.

(** X5. Two tasks whose normalized descriptions agree up to letter
    case always collapse into one record, which keeps the id, assignee,
    assigned date and status of the first. *)
Theorem pair_equal_up_to_case_collapses :
  forall t1 t2 : Task,
    Str.toLowerCase (normalizeTaskDescription (description t1))
    = Str.toLowerCase (normalizeTaskDescription (description t2)) ->
    exists r, deduplicateAndMergeTasks [t1; t2] = [r] /\ frame r = frame t1.
Proof.
  intros t1 t2 H. unfold deduplicateAndMergeTasks.
  cbn [dedupeLoop Str.mem existsb findIndex app].
  destruct (_ || false).
  - eexists. split; [reflexivity | apply frame_withDescription].
  - rewrite shouldMergeTasks_similarEnough. cbn [description withDescription].
    rewrite (similarEnough_by_lower _ _ H). cbn [updateAt].
    eexists. split; [reflexivity |].
    now rewrite frame_mergeTasks, frame_withDescription.
Qed.

Lemma pair_equal_up_to_case_collapses_witness :
  exists r, deduplicateAndMergeTasks [reviewShort; reviewShouting] = [r]
            /\ frame r = frame reviewShort.
Proof.
  apply pair_equal_up_to_case_collapses. vm_compute. reflexivity.
Defined.

Lemma splitWs_tokens (Q : ascii -> Prop) (l : list ascii) :
  (forall c, In c l -> Str.isSpace c = false -> Q c) ->
  forall cur inRun tok,
    Forall Q cur ->
    In tok (Str.splitWs cur inRun l) -> Forall Q (Str.chars tok).
Proof.
  induction l as [| c l IH]; intros Hl cur inRun tok Hcur; simpl.
  - intros [<- | []]. rewrite chars_ofChars. now apply Forall_rev.
  - assert (Hl' : forall c0, In c0 l -> Str.isSpace c0 = false -> Q c0)
      by (intros c0 Hc0; apply Hl; now right).
    destruct (Str.isSpace c) eqn:Hsp.
    + destruct inRun.
      * now apply IH.
      * intros [<- | Hin].
        -- rewrite chars_ofChars. now apply Forall_rev.
        -- now apply (IH Hl' [] true).
    + apply IH; [assumption |].
      constructor; [apply Hl; [now left | assumption] | assumption].
Qed.

Lemma splitWs_nonempty (l cur : list ascii) (inRun : bool) :
  Str.splitWs cur inRun l <> [].
Proof.
  revert cur inRun. induction l as [| c l IH]; intros cur inRun; simpl.
  - discriminate.
  - destruct (Str.isSpace c); [destruct inRun; [apply IH | discriminate] | apply IH].
Qed.

(** X6. [tokenize] always returns at least one token, and no token
    holds a whitespace character or an upper-case letter. *)
Theorem tokenize_shape :
  forall s : string,
    tokenize s <> []
    /\ forall tok c,
         In tok (tokenize s) -> In c (Str.chars tok) ->
         Str.isSpace c = false /\ Str.isUpper c = false.
Proof.
  intros s. unfold tokenize. split; [apply splitWs_nonempty |].
  intros tok c Htok Hc.
  pose proof (splitWs_tokens
                (fun c => Str.isSpace c = false /\ Str.isUpper c = false)
                (Str.chars (Str.toLowerCase s))) as H.
  refine (proj1 (Forall_forall _ _) (H _ [] false tok (Forall_nil _) Htok) c Hc).
  intros c0 Hc0 Hsp. split; [assumption |].
  unfold Str.toLowerCase in Hc0. rewrite chars_ofChars in Hc0.
  apply in_map_iff in Hc0 as [x [<- _]]. apply isUpper_lowerChar.
Qed.

Lemma dropSpaces_head (l r : list ascii) (c : ascii) :
  Str.dropSpaces l = c :: r -> Str.isSpace c = false.
Proof.
  induction l as [| a l IH]; simpl; [discriminate |].
  destruct (Str.isSpace a) eqn:Ha; [exact IH |].
  intros H. injection H as <- _. exact Ha.
Qed.

Lemma dropSpaces_suffix (l : list ascii) :
  exists p, l = p ++ Str.dropSpaces l.
Proof.
  induction l as [| a l [p Hp]]; simpl; [now exists [] |].
  destruct (Str.isSpace a).
  - exists (a :: p). simpl. now f_equal.
  - now exists [].
Qed.

(** What [trim] returns neither starts nor ends with whitespace. *)
Lemma trim_ends (s : string) (c : ascii) :
  (hd_error (Str.chars (Str.trim s)) = Some c -> Str.isSpace c = false)
  /\ (hd_error (rev (Str.chars (Str.trim s))) = Some c -> Str.isSpace c = false).
Proof.
  unfold Str.trim. rewrite chars_ofChars, rev_involutive.
  set (A := Str.dropSpaces (Str.chars s)).
  split.
  - destruct (dropSpaces_suffix (rev A)) as [p Hp].
    destruct (Str.dropSpaces (rev A)) as [| x R] eqn:HR; [discriminate |].
    (* the last of a suffix of rev A is the head of A *)
    assert (HA : A = rev (x :: R) ++ rev p).
    { rewrite <- rev_app_distr, <- Hp. now rewrite rev_involutive. }
    intros Hhd.
    assert (Hc : hd_error A = Some c).
    { rewrite HA. destruct (rev (x :: R)) as [| y Y] eqn:HY.
      - apply (f_equal (@List.length ascii)) in HY.
        rewrite length_rev in HY. discriminate.
      - simpl in *. exact Hhd. }
    unfold A in Hc.
    destruct (Str.dropSpaces (Str.chars s)) as [| a A'] eqn:HdA; [discriminate |].
    injection Hc as ->. exact (dropSpaces_head _ _ _ HdA).
  - destruct (Str.dropSpaces (rev A)) as [| x R] eqn:HR; [discriminate |].
    intros H. injection H as <-. exact (dropSpaces_head _ _ _ HR).
Qed.

(* ================================================================== *)
(** ** Properties of the matcher *)
(* ================================================================== *)

(** What [run] finds is a match followed by the continuation. *)
Lemma run_sound (ci : bool) (r : re) :
  forall st k res,
    run ci r st k = Some res ->
    exists st', Matches ci r st st' /\ k st' = Some res.
Proof.
  induction r as [| c | p | a IHa b IHb | a IHa b IHb | g a IHa | n a IHa | | |];
    intros st k res H; cbn [run] in H.
  - exists st. split; [constructor | exact H].
  - destruct (rest st) as [| x xs] eqn:Hr; [discriminate |].
    destruct (chrEq ci c x) eqn:Hc; [| discriminate].
    exists (advance x xs st). split; [now constructor | exact H].
  - destruct (rest st) as [| x xs] eqn:Hr; [discriminate |].
    destruct (clsIn ci p x) eqn:Hc; [| discriminate].
    exists (advance x xs st). split; [now constructor | exact H].
  - apply IHa in H as [st1 [Ha H]]. apply IHb in H as [st2 [Hb H]].
    exists st2. split; [econstructor; eassumption | exact H].
  - destruct (run ci a st k) as [res' |] eqn:Hrun.
    + injection H as <-. apply IHa in Hrun as [st' [Ha Hk]].
      exists st'. split; [now apply MatchAltL | exact Hk].
    + apply IHb in H as [st' [Hb Hk]].
      exists st'. split; [now apply MatchAltR | exact Hk].
  - match type of H with
    | ?f (List.length _) st = _ => set (loop := f) in H
    end.
    assert (H0 : forall st0, loop 0 st0 = k st0) by reflexivity.
    assert (Hstep : forall n st0,
              loop (S n) st0
              = if g
                then match run ci a st0
                             (fun st' => if pos st' =? pos st0 then None
                                         else loop n st') with
                     | Some r0 => Some r0
                     | None => k st0
                     end
                else match k st0 with
                     | Some r0 => Some r0
                     | None =>
                         run ci a st0
                             (fun st' => if pos st' =? pos st0 then None
                                         else loop n st')
                     end) by reflexivity.
    clearbody loop. revert H. generalize (List.length (rest st)). intros n.
    revert st res. induction n as [| n IHn]; intros st res H.
    + rewrite H0 in H. exists st. split; [constructor | exact H].
    + rewrite Hstep in H.
      assert (Hagain :
        forall r0,
          run ci a st (fun st' => if pos st' =? pos st then None else loop n st')
          = Some r0 ->
          exists st', Matches ci (Star g a) st st' /\ k st' = Some r0).
      { intros r0 Hr. apply IHa in Hr as [st1 [Ha Hk]].
        destruct (pos st1 =? pos st); [discriminate |].
        apply IHn in Hk as [st2 [Hs Hk]].
        exists st2. split; [econstructor; eassumption | exact Hk]. }
      destruct g.
      * destruct (run ci a st _) as [r0 |] eqn:Hrun.
        -- injection H as <-. now apply Hagain.
        -- exists st. split; [constructor | exact H].
      * destruct (k st) as [r0 |] eqn:Hk.
        -- injection H as <-. exists st. split; [constructor | exact Hk].
        -- now apply Hagain.
  - apply IHa in H as [st' [Ha Hk]].
    eexists. split; [apply MatchGrp; eassumption | exact Hk].
  - destruct (pos st =? 0) eqn:Hp; [| discriminate].
    apply Nat.eqb_eq in Hp. exists st. split; [now constructor | exact H].
  - destruct (rest st) eqn:Hr; [| discriminate].
    exists st. split; [now constructor | exact H].
  - destruct (xorb _ _) eqn:Hx; [| discriminate].
    exists st. split; [now constructor | exact H].
Qed.

(** A match consumes a piece of the remaining input and moves the
    position by its length. *)
Lemma Matches_span (ci : bool) (r : re) (st st' : mstate) :
  Matches ci r st st' ->
  exists mid, rest st = mid ++ rest st' /\ pos st' = pos st + List.length mid.
Proof.
  induction 1 as [st | c x xs st Hr _ | p x xs st Hr _
                 | a b st st1 st2 _ [m1 [H1 P1]] _ [m2 [H2 P2]]
                 | a b st st' _ IH | a b st st' _ IH
                 | g a st
                 | g a st st1 st2 _ [m1 [H1 P1]] _ [m2 [H2 P2]]
                 | n a st st' _ [m [Hm Pm]]
                 | st _ | st _ | st _];
    try (exists []; split; [reflexivity | simpl; lia]);
    try exact IH.
  - exists [x]. simpl. split; [exact Hr | lia].
  - exists [x]. simpl. split; [exact Hr | lia].
  - exists (m1 ++ m2). rewrite H1, H2, <- app_assoc, length_app.
    split; [reflexivity | lia].
  - exists (m1 ++ m2). rewrite H1, H2, <- app_assoc, length_app.
    split; [reflexivity | lia].
  - exists m. simpl. split; assumption.
Qed.

Lemma within_refl {A : Type} (l : list A) : within l l.
Proof. exists [], []. now rewrite app_nil_r. Qed.

Lemma within_trans {A : Type} (a b c : list A) :
  within a b -> within b c -> within a c.
Proof.
  intros [p [q ->]] [p' [q' ->]]. exists (p' ++ p), (q ++ q').
  now rewrite <- !app_assoc.
Qed.

Lemma within_prefix {A : Type} (a q : list A) : within a (a ++ q).
Proof. now exists [], q. Qed.

Lemma within_suffix {A : Type} (p a : list A) : within a (p ++ a).
Proof. exists p, []. now rewrite app_nil_r. Qed.

(** Captures are pieces of the subject. *)
Lemma Matches_caps (ci : bool) (subject : list ascii) (r : re) (st st' : mstate) :
  Matches ci r st st' ->
  (exists p, subject = p ++ rest st) ->
  Forall (fun nv => within (snd nv) subject) (caps st) ->
  (exists p, subject = p ++ rest st')
  /\ Forall (fun nv => within (snd nv) subject) (caps st').
Proof.
  induction 1 as [st | c x xs st Hr _ | p x xs st Hr _
                 | a b st st1 st2 _ IH1 _ IH2
                 | a b st st' _ IH | a b st st' _ IH
                 | g a st
                 | g a st st1 st2 _ IH1 _ IH2
                 | n a st st' Hm IH
                 | st _ | st _ | st _];
    intros Hsuf Hcaps; try (split; assumption); auto.
  - destruct Hsuf as [p0 Hp]. split; [| exact Hcaps].
    exists (p0 ++ [x]). cbn [rest advance]. now rewrite Hp, Hr, <- app_assoc.
  - destruct Hsuf as [p0 Hp]. split; [| exact Hcaps].
    exists (p0 ++ [x]). cbn [rest advance]. now rewrite Hp, Hr, <- app_assoc.
  - destruct (IH1 Hsuf Hcaps) as [H1 H2]. now apply IH2.
  - destruct (IH1 Hsuf Hcaps) as [H1 H2]. now apply IH2.
  - destruct (IH Hsuf Hcaps) as [H1 H2]. cbn [rest caps]. split; [assumption |].
    constructor; [| assumption]. cbn [snd].
    destruct (Matches_span _ _ _ _ Hm) as [mid [Hmid Hpos]].
    replace (pos st' - pos st) with (List.length mid) by lia.
    rewrite Hmid, firstn_app, Nat.sub_diag, firstn_all. simpl. rewrite app_nil_r.
    destruct Hsuf as [p0 Hp]. exists p0, (rest st'). now rewrite Hp, Hmid.
Qed.

(** What [searchFrom] returns is a match that starts somewhere in the
    text it is given. *)
Lemma searchFrom_sound (rx : regex) (l : list ascii) :
  forall i before m,
    searchFrom rx i before l = Some m ->
    exists p l' b st',
      l = p ++ l'
      /\ first m = i + List.length p
      /\ Matches (ignoreCase rx) (Re.pattern rx) (MState (first m) b l' []) st'
      /\ last m = pos st'
      /\ groups m = caps st'.
Proof.
  induction l as [| c l IH]; intros i before m H; cbn [searchFrom] in H.
  - destruct (run _ _ _ Some) as [st |] eqn:Hrun; [| discriminate].
    injection H as <-. apply run_sound in Hrun as [st' [Hm Hk]].
    injection Hk as <-. exists [], [], before, st'. simpl.
    repeat split; [lia | assumption].
  - destruct (run _ _ _ Some) as [st |] eqn:Hrun.
    + injection H as <-. apply run_sound in Hrun as [st' [Hm Hk]].
      injection Hk as <-. exists [], (c :: l), before, st'. simpl.
      repeat split; [lia | assumption].
    + apply IH in H as [p [l' [b [st' [Hl [Hf [Hm [Hlast Hg]]]]]]]].
      exists (c :: p), l', b, st'. simpl.
      repeat split; try assumption; [now f_equal | lia].
Qed.

Lemma lookup_In (n : nat) (cs : list (nat * list ascii)) (v : list ascii) :
  lookup n cs = Some v -> In (n, v) cs.
Proof.
  induction cs as [| [m0 v0] cs IH]; simpl; [discriminate |].
  destruct (m0 =? n) eqn:Hm.
  - apply Nat.eqb_eq in Hm. intros H. injection H as ->. subst. now left.
  - intros H. right. now apply IH.
Qed.

Lemma chars_app (a b : string) :
  Str.chars (a ++ b)%string = Str.chars a ++ Str.chars b.
Proof. induction a as [| c a IH]; simpl; [reflexivity | now f_equal]. Qed.

Lemma ofChars_app (a b : list ascii) :
  Str.ofChars (a ++ b) = (Str.ofChars a ++ Str.ofChars b)%string.
Proof. induction a as [| c a IH]; simpl; [reflexivity | now f_equal]. Qed.

Lemma occursIn_within (a s : string) :
  occursIn a s <-> within (Str.chars a) (Str.chars s).
Proof.
  split.
  - intros [p [q ->]]. exists (Str.chars p), (Str.chars q).
    now rewrite !chars_app.
  - intros [p [q H]]. exists (Str.ofChars p), (Str.ofChars q).
    rewrite <- (ofChars_chars s), H, !ofChars_app. now rewrite ofChars_chars.
Qed.

Lemma occursIn_refl (s : string) : occursIn s s.
Proof. apply occursIn_within, within_refl. Qed.

Lemma occursIn_trans (a b c : string) :
  occursIn a b -> occursIn b c -> occursIn a c.
Proof. rewrite !occursIn_within. apply within_trans. Qed.

(** Every group of a match is a contiguous part of the subject. *)
Lemma exec_group_occurs (rx : regex) (s g : string) (m : result) (n : nat) :
  exec rx s = Some m -> group n m = Some g -> occursIn g s.
Proof.
  unfold exec, group. intros He Hg.
  apply searchFrom_sound in He as [p [l' [b [st' [Hl [_ [Hm [_ Hgr]]]]]]]].
  destruct (lookup n (groups m)) as [v |] eqn:Hv; [| discriminate].
  injection Hg as <-. apply occursIn_within. rewrite chars_ofChars.
  apply lookup_In in Hv. rewrite Hgr in Hv.
  destruct (Matches_caps _ (Str.chars s) _ _ _ Hm) as [_ Hall].
  - exists p. exact Hl.
  - constructor.
  - exact (proj1 (Forall_forall _ _) Hall _ Hv).
Qed.

(** The span of a match lies inside the subject. *)
Lemma exec_span (rx : regex) (s : string) (m : result) :
  exec rx s = Some m ->
  exists p mid q,
    Str.chars s = p ++ mid ++ q
    /\ first m = List.length p
    /\ last m = List.length p + List.length mid
    /\ exists b st',
         Matches (ignoreCase rx) (Re.pattern rx) (MState (first m) b (mid ++ q) []) st'
         /\ rest st' = q.
Proof.
  unfold exec. intros He.
  apply searchFrom_sound in He as [p [l' [b [st' [Hl [Hf [Hm [Hlast _]]]]]]]].
  destruct (Matches_span _ _ _ _ Hm) as [mid [Hmid Hpos]]. cbn [rest pos] in *.
  exists p, mid, (rest st'). rewrite Hl, Hmid.
  repeat split; try lia.
  exists b, st'. rewrite <- Hmid. auto.
Qed.

Lemma Matches_groupFree (ci : bool) (r : re) (st st' : mstate) :
  Matches ci r st st' -> groupFree r = true -> caps st' = caps st.
Proof.
  induction 1 as [st | c x xs st _ _ | p x xs st _ _
                 | a b st st1 st2 _ IH1 _ IH2
                 | a b st st' _ IH | a b st st' _ IH
                 | g a st
                 | g a st st1 st2 _ IH1 _ IH2
                 | n a st st' _ _
                 | st _ | st _ | st _];
    cbn [groupFree]; intros Hg; try reflexivity.
  - apply andb_prop in Hg as [Ha Hb]. now rewrite IH2, IH1.
  - apply andb_prop in Hg as [Ha Hb]. now apply IH.
  - apply andb_prop in Hg as [Ha Hb]. now apply IH.
  - rewrite IH2 by exact Hg. now apply IH1.
  - discriminate.
Qed.

(** Removing a match anchored at the start leaves a suffix, removing
    a match anchored at the end leaves a prefix. *)
Lemma remove_at_start (r : re) (ci : bool) (s : string) :
  exists p, Str.chars s = p ++ Str.chars (remove (Regex (Seq Bol r) ci) s).
Proof.
  unfold remove, replace.
  destruct (exec _ s) as [m |] eqn:He; [| now exists []].
  destruct (exec_span _ _ _ He) as [p [mid [q [Hs [Hf [Hl [b [st' [Hm Hq]]]]]]]]].
  cbn [Re.pattern ignoreCase] in Hm.
  inversion Hm as [| | | a0 b0 s0 s1 s2 Hbol _ | | | | | | | |]; subst.
  inversion Hbol as [| | | | | | | | | s3 Hpos | |]; subst.
  cbn [pos] in Hpos. rewrite Hpos in Hf. symmetry in Hf.
  apply length_zero_iff_nil in Hf. subst p.
  rewrite chars_ofChars, Hs, Hl, Hpos. simpl.
  rewrite skipn_app, skipn_all, Nat.sub_diag. simpl. now exists mid.
Qed.

Lemma remove_at_end (r : re) (ci : bool) (s : string) :
  exists q, Str.chars s = Str.chars (remove (Regex (Seq r Eol) ci) s) ++ q.
Proof.
  unfold remove, replace.
  destruct (exec _ s) as [m |] eqn:He; [| exists []; now rewrite app_nil_r].
  destruct (exec_span _ _ _ He) as [p [mid [q [Hs [Hf [Hl [b [st' [Hm Hq]]]]]]]]].
  cbn [Re.pattern ignoreCase] in Hm.
  inversion Hm as [| | | a0 b0 s0 s1 s2 _ Heol | | | | | | | |]; subst.
  inversion Heol as [| | | | | | | | | | s3 Hrest |]; subst.
  rewrite Hrest in Hs. rewrite app_nil_r in Hs.
  rewrite chars_ofChars, Hs, Hf, Hl. simpl.
  rewrite firstn_app, firstn_all, Nat.sub_diag. simpl.
  rewrite <- length_app, skipn_all, !app_nil_r. now exists mid.
Qed.

Lemma trim_within (s : string) :
  within (Str.chars (Str.trim s)) (Str.chars s).
Proof.
  unfold Str.trim. rewrite chars_ofChars.
  destruct (dropSpaces_suffix (Str.chars s)) as [p Hp].
  destruct (dropSpaces_suffix (rev (Str.dropSpaces (Str.chars s)))) as [q Hq].
  apply (f_equal (@rev ascii)) in Hq. rewrite rev_involutive, rev_app_distr in Hq.
  exists p, (rev q). now rewrite <- Hq.
Qed.

Lemma trim_occurs (s : string) : occursIn (Str.trim s) s.
Proof. apply occursIn_within, trim_within. Qed.

Lemma remove_at_start_occurs (r : re) (ci : bool) (s : string) :
  occursIn (remove (Regex (Seq Bol r) ci) s) s.
Proof.
  apply occursIn_within. destruct (remove_at_start r ci s) as [p Hp].
  exists p, []. now rewrite app_nil_r.
Qed.

Lemma remove_at_end_occurs (r : re) (ci : bool) (s : string) :
  occursIn (remove (Regex (Seq r Eol) ci) s) s.
Proof.
  apply occursIn_within. destruct (remove_at_end r ci s) as [q Hq].
  now exists [], q.
Qed.

Lemma normalize_occurs (d : string) : occursIn (normalizeTaskDescription d) d.
Proof.
  unfold normalizeTaskDescription.
  eapply occursIn_trans; [apply trim_occurs |].
  eapply occursIn_trans; [apply (remove_at_start_occurs _ true) |].
  apply (remove_at_start_occurs _ true).
Qed.

Lemma cleanDescriptionOf_occurs (d : string) : occursIn (cleanDescriptionOf d) d.
Proof.
  unfold cleanDescriptionOf.
  eapply occursIn_trans; [apply trim_occurs |].
  eapply occursIn_trans; [apply (remove_at_end_occurs _ false) |].
  eapply occursIn_trans; [apply (remove_at_start_occurs _ true) |].
  apply (remove_at_start_occurs _ true).
Qed.

(* ================================================================== *)
(** ** Invariants of the task buckets *)
(* ================================================================== *)

Lemma JsMap_get_In {V : Type} (k : string) (v : V) (m : JsMap.t V) :
  JsMap.get k m = Some v -> In (k, v) m.
Proof.
  induction m as [| [k' v'] m IH]; simpl; [discriminate |].
  destruct (String.eqb k k') eqn:Hk.
  - apply String.eqb_eq in Hk. intros H. injection H as ->. subst. now left.
  - intros H. right. now apply IH.
Qed.

Lemma JsMap_In_set {V : Type} (k k0 : string) (v v0 : V) (m : JsMap.t V) :
  In (k0, v0) (JsMap.set k v m) -> (k0 = k /\ v0 = v) \/ In (k0, v0) m.
Proof.
  induction m as [| [k' v'] m IH]; simpl.
  - intros [H | []]. injection H as <- <-. now left.
  - destruct (String.eqb k k') eqn:Hk.
    + apply String.eqb_eq in Hk. subst k'.
      intros [H | H]; [injection H as <- <-; now left | right; now right].
    + intros [H | H]; [right; now left |].
      destruct (IH H) as [Heq | Hin]; [now left | right; now right].
Qed.

Lemma JsMap_keys_set {V : Type} (k x : string) (v : V) (m : JsMap.t V) :
  In x (JsMap.keys (JsMap.set k v m)) -> x = k \/ In x (JsMap.keys m).
Proof.
  unfold JsMap.keys. intros H. apply in_map_iff in H as [[k0 v0] [<- Hin]].
  destruct (JsMap_In_set _ _ _ _ _ Hin) as [[-> _] | Hin']; [now left | right].
  apply in_map_iff. now exists (k0, v0).
Qed.

Lemma JsMap_NoDup_set {V : Type} (k : string) (v : V) (m : JsMap.t V) :
  NoDup (JsMap.keys m) -> NoDup (JsMap.keys (JsMap.set k v m)).
Proof.
  induction m as [| [k' v'] m IH]; simpl; intros H.
  - constructor; [intros [] | constructor].
  - destruct (String.eqb k k') eqn:Hk; [exact H |].
    inversion H as [| ? ? Hnotin Hnd]; subst. simpl. constructor; [| now apply IH].
    intros Hin. destruct (JsMap_keys_set _ _ _ _ Hin) as [-> | Hin'].
    + now rewrite String.eqb_refl in Hk.
    + now apply Hnotin.
Qed.

Lemma In_pushInto (m : JsMap.t (list Task)) (k k0 : string) (t : Task)
    (ts : list Task) :
  In (k0, ts) (pushInto m k t) ->
  In (k0, ts) m
  \/ (k0 = k /\ exists b, ts = b ++ [t] /\ (b = [] \/ In (k, b) m)).
Proof.
  unfold pushInto. intros H.
  destruct (JsMap_In_set _ _ _ _ _ H) as [[-> ->] | Hin]; [right | now left].
  split; [reflexivity |].
  destruct (JsMap.get k m) as [b |] eqn:Hget.
  - exists b. split; [reflexivity | right; now apply JsMap_get_In].
  - exists []. split; [reflexivity | now left].
Qed.

Section Buckets.

Variable self : TextAnalyzer.
Variable env : Env.

Lemma mapAssignee_range (assignee : string) :
  mapAssignee self assignee = "Unassigned"
  \/ In (mapAssignee self assignee) (JsMap.values (employeeNames self)).
Proof.
  unfold mapAssignee.
  assert (Hv : forall k n, JsMap.get k (employeeNames self) = Some n ->
                           In n (JsMap.values (employeeNames self))).
  { intros k n H. apply JsMap_get_In in H. unfold JsMap.values.
    apply in_map_iff. now exists (k, n). }
  destruct (JsMap.get assignee _) as [n |] eqn:H1; [right; eauto |].
  destruct (find _ _) as [k |]; [| now left].
  destruct (JsMap.get k _) as [n |] eqn:H2; [right; eauto | now left].
Qed.

Lemma truthy_Some (o : option string) (x : string) :
  truthy o = Some x -> o = Some x.
Proof. destruct o as [[| c s] |]; simpl; congruence. Qed.

Lemma fold_left_preserves_In {A B : Type} (P : A -> Prop) (f : A -> B -> A)
    (l : list B) :
  (forall a b, In b l -> P a -> P (f a b)) ->
  forall a, P a -> P (fold_left f l a).
Proof.
  induction l as [| b l IH]; intros Hf a Ha; simpl; [exact Ha |].
  apply IH.
  - intros a0 b0 Hb0. apply Hf. now right.
  - apply Hf; [now left | exact Ha].
Qed.

(** Each step of the two extraction loops leaves the run alone or is
    one call of [addTask], on a piece of the line it reads. *)
Lemma tryPatterns_cases (ps : list TaskPattern) (st st' : Run)
    (d : DialogueLine) (w : list string) :
  tryPatterns self env ps st d w = Some st' ->
  exists a x, st' = addTask self env st a x w /\ occursIn x (content d).
Proof.
  induction ps as [| p ps IH]; cbn [tryPatterns]; [discriminate |].
  destruct (exec _ _) as [m |] eqn:Hexec; [| exact IH].
  cbv zeta.
  match goal with
  | |- match truthy (Some ?a) with _ => _ end = _ -> _ =>
      destruct (truthy (Some a)) as [a0 |]; [| exact IH]
  end.
  match goal with
  | |- match truthy ?o with _ => _ end = _ -> _ =>
      destruct (truthy o) as [x |] eqn:Hx; [| exact IH]
  end.
  destruct (3 <? _); [| exact IH].
  intros Heq. injection Heq as <-. exists a0, x. split; [reflexivity |].
  apply truthy_Some in Hx.
  destruct (groupOpt (taskGroup p) m) as [g |] eqn:Hg.
  - injection Hx as <-. unfold groupOpt in Hg.
    destruct (taskGroup p) as [n |]; [| discriminate].
    apply truthy_Some in Hg. exact (exec_group_occurs _ _ _ _ _ Hexec Hg).
  - exact (exec_group_occurs _ _ _ _ _ Hexec Hx).
Qed.

Lemma lineStep_cases (dialogues : list DialogueLine) (st : Run)
    (x : nat * DialogueLine) :
  lineStep self env dialogues st x = st
  \/ exists a y c, lineStep self env dialogues st x = addTask self env st a y c
                   /\ occursIn y (content (snd x)).
Proof.
  destruct x as [index d]. unfold lineStep. cbn [snd].
  destruct (tryPatterns _ _ _ _ _ _) as [st' |] eqn:Htry.
  - destruct (tryPatterns_cases _ _ _ _ _ Htry) as [a [y [-> Hy]]]. right. eauto.
  - destruct (isTaskLike _); [right | now left].
    exists (speaker d), (content d). eexists. split; [reflexivity |].
    apply occursIn_refl.
Qed.

Lemma decisionStep_cases (acc : bool * string * Run) (d : DialogueLine) :
  snd (decisionStep self env acc d) = snd acc
  \/ exists a y c, snd (decisionStep self env acc d) = addTask self env (snd acc) a y c
                   /\ occursIn y (content d).
Proof.
  destruct acc as [[inList lastSpeaker] st]. unfold decisionStep. cbn [snd].
  destruct (test _ _); [now left |].
  destruct inList; [| now left].
  destruct (exec numberedTaskPattern _) as [m |] eqn:Hexec; [| now left].
  destruct (group 1 m) as [item |] eqn:Hitem; [| now left].
  right. cbn [snd]. do 3 eexists. split; [reflexivity |].
  exact (exec_group_occurs _ _ _ _ _ Hexec Hitem).
Qed.

(** What [addTask] keeps true, when called on a piece of a dialogue
    line, holds of the buckets handed to the final deduplication. *)
Lemma collectTasks_ind (P : Run -> Prop) :
  P (mkRun [] 0) ->
  (forall st a x c d,
      In d (parseDialogue (text self)) -> occursIn x (content d) ->
      P st -> P (addTask self env st a x c)) ->
  P (collectTasks self env).
Proof.
  intros H0 Hadd. unfold collectTasks.
  set (dialogues := parseDialogue (text self)).
  assert (H1 : P (snd (fold_left (decisionStep self env) dialogues
                                 (false, EmptyString, mkRun [] 0)))).
  { apply (fold_left_preserves_In (fun acc => P (snd acc))); [| exact H0].
    intros acc d Hd Hacc.
    destruct (decisionStep_cases acc d) as [-> | [a [y [c [-> Hy]]]]]; eauto. }
  destruct (fold_left (decisionStep self env) dialogues _) as [[b sp] st1].
  apply fold_left_preserves_In; [| exact H1].
  intros st [i d] Hx Hst.
  assert (Hd : In d dialogues) by (unfold indexed in Hx; now apply in_combine_r in Hx).
  destruct (lineStep_cases dialogues st (i, d)) as [-> | [a [y [c [-> Hy]]]]]; eauto.
Qed.

Lemma fold_left_count {A B : Type} (f : A -> B -> A) (size : A -> nat) :
  (forall a b, size (f a b) <= size a + 1) ->
  forall l a, size (fold_left f l a) <= size a + List.length l.
Proof.
  intros Hf l. induction l as [| b l IH]; intros a; simpl; [lia |].
  specialize (IH (f a b)). specialize (Hf a b). lia.
Qed.

Lemma addTask_draws (st : Run) (a x : string) (c : list string) :
  draws (addTask self env st a x c) <= draws st + 1.
Proof.
  unfold addTask. destruct (newTask _ _ _ _ _ _); simpl; lia.
Qed.

Lemma collectTasks_draws :
  draws (collectTasks self env) <= 2 * List.length (parseDialogue (text self)).
Proof.
  unfold collectTasks.
  set (dialogues := parseDialogue (text self)).
  assert (Hdec : forall acc d,
            draws (snd (decisionStep self env acc d)) <= draws (snd acc) + 1).
  { intros acc d.
    destruct (decisionStep_cases acc d) as [-> | [a [y [c [-> _]]]]];
      [lia | apply addTask_draws]. }
  pose proof (fold_left_count (decisionStep self env) (fun acc => draws (snd acc))
                Hdec dialogues (false, EmptyString, mkRun [] 0)) as H1.
  destruct (fold_left (decisionStep self env) dialogues _) as [[b sp] st1].
  cbn [snd draws] in H1.
  pose proof (fold_left_count (lineStep self env dialogues) draws) as H2.
  assert (Hstep : forall st x, draws (lineStep self env dialogues st x) <= draws st + 1).
  { intros st x.
    destruct (lineStep_cases dialogues st x) as [-> | [a [y [c [-> _]]]]];
      [lia | apply addTask_draws]. }
  specialize (H2 Hstep (indexed dialogues) st1).
  unfold indexed in *. rewrite length_combine, length_seq, Nat.min_id in H2.
  lia.
Qed.

Lemma updateAt_Forall {A : Type} (Q : A -> Prop) (f : A -> A) (l : list A) :
  (forall a, Q a -> Q (f a)) ->
  forall i, Forall Q l -> Forall Q (updateAt i f l).
Proof.
  intros Hf. induction l as [| a l IH]; intros i H; [destruct i; constructor |].
  inversion H; subst. destruct i; simpl; constructor; auto.
Qed.

(** What renaming and merging keep true of a task holds of every
    record the merge returns. *)
Lemma dedupeLoop_Forall (Q : Task -> Prop) :
  (forall t, Q t -> Q (withDescription t (normalizeTaskDescription (description t)))) ->
  (forall t1 t2, Q t1 -> Q t2 -> Q (mergeTasks t1 t2)) ->
  forall tasks result seen,
    Forall Q tasks -> Forall Q result -> Forall Q (dedupeLoop tasks result seen).
Proof.
  intros Hren Hmerge tasks.
  induction tasks as [| task tasks IH]; intros result seen Ht Hr; cbn [dedupeLoop];
    [exact Hr |].
  inversion Ht as [| ? ? Htask Htasks]; subst.
  destruct (Str.mem _ seen); [now apply IH |].
  destruct (findIndex _ result) as [i |].
  - apply IH; [assumption |]. apply updateAt_Forall; auto.
  - apply IH; [assumption |]. apply Forall_app. split; [assumption |].
    constructor; [now apply Hren | constructor].
Qed.

Lemma Subseq_In_map_frame (ts ts0 : list Task) (t : Task) :
  Subseq (map frame ts) (map frame ts0) -> In t ts ->
  exists t0, In t0 ts0 /\ frame t = frame t0.
Proof.
  intros Hs Ht.
  assert (Hin : In (frame t) (map frame ts0))
    by (apply (Subseq_In _ _ _ Hs); now apply in_map).
  apply in_map_iff in Hin as [t0 [Heq Hin]]. eauto.
Qed.

Lemma collectTasks_filed : filed self env (tasks (collectTasks self env)).
Proof.
  apply (collectTasks_ind (fun st => filed self env (tasks st))).
  - split; [constructor | intros k ts []].
  - intros st a x c d _ _ [Hnd Hin]. unfold addTask.
    destruct (newTask self env (draws st) a x c) as [task |] eqn:Hnew;
      [| now split].
    cbn [tasks]. split; [now apply JsMap_NoDup_set |].
    intros k ts H.
    destruct (In_pushInto _ _ _ _ _ H) as [Hold | [-> [b [-> Hb]]]];
      [now apply Hin |].
    split; [now destruct b |].
    intros t Ht. apply in_app_or in Ht as [Ht | [<- | []]].
    + destruct Hb as [-> | Hb]; [contradiction |].
      now apply (Hin _ _ Hb).
    + split; [reflexivity | eauto].
Qed.

Lemma newTask_fields (n : nat) (a x : string) (c : list string) (t : Task) :
  newTask self env n a x c = Some t ->
  status t = pending
  /\ assignedDate t = toFormat (dateContext self)
  /\ priority t <> None
  /\ (assignedTo t = "Unassigned"
      \/ In (assignedTo t) (JsMap.values (employeeNames self)))
  /\ 10 <= String.length (description t)
  /\ test genericStem (description t) = false.
Proof.
  unfold newTask.
  destruct (_ <? 10) eqn:Hlen; [discriminate |].
  destruct (test genericStem _) eqn:Hstem; [discriminate |].
  cbn [orb]. intros H. injection H as <-.
  cbn [status assignedDate priority assignedTo description].
  apply Nat.ltb_ge in Hlen.
  repeat split; try assumption; [discriminate | apply mapAssignee_range].
Qed.

End Buckets.

(** X8. In what [extractTasks] returns there is one bucket per
    assignee and no bucket is empty; the key of a bucket is a name of
    the registry or ["Unassigned"], and every task in it is assigned
    to that key, is pending, is dated with the meeting date and has a
    priority. *)
Theorem extractTasks_buckets_are_well_formed :
  forall (self : TextAnalyzer) (env : Env),
    NoDup (JsMap.keys (extractTasks self env))
    /\ forall k ts, In (k, ts) (extractTasks self env) ->
         ts <> []
         /\ (k = "Unassigned" \/ In k (JsMap.values (employeeNames self)))
         /\ forall t, In t ts ->
              assignedTo t = k
              /\ status t = pending
              /\ assignedDate t = toFormat (dateContext self)
              /\ priority t <> None.
Proof.
  intros self env. destruct (collectTasks_filed self env) as [Hnd Hin].
  unfold extractTasks. split.
  - unfold JsMap.keys in *. rewrite map_map. cbn [fst]. exact Hnd.
  - intros k ts H. apply in_map_iff in H as [[k0 ts0] [Heq H0]].
    cbn [fst snd] in Heq. injection Heq as <- <-.
    destruct (Hin _ _ H0) as [Hne Hts0].
    destruct ts0 as [| t0 ts0]; [contradiction |].
    assert (Hsub : Subseq (map frame (deduplicateAndMergeTasks (t0 :: ts0)))
                          (map frame (t0 :: ts0)))
      by (apply dedupe_carried; [apply frame_mergeTasks | apply frame_withDescription]).
    assert (Hfr : forall t, In t (deduplicateAndMergeTasks (t0 :: ts0)) ->
                    exists u n a x c,
                      frame t = frame u
                      /\ assignedTo u = k0
                      /\ newTask self env n a x c = Some u).
    { intros t Ht.
      destruct (Subseq_In_map_frame _ _ _ Hsub Ht) as [u [Hu Hf]].
      destruct (Hts0 u Hu) as [Hk [n [a [x [c Hnew]]]]].
      exists u, n, a, x, c. auto. }
    split; [| split].
    + unfold deduplicateAndMergeTasks.
      cbn [dedupeLoop Str.mem existsb findIndex app].
      destruct (dedupeLoop_head ts0
                  (withDescription t0 (normalizeTaskDescription (description t0)))
                  [] [normalizeTaskDescription (description t0)])
        as [r [R [-> _]]].
      discriminate.
    + destruct (Hts0 t0 (or_introl eq_refl)) as [Hk [n [a [x [c Hnew]]]]].
      destruct (newTask_fields self env _ _ _ _ _ Hnew) as [_ [_ [_ [Hr _]]]].
      now rewrite Hk in Hr.
    + intros t Ht.
      destruct (Hfr t Ht) as [u [n [a [x [c [Hf [Hk Hnew]]]]]]].
      destruct (newTask_fields self env _ _ _ _ _ Hnew) as [Hst [Hdate _]].
      unfold frame in Hf. injection Hf as _ Hto Hd Hs.
      repeat split; try congruence.
      assert (HQ : Forall (fun t => priority t <> None)
                          (deduplicateAndMergeTasks (t0 :: ts0))).
      { apply dedupeLoop_Forall; try constructor.
        - intros t1 Ht1. exact Ht1.
        - intros t1 t2 _ _. discriminate.
        - destruct (Hts0 t0 (or_introl eq_refl)) as [_ [n0 [a0 [x0 [c0 Hn0]]]]].
          now destruct (newTask_fields self env _ _ _ _ _ Hn0) as [_ [_ [Hp _]]].
        - apply Forall_forall. intros v Hv.
          destruct (Hts0 v (or_intror Hv)) as [_ [n0 [a0 [x0 [c0 Hn0]]]]].
          now destruct (newTask_fields self env _ _ _ _ _ Hn0) as [_ [_ [Hp _]]]. }
      exact (proj1 (Forall_forall _ _) HQ t Ht).
Qed.

Lemma allTasks_length_dedupe (m : JsMap.t (list Task)) :
  List.length (allTasks (map (fun entry => (fst entry, deduplicateAndMergeTasks (snd entry))) m))
  <= List.length (allTasks m).
Proof.
  unfold allTasks. induction m as [| [k v] m IH]; simpl; [lia |].
  rewrite !length_app.
  assert (List.length (deduplicateAndMergeTasks v) <= List.length v).
  { rewrite <- (length_map frame (deduplicateAndMergeTasks v)), <- (length_map frame v).
    apply Subseq_length.
    apply dedupe_carried; [apply frame_mergeTasks | apply frame_withDescription]. }
  lia.
Qed.

(** X9. [extractTasks] returns at most two tasks per dialogue line
    (one from the decision-list pass, one from the per-line pass), and
    nothing at all for a transcript without speaker lines. *)
Theorem extractTasks_at_most_two_per_line :
  forall (self : TextAnalyzer) (env : Env),
    List.length (allTasks (extractTasks self env))
    <= 2 * List.length (parseDialogue (text self))
    /\ match parseDialogue (text self) with
       | [] => extractTasks self env = []
       | _ :: _ => True
       end.
Proof.
  intros self env.
  assert (Hlen : List.length (allTasks (tasks (collectTasks self env)))
                 = draws (collectTasks self env)).
  { rewrite <- (length_map id), <- allIds_allTasks.
    rewrite (Permutation_length (collectTasks_idsDrawn self env)).
    now rewrite length_map, length_seq. }
  split.
  - unfold extractTasks.
    pose proof (allTasks_length_dedupe (tasks (collectTasks self env))).
    pose proof (collectTasks_draws self env). lia.
  - destruct (parseDialogue (text self)) eqn:Hd; [| exact I].
    unfold extractTasks, collectTasks. rewrite Hd. reflexivity.
Qed.

(** X10. Every task filed by [addTask], as the buckets stand before
    the final deduplication, has a cleaned description of at least ten
    characters that does not open with one of the generic verbs
    [do], [make], [get], [have], [be]. *)
Theorem filed_descriptions_are_long_enough :
  forall (self : TextAnalyzer) (env : Env) (t : Task),
    In t (allTasks (tasks (collectTasks self env))) ->
    10 <= String.length (description t)
    /\ test genericStem (description t) = false.
Proof.
  intros self env t Ht. unfold allTasks in Ht.
  apply in_flat_map in Ht as [[k ts] [Hin Ht]]. cbn [snd] in Ht.
  destruct (collectTasks_filed self env) as [_ H].
  destruct (H k ts Hin) as [_ Hts].
  destruct (Hts t Ht) as [_ [n [a [x [c Hnew]]]]].
  now destruct (newTask_fields self env _ _ _ _ _ Hnew) as [_ [_ [_ [_ Hd]]]].
Qed.

Lemma filed_descriptions_are_long_enough_witness :
  10 <= String.length "fix the Redis caching issue by Thursday"
  /\ test genericStem "fix the Redis caching issue by Thursday" = false.
Proof.
  apply (filed_descriptions_are_long_enough exampleAnalyzer meetingDay
           (mkTask "k3v9x2m1q" "fix the Redis caching issue by Thursday"
                   "Unassigned" "2025-04-22" "2025-04-29" (Some High) pending)).
  vm_compute. left. reflexivity.
Defined.

(* ================================================================== *)
(** ** Further properties of the temporal resolver *)
(* ================================================================== *)

(** X11. For every weekday name and every meeting-date context,
    [extractDate] resolves ["next <weekday>"] to no date, by the same
    lookup as for ["by <weekday>"]. *)
Theorem next_weekday_is_never_resolved :
  forall (self : TextAnalyzer) (env : Env) (w : WeekdayName),
    extractDate self env ("next " ++ spell w) = None
    /\ extractDate self env ("next " ++ Str.toLowerCase (spell w)) = None.
Proof. intros self env w. destruct w; split; vm_compute; reflexivity. Qed.

Lemma weekday_shift (c w k : Z) :
  (1 <= w <= 7)%Z ->
  ((c - ((c + 3) mod 7 + 1) + w + 7 * k + 3) mod 7 + 1 = w)%Z.
Proof.
  intros Hw.
  replace (c - ((c + 3) mod 7 + 1) + w + 7 * k + 3)%Z
    with (w - 1 + (((c + 3) / 7 + k) * 7))%Z
    by (pose proof (Z.div_mod (c + 3) 7 ltac:(lia)); lia).
  rewrite Z.mod_add, Z.mod_small; lia.
Qed.

(** X12. The named terms resolve against the meeting date whatever it
    is: ["today"] to the meeting date, ["tomorrow"] to the next day,
    ["end of week"] to the Sunday of its week, on or after it, and
    ["next week"] to the Monday after it, at most seven days away. *)
Theorem named_terms_resolve_from_the_meeting_date :
  forall (self : TextAnalyzer) (env : Env),
    extractDate self env "today" = Some (dateContext self)
    /\ extractDate self env "tomorrow" = Some (dateContext self + 1)%Z
    /\ (exists d, extractDate self env "end of week" = Some d
                  /\ weekday d = 7%Z
                  /\ (dateContext self <= d <= dateContext self + 6)%Z)
    /\ (exists d, extractDate self env "next week" = Some d
                  /\ weekday d = 1%Z
                  /\ (dateContext self < d <= dateContext self + 7)%Z).
Proof.
  intros self env. set (c := dateContext self).
  pose proof (Z.mod_pos_bound (c + 3) 7 ltac:(lia)) as Hc.
  split; [vm_compute; reflexivity |].
  split; [vm_compute; reflexivity |].
  split.
  - exists (endOfWeek c). split; [vm_compute; reflexivity |].
    unfold endOfWeek, setWeekday, weekday. split; [| lia].
    pose proof (weekday_shift c 7 0 ltac:(lia)) as H.
    now replace (c - ((c + 3) mod 7 + 1) + 7 + 7 * 0 + 3)%Z
      with (c - ((c + 3) mod 7 + 1) + 7 + 3)%Z in H by lia.
  - exists (startOfWeek (plusWeeks 1 c)). split; [vm_compute; reflexivity |].
    unfold startOfWeek, setWeekday, plusWeeks, weekday.
    replace ((c + 7 * 1 + 3) mod 7)%Z with ((c + 3) mod 7)%Z
      by (replace (c + 7 * 1 + 3)%Z with (c + 3 + 1 * 7)%Z by lia;
          now rewrite Z.mod_add by lia).
    split; [| lia].
    pose proof (weekday_shift c 1 1 ltac:(lia)) as H.
    now replace (c + 7 * 1 - ((c + 3) mod 7 + 1) + 1 + 3)%Z
      with (c - ((c + 3) mod 7 + 1) + 1 + 7 * 1 + 3)%Z by lia.
Qed.


(* ================================================================== *)
(** ** Properties of [analyze] *)
(* ================================================================== *)

Lemma sumOf_from (f : Employee.t -> nat) (es : list Employee.t) (a : nat) :
  fold_left (fun sum emp => sum + f emp) es a
  = a + fold_left (fun sum emp => sum + f emp) es 0.
Proof.
  revert a. induction es as [| e es IH]; intros a; simpl; [lia |].
  rewrite (IH (a + f e)), (IH (f e)). lia.
Qed.

Lemma sumOf_cons (f : Employee.t -> nat) (e : Employee.t) (es : list Employee.t) :
  sumOf f (e :: es) = f e + sumOf f es.
Proof. unfold sumOf. simpl. apply sumOf_from. Qed.




Lemma employeeTaskMap_all (self : TextAnalyzer) (env : Env) (d : string)
    (found : list AITask) (t : Task) :
  In t (allTasks (employeeTaskMap self env d found)) ->
  exists k ai, In ai found /\ t = taskOfAI self env d k ai.
Proof.
  unfold employeeTaskMap. intros Hin.
  apply (Permutation_in _ (employeeTaskMap_tasks self env _ _ [])) in Hin.
  cbn [allTasks flat_map app] in Hin.
  apply in_map_iff in Hin as [[k ai] [<- Hk]].
  apply in_combine_r in Hk. exists k, ai. auto.
Qed.


Section ProviderAnswers.

Variable query : string -> string -> Outcome Response.
Variable aiDeterminePriority : string -> string.
Variable aiExtractDeadline : string -> option string.

Lemma allOf_all_returned {A B : Type} (f : A -> Outcome B) (l : list A) :
  (forall a, In a l -> exists b, f a = Returned b) ->
  exists bs, allOf (map f l) = Returned bs
             /\ List.length bs = List.length l
             /\ forall b, In b bs -> exists a, In a l /\ f a = Returned b.
Proof.
  induction l as [| a l IH]; intros H; simpl.
  - exists []. repeat split. intros b [].
  - destruct (H a (or_introl eq_refl)) as [b Hb].
    destruct IH as [bs [Hbs [Hlen Hin]]]; [intros x Hx; apply H; now right |].
    rewrite Hb, Hbs. simpl. exists (b :: bs). repeat split; [simpl; lia |].
    intros b0 [<- | Hb0]; [exists a; auto |].
    destruct (Hin b0 Hb0) as [x [Hx Hfx]]. exists x. auto.
Qed.

Lemma allOf_returned_all {A : Type} (os : list (Outcome A)) (l : list A) :
  allOf os = Returned l -> forall o, In o os -> exists a, o = Returned a.
Proof.
  revert l. induction os as [| o os IH]; intros l Hl x Hx; [contradiction |].
  simpl in Hl. destruct o as [a | e]; simpl in Hl; [| discriminate].
  destruct (allOf os) as [l' |] eqn:Hos; simpl in Hl; [| discriminate].
  destruct Hx as [<- | Hx]; [eauto | exact (IH l' eq_refl x Hx)].
Qed.

Lemma validateTask_returns (c : Candidate) :
  (exists b, validateTask query aiDeterminePriority aiExtractDeadline c = Returned b)
  <-> wellAnswered query (classificationModel, candContent c).
Proof.
  unfold wellAnswered, validateTask. cbn [fst snd].
  replace (String.eqb classificationModel summaryModel) with false by reflexivity.
  destruct (query classificationModel (candContent c)) as [[texts | labels scores] | e];
    simpl; split.
  - intros [b H]. discriminate.
  - intros [l [s H]]. discriminate.
  - intros _. eauto.
  - intros _. destruct (_ && _); eauto.
  - intros [b H]. discriminate.
  - intros [l [s H]]. discriminate.
Qed.

Lemma validateDecision_returns (d : string) :
  (exists b, validateDecision query d = Returned b)
  <-> wellAnswered query (classificationModel, d).
Proof.
  unfold wellAnswered, validateDecision. cbn [fst snd].
  replace (String.eqb classificationModel summaryModel) with false by reflexivity.
  destruct (query classificationModel d) as [[texts | labels scores] | e];
    simpl; split.
  - intros [b H]. discriminate.
  - intros [l [s H]]. discriminate.
  - intros _. eauto.
  - intros _. destruct (_ && _); eauto.
  - intros [b H]. discriminate.
  - intros [l [s H]]. discriminate.
Qed.

Lemma generateSummary_returns (ds : list DialogueLine) :
  (exists s, generateSummary query ds = Returned s)
  <-> wellAnswered query (summaryModel, summaryInputs ds).
Proof.
  unfold wellAnswered, generateSummary. cbn [fst snd].
  rewrite String.eqb_refl.
  destruct (query summaryModel (summaryInputs ds)) as [[[| t ts] | labels scores] | e];
    simpl; split; try (intros [b H]; discriminate);
    try (intros [t0 [ts0 H]]; discriminate); eauto.
Qed.

Lemma identifyTasks_returns (ds : list DialogueLine) :
  (exists found, identifyTasks query aiDeterminePriority aiExtractDeadline ds
                 = Returned found)
  <-> forall c, In c (candidates ds) ->
        wellAnswered query (classificationModel, candContent c).
Proof.
  unfold identifyTasks. split.
  - intros [found H] c Hc.
    destruct (allOf _) as [validated |] eqn:Hall; simpl in H; [| discriminate].
    apply validateTask_returns.
    destruct (allOf_returned_all _ _ Hall
                (validateTask query aiDeterminePriority aiExtractDeadline c))
      as [b Hb]; [now apply in_map | eauto].
  - intros H.
    destruct (allOf_all_returned
                (validateTask query aiDeterminePriority aiExtractDeadline)
                (candidates ds)) as [bs [Hbs _]].
    + intros c Hc. apply validateTask_returns. now apply H.
    + rewrite Hbs. simpl. eauto.
Qed.

Lemma extractKeyPoints_returns (ds : list DialogueLine) :
  (exists points, extractKeyPoints query ds = Returned points)
  <-> forall d,
        In d (groupDecisions None (filter isDecisionIndicator ds) [] EmptyString) ->
        wellAnswered query (classificationModel, d).
Proof.
  unfold extractKeyPoints. split.
  - intros [points H] d Hd.
    destruct (allOf _) as [validated |] eqn:Hall; simpl in H; [| discriminate].
    apply validateDecision_returns.
    destruct (allOf_returned_all _ _ Hall (validateDecision query d))
      as [b Hb]; [now apply in_map | eauto].
  - intros H.
    destruct (allOf_all_returned (validateDecision query)
                (groupDecisions None (filter isDecisionIndicator ds) [] EmptyString))
      as [bs [Hbs _]].
    + intros d Hd. apply validateDecision_returns. now apply H.
    + rewrite Hbs. simpl. eauto.
Qed.

Lemma analyzeText_returns (s : string) :
  (exists ai, analyzeText query aiDeterminePriority aiExtractDeadline s = Returned ai)
  <-> forall rq, In rq (requests s) -> wellAnswered query rq.
Proof.
  unfold analyzeText, requests. set (ds := parseDialogue s).
  pose proof (generateSummary_returns ds) as Hs.
  pose proof (identifyTasks_returns ds) as Ht.
  pose proof (extractKeyPoints_returns ds) as Hk.
  split.
  - intros [ai H].
    destruct (generateSummary query ds) as [summary |]; simpl in H; [| discriminate].
    destruct (identifyTasks query aiDeterminePriority aiExtractDeadline ds)
      as [found |]; simpl in H; [| discriminate].
    destruct (extractKeyPoints query ds) as [points |]; simpl in H; [| discriminate].
    intros rq [<- | Hin]; [apply Hs; eauto |].
    apply in_app_or in Hin as [Hin | Hin]; apply in_map_iff in Hin as [x [<- Hx]].
    + apply (proj1 Ht); eauto.
    + apply (proj1 Hk); eauto.
  - intros H.
    destruct (proj2 Hs) as [summary ->]; [apply H; now left |].
    destruct (proj2 Ht) as [found ->].
    { intros c Hc. apply H. right. apply in_or_app. left.
      apply in_map_iff. now exists c. }
    destruct (proj2 Hk) as [points ->].
    { intros d Hd. apply H. right. apply in_or_app. right.
      apply in_map_iff. now exists d. }
    simpl. eauto.
Qed.

End ProviderAnswers.

(** X15. [analyze] returns a result exactly when every request of the
    run is well answered: a non-empty array of summaries for the
    summary request, labels and scores for each classification
    request; any other answer, or a failure, makes it throw. *)
Theorem analyze_returns_iff_every_request_is_answered :
  forall (self : TextAnalyzer) (env : Env)
         (query : string -> string -> Outcome Response)
         (aiDeterminePriority : string -> string)
         (aiExtractDeadline : string -> option string),
    (exists r, analyze self env query aiDeterminePriority aiExtractDeadline
               = Returned r)
    <-> (forall rq, In rq (requests (text self)) -> wellAnswered query rq).
Proof.
  intros self env query prio dl.
  rewrite <- (analyzeText_returns query prio dl (text self)).
  unfold analyze. split.
  - intros [r H].
    destruct (analyzeText query prio dl (text self)) as [ai |]; [eauto | discriminate].
  - intros [ai ->]. simpl. eauto.
Qed.

Lemma identifyTasks_priorities
    (query : string -> string -> Outcome Response)
    (prio : string -> string) (dl : string -> option string)
    (ds : list DialogueLine) (found : list AITask) :
  identifyTasks query prio dl ds = Returned found ->
  forall t, In t found -> exists s, aiPriority t = prio s.
Proof.
  unfold identifyTasks.
  destruct (allOf _) as [validated |] eqn:Hall; simpl; [| discriminate].
  intros Hf t Ht. injection Hf as <-.
  apply In_filterMap in Ht as [o [Ho ->]].
  apply (allOf_returned _ _ Hall) in Ho.
  apply in_map_iff in Ho as [c [Hv _]].
  unfold validateTask in Hv.
  destruct (query classificationModel (candContent c)) as [[texts | labels scores] | e];
    simpl in Hv; try discriminate.
  destruct (_ && _); [| discriminate].
  injection Hv as <-. cbn [aiPriority]. eauto.
Qed.

Lemma castPriority_of_ai (days : string -> option Z) (s : string) :
  castPriority (aiDeterminePriorityWith days s) = None.
Proof.
  unfold aiDeterminePriorityWith.
  destruct (3 <=? _); [reflexivity |].
  destruct (1 <=? _); reflexivity.
Qed.

Lemma filter_none {A : Type} (p : A -> bool) (l : list A) :
  (forall x, In x l -> p x = false) -> filter p l = [].
Proof.
  induction l as [| a l IH]; intros H; simpl; [reflexivity |].
  rewrite (H a (or_introl eq_refl)). apply IH. intros x Hx. apply H. now right.
Qed.

Lemma sumOf_zero (f : Employee.t -> nat) (es : list Employee.t) :
  (forall e, In e es -> f e = 0) -> sumOf f es = 0.
Proof.
  induction es as [| e es IH]; intros H; [reflexivity |].
  rewrite sumOf_cons, (H e (or_introl eq_refl)), IH; [reflexivity |].
  intros x Hx. apply H. now right.
Qed.

(** X16. With the priorities of [AIAnalyzer.determinePriority], which
    are ["HIGH"], ["MEDIUM"] and ["LOW"], no task of a result of
    [analyze] has one of the priorities ['High'], ['Medium'], ['Low'],
    and [statistics.highPriorityTasks] is 0 whatever the transcript and
    the provider's answers. *)
Theorem analyze_counts_no_high_priority_task :
  forall (self : TextAnalyzer) (env : Env)
         (query : string -> string -> Outcome Response)
         (daysUntilDeadline : string -> option Z)
         (aiExtractDeadline : string -> option string)
         (r : AnalysisResults),
    analyze self env query (aiDeterminePriorityWith daysUntilDeadline)
            aiExtractDeadline = Returned r ->
    Statistics.highPriorityTasks (statistics r) = 0
    /\ forall e t, In e (employees r) -> In t (Employee.tasks e) ->
                   priority t = None.
Proof.
  intros self env query days dl r Hr. unfold analyze, analyzeText in Hr.
  destruct (generateSummary query _) as [summary |]; simpl in Hr; [| discriminate].
  destruct (identifyTasks query _ dl _) as [found |] eqn:Hfound;
    simpl in Hr; [| discriminate].
  destruct (extractKeyPoints query _) as [points |]; simpl in Hr; [| discriminate].
  injection Hr as <-. unfold assemble. cbn [employees statistics aiTasks].
  set (m := employeeTaskMap self env _ found).
  assert (Hnone : forall e t, In e (employeesOf self m) -> In t (Employee.tasks e) ->
                              priority t = None).
  { intros e t He Ht.
    pose proof (employeesOf_tasks self m e t He Ht) as Hall.
    apply employeeTaskMap_all in Hall as [k [ai [Hai ->]]].
    destruct (identifyTasks_priorities _ _ _ _ _ Hfound ai Hai) as [s Hs].
    cbn [taskOfAI priority]. rewrite Hs. apply castPriority_of_ai. }
  split; [| exact Hnone].
  unfold statisticsOf. cbn [Statistics.highPriorityTasks].
  apply sumOf_zero. intros e He.
  rewrite filter_none; [reflexivity |].
  intros t Ht. now rewrite (Hnone e t He Ht).
Qed.

Lemma analyze_counts_no_high_priority_task_witness :
  exists r,
    analyze (construct meetingDay urgentTranscript) meetingDay answeringProvider
            (aiDeterminePriorityWith noDeadline) (fun _ => None) = Returned r
    /\ map (fun e => map description (Employee.tasks e)) (employees r)
       = [["fix the urgent production bug asap"]]
    /\ Statistics.highPriorityTasks (statistics r) = 0.
Proof.
  eexists. split; [vm_compute; reflexivity |].
  split; [reflexivity |].
  refine (proj1 (analyze_counts_no_high_priority_task
                   (construct meetingDay urgentTranscript) meetingDay
                   answeringProvider noDeadline (fun _ => None) _ _)).
  vm_compute. reflexivity.
Defined.

Lemma allOf_all_rejected {A B : Type} (f : A -> Outcome (option B)) (l : list A) :
  (forall a, In a l -> f a = Returned None) ->
  exists bs, allOf (map f l) = Returned bs /\ filterMap (fun o => o) bs = [].
Proof.
  induction l as [| a l IH]; intros H; simpl.
  - exists []. auto.
  - rewrite (H a (or_introl eq_refl)).
    destruct IH as [bs [-> Hbs]]; [intros x Hx; apply H; now right |].
    simpl. exists (None :: bs). auto.
Qed.

(** X17. When the summary request is answered and the classifier's
    top score is never above 0.6, [analyze] returns a result without
    any employee, task or key decision, and with zero statistics:
    classification alone can empty the analysis. *)
Theorem doubtful_classifier_empties_the_analysis :
  forall (self : TextAnalyzer) (env : Env)
         (query : string -> string -> Outcome Response)
         (aiDeterminePriority : string -> string)
         (aiExtractDeadline : string -> option string)
         (t : string) (ts : list string),
    query summaryModel (summaryInputs (parseDialogue (text self)))
    = Returned (Summaries (t :: ts)) ->
    (forall inputs, exists labels scores,
        query classificationModel inputs = Returned (Labelled labels scores)
        /\ headAbove scores = false) ->
    analyze self env query aiDeterminePriority aiExtractDeadline
    = Returned (mkResults []
                  (MeetingDetails.make (extractMetadataDate env (text self))
                                       (JsMap.values (employeeNames self)) t [])
                  (Statistics.make 0 0 0)).
Proof.
  intros self env query prio dl t ts Hsum Hcls.
  unfold analyze, analyzeText, generateSummary. rewrite Hsum.
  cbn [andThen]. unfold identifyTasks, extractKeyPoints.
  destruct (allOf_all_rejected (validateTask query prio dl)
              (candidates (parseDialogue (text self)))) as [bs [-> Hbs]].
  { intros c _. unfold validateTask.
    destruct (Hcls (candContent c)) as [labels [scores [-> Hs]]].
    cbn [andThen]. now rewrite Hs, andb_false_r. }
  destruct (allOf_all_rejected (validateDecision query)
              (groupDecisions None
                 (filter isDecisionIndicator (parseDialogue (text self)))
                 [] EmptyString)) as [ps [-> Hps]].
  { intros d _. unfold validateDecision.
    destruct (Hcls d) as [labels [scores [-> Hs]]].
    cbn [andThen]. now rewrite Hs, andb_false_r. }
  cbn [andThen rethrowAs]. rewrite Hbs, Hps. reflexivity.
Qed.

Lemma doubtful_classifier_empties_the_analysis_witness :
  analyze exampleAnalyzer meetingDay doubtfulProvider (fun _ => "LOW") (fun _ => None)
  = Returned (mkResults []
                (MeetingDetails.make "2025-04-22" ["John Smith"; "Tom Wilson"]
                                     "A short meeting." [])
                (Statistics.make 0 0 0)).
Proof.
  apply (doubtful_classifier_empties_the_analysis exampleAnalyzer meetingDay
           doubtfulProvider _ _ "A short meeting." []).
  - reflexivity.
  - intros inputs. exists ["action item"; "general discussion"], [55 # 100; 45 # 100].
    split; reflexivity.
Defined.

(** X18. For a transcript without speaker lines the run sends the
    summary request alone, and when it is answered [analyze] returns no
    employee, no key decision and zero statistics. *)
Theorem transcript_without_speakers_gives_an_empty_analysis :
  forall (self : TextAnalyzer) (env : Env)
         (query : string -> string -> Outcome Response)
         (aiDeterminePriority : string -> string)
         (aiExtractDeadline : string -> option string)
         (t : string) (ts : list string),
    parseDialogue (text self) = [] ->
    query summaryModel (summaryInputs []) = Returned (Summaries (t :: ts)) ->
    requests (text self) = [(summaryModel, summaryInputs [])]
    /\ analyze self env query aiDeterminePriority aiExtractDeadline
       = Returned (mkResults []
                     (MeetingDetails.make (extractMetadataDate env (text self))
                                          (JsMap.values (employeeNames self)) t [])
                     (Statistics.make 0 0 0)).
Proof.
  intros self env query prio dl t ts Hd Hsum. split.
  - unfold requests. rewrite Hd. reflexivity.
  - unfold analyze, analyzeText, generateSummary. rewrite Hd, Hsum. reflexivity.
Qed.

Lemma transcript_without_speakers_gives_an_empty_analysis_witness :
  analyze (construct meetingDay silentTranscript) meetingDay answeringProvider
          (fun _ => "LOW") (fun _ => None)
  = Returned (mkResults []
                (MeetingDetails.make "2025-04-22" ["Tom Wilson"]
                                     "Tom reviews the caching implementation." [])
                (Statistics.make 0 0 0)).
Proof.
  refine (proj2 (transcript_without_speakers_gives_an_empty_analysis
                   (construct meetingDay silentTranscript) meetingDay
                   answeringProvider _ _
                   "Tom reviews the caching implementation." [] _ _));
    vm_compute; reflexivity.
Defined.




(* ================================================================== *)
(** ** What the extraction takes from the transcript *)
(* ================================================================== *)

Lemma splitLines_within (l : list ascii) :
  forall cur line,
    In line (Str.splitLines cur l) -> within (Str.chars line) (rev cur ++ l).
Proof.
  induction l as [| c l IH]; intros cur line; simpl.
  - intros [<- | []]. rewrite chars_ofChars, app_nil_r. apply within_refl.
  - destruct (Str.code c =? 10).
    + intros [<- | Hin].
      * rewrite chars_ofChars. apply within_prefix.
      * apply IH in Hin. simpl in Hin.
        eapply within_trans; [exact Hin |].
        exists (rev cur ++ [c]), []. now rewrite app_nil_r, <- app_assoc.
    + intros Hin. apply IH in Hin. simpl in Hin. now rewrite <- app_assoc in Hin.
Qed.

Lemma parseLine_parts (line : string) (d : DialogueLine) :
  parseLine line = Some d ->
  exists m c,
    exec speakerLine line = Some m
    /\ group 1 m = Some (speaker d)
    /\ group 2 m = Some c
    /\ content d = Str.trim c.
Proof.
  unfold parseLine, bindOpt.
  destruct (exec speakerLine line) as [m |] eqn:He; [| discriminate].
  destruct (group 1 m) as [sp |] eqn:H1; [| discriminate].
  destruct (group 2 m) as [c |] eqn:H2; [| discriminate].
  intros H. injection H as <-. exists m, c. auto.
Qed.

Lemma parseDialogue_lines (s : string) (d : DialogueLine) :
  In d (parseDialogue s) ->
  exists line, occursIn line s /\ parseLine line = Some d.
Proof.
  unfold parseDialogue. intros H.
  apply In_filterMap in H as [line [Hline Hparse]].
  exists line. split; [| exact Hparse].
  apply occursIn_within. exact (splitLines_within _ [] line Hline).
Qed.

Lemma parseDialogue_occurs (s : string) (d : DialogueLine) :
  In d (parseDialogue s) -> occursIn (content d) s.
Proof.
  intros H. destruct (parseDialogue_lines s d H) as [line [Hline Hparse]].
  destruct (parseLine_parts line d Hparse) as [m [c [He [_ [Hc ->]]]]].
  eapply occursIn_trans; [apply trim_occurs |].
  eapply occursIn_trans; [exact (exec_group_occurs _ _ _ _ _ He Hc) | exact Hline].
Qed.

(** X20. Every description [extractTasks] returns occurs verbatim in
    the transcript: cleaning, normalizing and merging only cut, they
    never rewrite or join text. *)
Theorem task_descriptions_occur_in_the_transcript :
  forall (self : TextAnalyzer) (env : Env) (t : Task),
    In t (allTasks (extractTasks self env)) ->
    occursIn (description t) (text self).
Proof.
  intros self env t Ht.
  assert (Hcollect : forall u, In u (allTasks (tasks (collectTasks self env))) ->
                               occursIn (description u) (text self)).
  { apply (collectTasks_ind self env
             (fun st => forall u, In u (allTasks (tasks st)) ->
                                  occursIn (description u) (text self))).
    - intros u [].
    - intros st a x c d Hd Hx Hst u Hu. unfold addTask in Hu.
      destruct (newTask self env (draws st) a x c) as [task |] eqn:Hnew;
        [| now apply Hst].
      cbn [tasks] in Hu.
      apply (Permutation_in _ (allTasks_pushInto _ _ _)) in Hu as [<- | Hu];
        [| now apply Hst].
      unfold newTask in Hnew. destruct (_ || _) in Hnew; [discriminate |].
      injection Hnew as <-. cbn [description].
      eapply occursIn_trans; [apply cleanDescriptionOf_occurs |].
      eapply occursIn_trans; [exact Hx | now apply parseDialogue_occurs]. }
  unfold extractTasks, allTasks in Ht.
  apply in_flat_map in Ht as [[k ts] [Hin Ht]]. cbn [snd] in Ht.
  apply in_map_iff in Hin as [[k0 ts0] [Heq Hin0]]. cbn [fst snd] in Heq.
  injection Heq as _ <-.
  assert (HQ : Forall (fun u => occursIn (description u) (text self))
                      (deduplicateAndMergeTasks ts0)).
  { apply dedupeLoop_Forall; try constructor.
    - intros u Hu. cbn [description withDescription].
      eapply occursIn_trans; [apply normalize_occurs | exact Hu].
    - intros t1 t2 H1 H2. unfold mergeTasks. cbn [description].
      now destruct (_ <? _).
    - apply Forall_forall. intros u Hu. apply Hcollect.
      unfold allTasks. apply in_flat_map. now exists (k0, ts0). }
  exact (proj1 (Forall_forall _ _) HQ t Ht).
Qed.

Lemma task_descriptions_occur_in_the_transcript_witness :
  occursIn "fix the Redis caching issue by Thursday" exampleTranscript.
Proof.
  apply (task_descriptions_occur_in_the_transcript exampleAnalyzer meetingDay
           (mkTask "k3v9x2m1q" "fix the Redis caching issue by Thursday"
                   "Unassigned" "2025-04-22" "2025-04-29" (Some High) pending)).
  vm_compute. left. reflexivity.
Defined.

(** X7. A normalized description is a contiguous part of the
    description it comes from, and it neither starts nor ends with a
    whitespace character. *)
Theorem normalized_description_is_a_trimmed_part :
  forall d : string,
    occursIn (normalizeTaskDescription d) d
    /\ forall c,
         (hd_error (Str.chars (normalizeTaskDescription d)) = Some c ->
          Str.isSpace c = false)
         /\ (hd_error (rev (Str.chars (normalizeTaskDescription d))) = Some c ->
             Str.isSpace c = false).
Proof.
  intros d. split; [apply normalize_occurs |].
  intros c. unfold normalizeTaskDescription. apply trim_ends.
Qed.

Ltac invert H := inversion H; subst; clear H.

(** A group of two upper-case letters captures a code. *)
Lemma Matches_code (ci : bool) (n : nat) (st st' : mstate) :
  ci = false ->
  Matches ci (Grp n (Seq upper upper)) st st' ->
  exists a b,
    caps st' = (n, [a; b]) :: caps st
    /\ Str.isUpper a = true /\ Str.isUpper b = true.
Proof.
  intros -> H. invert H.
  match goal with H : Matches _ (Seq _ _) _ _ |- _ => invert H end.
  repeat match goal with H : Matches _ upper _ _ |- _ => invert H end.
  repeat match goal with
         | H : clsIn false _ _ = true |- _ =>
             unfold clsIn in H; cbn [andb] in H; rewrite orb_false_r in H
         end.
  cbn [caps pos rest advance] in *.
  match goal with
  | H1 : rest st = ?x :: ?xs, H2 : ?xs = ?y :: ?ys |- _ =>
      exists x, y; rewrite H1, H2
  end.
  replace (S (S (pos st)) - pos st) with 2 by lia.
  simpl. auto.
Qed.

Lemma parseLine_speaker (line : string) (d : DialogueLine) :
  parseLine line = Some d -> isCode (speaker d).
Proof.
  intros H. destruct (parseLine_parts line d H) as [m [c [He [Hsp _]]]].
  unfold exec in He.
  apply searchFrom_sound in He as [p [l' [b [st' [_ [_ [Hm [_ Hg]]]]]]]].
  change (Re.pattern speakerLine)
    with (Seq Bol (Seq (Grp 1 (Seq upper upper))
                       (Seq (Chr ":") (Seq (Star true space)
                                           (Grp 2 (Star true dot)))))) in Hm.
  change (ignoreCase speakerLine) with false in Hm.
  invert Hm.
  match goal with H : Matches _ Bol _ _ |- _ => invert H end.
  match goal with H : Matches _ (Seq (Grp 1 _) _) _ _ |- _ => invert H end.
  match goal with
  | H : Matches _ (Grp 1 _) _ _ |- _ =>
      apply Matches_code in H as [x [y [Hcaps [Hx Hy]]]]; [| reflexivity]
  end.
  match goal with H : Matches _ (Seq (Chr _) _) _ _ |- _ => invert H end.
  match goal with H : Matches _ (Chr _) _ _ |- _ => invert H end.
  match goal with H : Matches _ (Seq (Star _ _) _) _ _ |- _ => invert H end.
  match goal with
  | H : Matches _ (Star true space) _ _ |- _ =>
      apply Matches_groupFree in H; [| reflexivity]
  end.
  match goal with H : Matches _ (Grp 2 _) _ _ |- _ => invert H end.
  match goal with
  | H : Matches _ (Star true dot) _ _ |- _ =>
      apply Matches_groupFree in H; [| reflexivity]
  end.
  unfold group in Hsp. rewrite Hg in Hsp. cbn [caps advance] in *.
  match goal with
  | H1 : caps ?s2 = caps ?s1, H2 : caps ?s3 = caps (advance _ _ _) |- _ =>
      idtac
  | _ => idtac
  end.
  repeat match goal with
         | H : caps _ = _ |- _ => rewrite H in Hsp; clear H
         end.
  cbn [lookup Nat.eqb option_map] in Hsp. injection Hsp as <-.
  exists x, y. auto.
Qed.

Lemma splitLines_no_break (l : list ascii) :
  forall cur line c,
    (forall x, In x cur -> (Str.code x =? 10) = false) ->
    In line (Str.splitLines cur l) -> In c (Str.chars line) ->
    (Str.code c =? 10) = false.
Proof.
  induction l as [| a l IH]; intros cur line c Hcur; simpl.
  - intros [<- | []]. rewrite chars_ofChars. intros Hc.
    apply Hcur. now apply in_rev.
  - destruct (Str.code a =? 10) eqn:Ha.
    + intros [<- | Hin].
      * rewrite chars_ofChars. intros Hc. apply Hcur. now apply in_rev.
      * apply (IH [] line c); [intros x [] | exact Hin].
    + apply IH. intros x [<- | Hx]; [exact Ha | now apply Hcur].
Qed.

Lemma filterMap_length {A B : Type} (f : A -> option B) (l : list A) :
  List.length (filterMap f l) <= List.length l.
Proof.
  induction l as [| a l IH]; simpl; [lia |].
  destruct (f a); simpl; lia.
Qed.

Lemma within_In {A : Type} (a l : list A) (x : A) :
  within a l -> In x a -> In x l.
Proof.
  intros [p [q ->]] Hx. apply in_or_app. right. apply in_or_app. now left.
Qed.

(** X21. Every utterance [parseDialogue] returns has a speaker code of
    two upper-case letters and a content that occurs verbatim in the
    text, holds no line break and neither starts nor ends with
    whitespace; there are at most as many utterances as lines. *)
Theorem parseDialogue_utterances_are_well_formed :
  forall s : string,
    List.length (parseDialogue s) <= List.length (Str.splitLines [] (Str.chars s))
    /\ forall d, In d (parseDialogue s) ->
         isCode (speaker d)
         /\ occursIn (content d) s
         /\ (forall c, In c (Str.chars (content d)) -> (Str.code c =? 10) = false)
         /\ forall c,
              (hd_error (Str.chars (content d)) = Some c -> Str.isSpace c = false)
              /\ (hd_error (rev (Str.chars (content d))) = Some c ->
                  Str.isSpace c = false).
Proof.
  intros s. split; [apply filterMap_length |].
  intros d Hd. split; [| split; [now apply parseDialogue_occurs | split]].
  - destruct (parseDialogue_lines s d Hd) as [line [_ Hparse]].
    exact (parseLine_speaker line d Hparse).
  - intros c Hc. unfold parseDialogue in Hd.
    apply In_filterMap in Hd as [line [Hline Hparse]].
    destruct (parseLine_parts line d Hparse) as [m [g [He [_ [Hg Hcont]]]]].
    apply (splitLines_no_break (Str.chars s) [] line c); [intros x [] | exact Hline |].
    rewrite Hcont in Hc.
    apply (within_In _ _ c (trim_within g)) in Hc.
    pose proof (proj1 (occursIn_within _ _) (exec_group_occurs _ _ _ _ _ He Hg)) as Hw.
    exact (within_In _ _ c Hw Hc).
  - intros c. destruct (parseDialogue_lines s d Hd) as [line [_ Hparse]].
    destruct (parseLine_parts line d Hparse) as [m [g [_ [_ [_ ->]]]]].
    apply trim_ends.
Qed.

(** Every match [execAll] lists is a match that starts somewhere in
    the text, with no capture at its start. *)
Lemma execAll_sound (rx : regex) (fuel : nat) :
  forall i before l m,
    In m (execAll fuel rx i before l) ->
    exists p l' b st',
      l = p ++ l'
      /\ Matches (ignoreCase rx) (Re.pattern rx) (MState (first m) b l' []) st'
      /\ groups m = caps st'.
Proof.
  induction fuel as [| fuel IH]; intros i before l m; cbn [execAll]; [intros [] |].
  destruct (searchFrom rx i before l) as [m0 |] eqn:Hs; [| intros []].
  intros [<- | Hin].
  - apply searchFrom_sound in Hs as [p [l' [b [st' [Hl [_ [Hm [_ Hg]]]]]]]].
    exists p, l', b, st'. auto.
  - apply IH in Hin as [p [l' [b [st' [Hl [Hm Hg]]]]]].
    exists (firstn (last m0 - i) l ++ p), l', b, st'.
    split; [| auto].
    rewrite <- app_assoc, <- Hl. symmetry. apply firstn_skipn.
Qed.

Lemma matches_group_occurs (rx : regex) (s g : string) (m : result) (n : nat) :
  In m (matches rx s) -> group n m = Some g -> occursIn g s.
Proof.
  unfold matches, group. intros Hin Hg.
  apply execAll_sound in Hin as [p [l' [b [st' [Hl [Hm Hgr]]]]]].
  destruct (lookup n (groups m)) as [v |] eqn:Hv; [| discriminate].
  injection Hg as <-. apply occursIn_within. rewrite chars_ofChars.
  apply lookup_In in Hv. rewrite Hgr in Hv.
  destruct (Matches_caps _ (Str.chars s) _ _ _ Hm) as [_ Hall].
  - exists p. exact Hl.
  - constructor.
  - exact (proj1 (Forall_forall _ _) Hall _ Hv).
Qed.

Lemma speakerMarker_code (s code : string) (m : result) :
  In m (matches speakerMarker s) -> group 1 m = Some code -> isCode code.
Proof.
  unfold matches. intros Hin Hg.
  apply execAll_sound in Hin as [p [l' [b [st' [_ [Hm Hgr]]]]]].
  change (Re.pattern speakerMarker)
    with (Seq (Grp 1 (Seq upper upper)) (Seq (Chr ":") space)) in Hm.
  change (ignoreCase speakerMarker) with false in Hm.
  invert Hm.
  match goal with
  | H : Matches _ (Grp 1 _) _ _ |- _ =>
      apply Matches_code in H as [x [y [Hcaps [Hx Hy]]]]; [| reflexivity]
  end.
  match goal with
  | H : Matches _ (Seq (Chr _) _) _ _ |- _ =>
      apply Matches_groupFree in H; [| reflexivity]
  end.
  unfold group in Hg. rewrite Hgr in Hg.
  repeat match goal with
         | H : caps _ = _ |- _ => rewrite H in Hg; clear H
         end.
  cbn [caps lookup Nat.eqb option_map] in Hg. injection Hg as <-.
  exists x, y. auto.
Qed.

Lemma rosterEntry_code (s code : string) (m : result) :
  In m (matches rosterEntry s) -> group 2 m = Some code -> isCode code.
Proof.
  unfold matches. intros Hin Hg.
  apply execAll_sound in Hin as [p [l' [b [st' [_ [Hm Hgr]]]]]].
  change (Re.pattern rosterEntry)
    with (Seq (Grp 1 (seqs [upper; plus lower; Chr " "; upper; plus lower]))
              (Seq (Seq (Chr " ") (Chr "("))
                   (Seq (Grp 2 (Seq upper upper)) (Chr ")")))) in Hm.
  change (ignoreCase rosterEntry) with false in Hm.
  invert Hm.
  match goal with H : Matches _ (Seq (Seq _ _) _) _ _ |- _ => invert H end.
  match goal with H : Matches _ (Seq (Grp 2 _) _) _ _ |- _ => invert H end.
  match goal with
  | H : Matches _ (Grp 2 _) _ _ |- _ =>
      apply Matches_code in H as [x [y [Hcaps [Hx Hy]]]]; [| reflexivity]
  end.
  match goal with
  | H : Matches _ (Chr ")") _ _ |- _ =>
      apply Matches_groupFree in H; [| reflexivity]
  end.
  unfold group in Hg. rewrite Hgr in Hg.
  match goal with
  | H1 : caps st' = _, H2 : caps _ = (2, _) :: _ |- _ => rewrite H1, H2 in Hg
  end.
  cbn [lookup Nat.eqb option_map] in Hg. injection Hg as <-.
  exists x, y. auto.
Qed.

Lemma fold_set_entries {M : Type} (step : JsMap.t string -> M -> JsMap.t string)
    (Q : M -> string -> string -> Prop) (ms : list M) :
  (forall names m k v, In m ms -> In (k, v) (step names m) ->
                       In (k, v) names \/ Q m k v) ->
  forall init k v,
    In (k, v) (fold_left step ms init) ->
    In (k, v) init \/ exists m, In m ms /\ Q m k v.
Proof.
  induction ms as [| m ms IH]; intros Hstep init k v; simpl; [now left |].
  intros H. apply IH in H as [H | [m' [Hm' HQ]]].
  - apply Hstep in H as [H | H]; [now left | right | now left].
    exists m. split; [now left | exact H].
  - right. exists m'. split; [now right | exact HQ].
  - intros names m0 k0 v0 Hm0. apply Hstep. now right.
Qed.

Lemma fold_set_NoDup {M : Type} (step : JsMap.t string -> M -> JsMap.t string)
    (ms : list M) :
  (forall names m, NoDup (JsMap.keys names) -> NoDup (JsMap.keys (step names m))) ->
  forall init, NoDup (JsMap.keys init) -> NoDup (JsMap.keys (fold_left step ms init)).
Proof.
  intros Hstep. induction ms as [| m ms IH]; intros init H; simpl; auto.
Qed.

Lemma extractEmployeeNames_entries :
  forall s : string,
    NoDup (JsMap.keys (extractEmployeeNames s))
    /\ forall k v, In (k, v) (extractEmployeeNames s) ->
         isCode k /\ occursIn k s /\ occursIn v s.
Proof.
  intros s. unfold extractEmployeeNames. split.
  - apply fold_set_NoDup.
    + intros names m H. destruct (group 2 m); [| exact H].
      destruct (group 1 m); [now apply JsMap_NoDup_set | exact H].
    + apply fold_set_NoDup; [| constructor].
      intros names m H. destruct (group 1 m); [now apply JsMap_NoDup_set | exact H].
  - intros k v H.
    apply (fold_set_entries _
             (fun m k v => group 2 m = Some k /\ group 1 m = Some v)) in H.
    + destruct H as [H | [m [Hm [Hk Hv]]]].
      * apply (fold_set_entries _
                 (fun m k v => group 1 m = Some k /\ v = k)) in H.
        -- destruct H as [[] | [m [Hm [Hk ->]]]].
           split; [exact (speakerMarker_code s k m Hm Hk) |].
           split; exact (matches_group_occurs _ _ _ _ _ Hm Hk).
        -- intros names m k0 v0 _ Hin.
           destruct (group 1 m) as [code |]; [| now left].
           apply JsMap_In_set in Hin as [[-> ->] | Hin]; [right | now left]. auto.
      * split; [exact (rosterEntry_code s k m Hm Hk) |].
        split; [exact (matches_group_occurs _ _ _ _ _ Hm Hk)
               | exact (matches_group_occurs _ _ _ _ _ Hm Hv)].
    + intros names m k0 v0 _ Hin.
      destruct (group 2 m) as [code |]; [| now left].
      destruct (group 1 m) as [name |]; [| now left].
      apply JsMap_In_set in Hin as [[-> ->] | Hin]; [right | now left]. auto.
Qed.

(** X22. In the registry [extractEmployeeNames] builds, every key is
    a code of two upper-case letters, no key appears twice, and every
    code and every name occurs verbatim in the text. *)
Theorem registry_entries_come_from_the_text :
  forall s : string,
    NoDup (JsMap.keys (extractEmployeeNames s))
    /\ forall k v, In (k, v) (extractEmployeeNames s) ->
         isCode k /\ occursIn k s /\ occursIn v s.
Proof. exact extractEmployeeNames_entries. Qed.

Lemma length_chars (s : string) : List.length (Str.chars s) = String.length s.
Proof. induction s as [| c s IH]; simpl; [reflexivity | now f_equal]. Qed.

Lemma length_toLowerCase (s : string) :
  String.length (Str.toLowerCase s) = String.length s.
Proof.
  unfold Str.toLowerCase.
  now rewrite <- !length_chars, chars_ofChars, length_map.
Qed.

Lemma isCode_length (k : string) : isCode k -> String.length k = 2.
Proof. intros [a [b [-> _]]]. reflexivity. Qed.

(** X23. For an analyzer constructed from a text, an assignee that is
    not two characters long is never resolved: [addTask] files the task
    under ["Unassigned"]. So a first name captured by
    ["<Name>, can you ..."] or ["<Name> will ..."] reaches no
    participant. *)
Theorem longer_assignee_is_unassigned :
  forall (env : Env) (s assignee : string),
    String.length assignee <> 2 ->
    mapAssignee (construct env s) assignee = "Unassigned".
Proof.
  intros env s assignee Hlen. unfold mapAssignee. cbn [employeeNames construct].
  destruct (extractEmployeeNames_entries s) as [_ Hent].
  destruct (JsMap.get assignee (extractEmployeeNames s)) as [n |] eqn:Hget.
  - apply JsMap_get_In, Hent in Hget as [Hcode _].
    apply isCode_length in Hcode. contradiction.
  - destruct (find _ _) as [k |] eqn:Hfind; [| reflexivity].
    apply find_some in Hfind as [Hk Heq].
    apply String.eqb_eq in Heq.
    unfold JsMap.keys in Hk. apply in_map_iff in Hk as [[k0 v0] [<- Hin]].
    apply Hent in Hin as [Hcode _]. apply isCode_length in Hcode.
    apply (f_equal String.length) in Heq.
    rewrite !length_toLowerCase in Heq. cbn [fst] in Heq. congruence.
Qed.

Lemma longer_assignee_is_unassigned_witness :
  mapAssignee (construct meetingDay exampleTranscript) "TOM" = "Unassigned".
Proof.
  apply longer_assignee_is_unassigned. vm_compute. discriminate.
Defined.

Lemma candidates_occur (s : string) (c : Candidate) :
  In c (candidates (parseDialogue s)) -> occursIn (candContent c) s.
Proof.
  unfold candidates, indexed. intros H.
  apply in_map_iff in H as [[i line] [<- Hin]].
  apply in_combine_r in Hin. apply filter_In in Hin as [Hline _].
  cbn [candidateOf candContent]. unfold cleanContent.
  eapply occursIn_trans; [apply trim_occurs |].
  eapply occursIn_trans; [apply (remove_at_end_occurs _ false) |].
  eapply occursIn_trans; [apply (remove_at_start_occurs _ true) |].
  eapply occursIn_trans; [apply (remove_at_start_occurs _ true) |].
  eapply occursIn_trans; [apply (remove_at_start_occurs _ true) |].
  now apply parseDialogue_occurs.
Qed.

(** X24. Every task description [analyze] reports occurs verbatim in
    the transcript: the provider's answers select among the cleaned
    dialogue lines and contribute no text to the tasks. *)
Theorem analyzed_descriptions_occur_in_the_transcript :
  forall (self : TextAnalyzer) (env : Env)
         (query : string -> string -> Outcome Response)
         (aiDeterminePriority : string -> string)
         (aiExtractDeadline : string -> option string)
         (r : AnalysisResults),
    analyze self env query aiDeterminePriority aiExtractDeadline = Returned r ->
    forall e t, In e (employees r) -> In t (Employee.tasks e) ->
      occursIn (description t) (text self).
Proof.
  intros self env query prio dl r Hr e t He Ht. unfold analyze, analyzeText in Hr.
  destruct (generateSummary query _) as [summary |]; simpl in Hr; [| discriminate].
  destruct (identifyTasks query prio dl _) as [found |] eqn:Hfound;
    simpl in Hr; [| discriminate].
  destruct (extractKeyPoints query _) as [points |]; simpl in Hr; [| discriminate].
  injection Hr as <-. unfold assemble in He. cbn [employees aiTasks] in He.
  pose proof (employeesOf_tasks self _ e t He Ht) as Hall.
  apply employeeTaskMap_all in Hall as [k [ai [Hai ->]]].
  destruct (identifyTasks_filters query prio dl _ found Hfound ai Hai)
    as [c [labels [scores [Hc [Hd _]]]]].
  cbn [taskOfAI description]. rewrite Hd. now apply candidates_occur.
Qed.

Lemma analyzed_descriptions_occur_in_the_transcript_witness :
  occursIn "I will review the caching implementation" reviewTranscript.
Proof.
  refine (analyzed_descriptions_occur_in_the_transcript
            (construct meetingDay reviewTranscript) meetingDay answeringProvider
            (fun _ => "LOW") (fun _ => None) _ eq_refl
            (Employee.make "Tom Wilson"
               [mkTask "k3v9x2m1q" "I will review the caching implementation"
                       "Tom Wilson" "2025-04-22" "2025-04-29" None pending] 1)
            (mkTask "k3v9x2m1q" "I will review the caching implementation"
                    "Tom Wilson" "2025-04-22" "2025-04-29" None pending)
            _ _); vm_compute; left; reflexivity.
Defined.

(* ================================================================== *)
(** ** Characters a match needs, characters it cannot hold *)
(* ================================================================== *)

Lemma Matches_demands (Q : ascii -> bool) (ci : bool) (r : re) (st st' : mstate) :
  Matches ci r st st' -> demands Q ci r ->
  exists p x q, rest st = p ++ x :: q ++ rest st' /\ Q x = true.
Proof.
  induction 1 as [st | c x xs st Hr Hc | p x xs st Hr Hc
                 | a b st st1 st2 Ha IH1 Hb IH2
                 | a b st st' _ IH | a b st st' _ IH
                 | g a st
                 | g a st st1 st2 _ _ _ _
                 | n a st st' _ IH
                 | st _ | st _ | st _];
    cbn [demands]; intros Hd; try contradiction.
  - exists [], x, []. simpl. split; [exact Hr | now apply Hd].
  - exists [], x, []. simpl. split; [exact Hr | now apply Hd].
  - destruct Hd as [Hd | Hd].
    + destruct (IH1 Hd) as [p [x [q [Hp Hx]]]].
      destruct (Matches_span _ _ _ _ Hb) as [m2 [H2 _]].
      exists p, x, (q ++ m2). split; [| exact Hx].
      now rewrite Hp, H2, <- app_assoc.
    + destruct (IH2 Hd) as [p [x [q [Hp Hx]]]].
      destruct (Matches_span _ _ _ _ Ha) as [m1 [H1 _]].
      exists (m1 ++ p), x, q. split; [| exact Hx].
      now rewrite H1, Hp, <- app_assoc.
  - now apply IH.
  - now apply IH.
  - now apply IH.
Qed.

Lemma exec_demands (Q : ascii -> bool) (rx : regex) (s : string) (m : result) :
  exec rx s = Some m -> demands Q (ignoreCase rx) (Re.pattern rx) ->
  exists x, In x (Str.chars s) /\ Q x = true.
Proof.
  intros He Hd.
  destruct (exec_span _ _ _ He) as [p [mid [q [Hs [_ [_ [b [st' [Hm Hq]]]]]]]]].
  destruct (Matches_demands Q _ _ _ _ Hm Hd) as [p0 [x [q0 [Hp Hx]]]].
  cbn [rest] in Hp. exists x. split; [| exact Hx].
  rewrite Hs, Hp. apply in_or_app. right. apply in_or_app. right. now left.
Qed.

Lemma chrEq_avoids (ci : bool) (c x bad : ascii) :
  chrEq ci c x = true -> negb (chrEq ci c bad) = true -> x <> bad.
Proof. intros Hx Hb ->. rewrite Hx in Hb. discriminate. Qed.

Lemma clsIn_avoids (ci : bool) (p : ascii -> bool) (x bad : ascii) :
  clsIn ci p x = true -> negb (clsIn ci p bad) = true -> x <> bad.
Proof. intros Hx Hb ->. rewrite Hx in Hb. discriminate. Qed.

Lemma Matches_avoids (bad : ascii) (ci : bool) (r : re) (st st' : mstate) :
  Matches ci r st st' -> avoids bad ci r = true ->
  Forall (fun nv => ~ In bad (snd nv)) (caps st) ->
  (exists mid, rest st = mid ++ rest st'
               /\ pos st' = pos st + List.length mid /\ ~ In bad mid)
  /\ Forall (fun nv => ~ In bad (snd nv)) (caps st').
Proof.
  induction 1 as [st | c x xs st Hr Hc | p x xs st Hr Hc
                 | a b st st1 st2 _ IH1 _ IH2
                 | a b st st' _ IH | a b st st' _ IH
                 | g a st
                 | g a st st1 st2 _ IH1 _ IH2
                 | n a st st' _ IH
                 | st _ | st _ | st _];
    cbn [avoids]; intros Hav Hcaps;
    try (split; [exists []; repeat split; [simpl; lia | intros []] | exact Hcaps]).
  - split; [| exact Hcaps]. exists [x]. cbn [advance rest pos]. repeat split.
    + exact Hr.
    + simpl. lia.
    + intros [-> | []]. now apply (chrEq_avoids _ _ _ _ Hc Hav).
  - split; [| exact Hcaps]. exists [x]. cbn [advance rest pos]. repeat split.
    + exact Hr.
    + simpl. lia.
    + intros [-> | []]. now apply (clsIn_avoids _ _ _ _ Hc Hav).
  - apply andb_prop in Hav as [Ha Hb].
    destruct (IH1 Ha Hcaps) as [[m1 [H1 [P1 N1]]] C1].
    destruct (IH2 Hb C1) as [[m2 [H2 [P2 N2]]] C2].
    split; [| exact C2]. exists (m1 ++ m2). rewrite H1, H2, <- app_assoc, length_app.
    repeat split; [lia |]. intros Hin. apply in_app_or in Hin as [Hin | Hin]; auto.
  - apply andb_prop in Hav as [Ha Hb]. now apply IH.
  - apply andb_prop in Hav as [Ha Hb]. now apply IH.
  - destruct (IH1 Hav Hcaps) as [[m1 [H1 [P1 N1]]] C1].
    destruct (IH2 Hav C1) as [[m2 [H2 [P2 N2]]] C2].
    split; [| exact C2]. exists (m1 ++ m2). rewrite H1, H2, <- app_assoc, length_app.
    repeat split; [lia |]. intros Hin. apply in_app_or in Hin as [Hin | Hin]; auto.
  - destruct (IH Hav Hcaps) as [[m [Hm [Pm Nm]]] C]. cbn [rest pos caps]. split.
    + exists m. repeat split; assumption.
    + constructor; [| exact C]. cbn [snd].
      replace (pos st' - pos st) with (List.length m) by lia.
      rewrite Hm, firstn_app, Nat.sub_diag, firstn_all. simpl.
      now rewrite app_nil_r.
Qed.

Lemma exec_avoids (bad : ascii) (rx : regex) (s g : string) (m : result) (n : nat) :
  exec rx s = Some m -> avoids bad (ignoreCase rx) (Re.pattern rx) = true ->
  group n m = Some g -> ~ In bad (Str.chars g).
Proof.
  unfold exec, group. intros He Hav Hg.
  apply searchFrom_sound in He as [p [l' [b [st' [Hl [_ [Hm [_ Hgr]]]]]]]].
  destruct (lookup n (groups m)) as [v |] eqn:Hv; [| discriminate].
  injection Hg as <-. rewrite chars_ofChars.
  apply lookup_In in Hv. rewrite Hgr in Hv.
  destruct (Matches_avoids bad _ _ _ _ Hm Hav) as [_ Hall]; [constructor |].
  exact (proj1 (Forall_forall _ _) Hall _ Hv).
Qed.

(* ================================================================== *)
(** ** The meeting date and the deadline of [extractTaskDetails] *)
(* ================================================================== *)

Ltac find_class lem :=
  first [ exact lem | left; find_class lem | right; find_class lem ].

Lemma digit_class (x : ascii) : clsIn false Str.isDigit x = true -> Str.isDigit x = true.
Proof. unfold clsIn. simpl. now rewrite orb_false_r. Qed.

(** X25. A text without a digit holds no date for the constructor:
    [extractMeetingDate] falls back to the day of processing. *)
Theorem meeting_date_defaults_without_a_digit :
  forall (env : Env) (s : string),
    Forall (fun c => Str.isDigit c = false) (Str.chars s) ->
    extractMeetingDate env s = now env.
Proof.
  intros env s Hnone.
  assert (Hno : forall rx m,
            exec rx s = Some m ->
            demands Str.isDigit (ignoreCase rx) (Re.pattern rx) -> False).
  { intros rx m He Hd. destruct (exec_demands _ _ _ _ He Hd) as [x [Hin Hx]].
    rewrite (proj1 (Forall_forall _ _) Hnone x Hin) in Hx. discriminate. }
  unfold extractMeetingDate, datePatterns. cbn [firstParsed].
  repeat match goal with
  | |- context [exec ?rx s] =>
      destruct (exec rx s) as [m |] eqn:He;
      [ exfalso; apply (Hno _ _ He); cbn; find_class digit_class
      | cbn [bindOpt]; clear He ]
  end.
  reflexivity.
Qed.

Lemma meeting_date_defaults_without_a_digit_witness :
  extractMeetingDate meetingDay "JS: Tom, can you review the caching code?"
  = now meetingDay.
Proof.
  apply meeting_date_defaults_without_a_digit. vm_compute.
  repeat constructor.
Defined.

Lemma dash_only (x : ascii) : chrEq true "-" x = true -> Ascii.eqb "-" x = true.
Proof.
  destruct x as [[] [] [] [] [] [] [] []]; vm_compute; intros H;
    first [reflexivity | discriminate H].
Qed.

(** A string that [DateTime.fromFormat(_, "yyyy-MM-dd")] reads holds a
    hyphen. *)
Lemma fromNumeric_yyyyMMdd_hyphen (g : string) (d : DateTime) :
  fromNumeric yyyyMMdd g = Some d -> In "-"%char (Str.chars g).
Proof.
  unfold fromNumeric. intros H.
  destruct (exec yyyyMMdd g) as [m |] eqn:He; [| discriminate].
  destruct (exec_demands (Ascii.eqb "-") _ _ _ He) as [x [Hin Hx]].
  - cbn. find_class dash_only.
  - apply Ascii.eqb_eq in Hx. now subst x.
Qed.

Lemma firstMatch_In (ps : list regex) (s : string) (m : result) :
  firstMatch ps s = Some m -> exists rx, In rx ps /\ exec rx s = Some m.
Proof.
  induction ps as [| rx ps IH]; cbn [firstMatch]; [discriminate |].
  destruct (exec rx s) as [m' |] eqn:He.
  - intros H. injection H as <-. exists rx. split; [now left | exact He].
  - intros H. destruct (IH H) as [rx' [Hin Hx]]. exists rx'. split; [now right | exact Hx].
Qed.

Lemma parsedDeadline_none (s : string) : parsedDeadline s = None.
Proof.
  unfold parsedDeadline.
  destruct (firstMatch deadlinePatterns s) as [m |] eqn:Hm; [| reflexivity].
  cbn [bindOpt]. destruct (truthy (group 1 m)) as [g |] eqn:Hg; [| reflexivity].
  cbn [bindOpt]. destruct (fromNumeric yyyyMMdd g) as [d |] eqn:Hd; [| reflexivity].
  exfalso. apply firstMatch_In in Hm as [rx [Hin He]]. apply truthy_Some in Hg.
  apply fromNumeric_yyyyMMdd_hyphen in Hd.
  assert (Hav : forallb (fun rx => avoids "-" (ignoreCase rx) (Re.pattern rx))
                        deadlinePatterns = true) by (vm_compute; reflexivity).
  pose proof (proj1 (forallb_forall _ _) Hav rx Hin) as Hrx.
  exact (exec_avoids _ _ _ _ _ _ He Hrx Hg Hd).
Qed.

(** X26. [extractTaskDetails] never reads a deadline from its text:
    no group of [deadlinePatterns] can hold the hyphen that the format
    ["yyyy-MM-dd"] needs, so the deadline is always seven days after
    the meeting date, and every task [createTask] builds has it. *)
Theorem extractTaskDetails_deadline_is_the_default :
  forall (self : TextAnalyzer) (env : Env) (s : string),
    TaskDetails.deadline (extractTaskDetails self env s)
    = toFormat (plusDays 7 (dateContext self))
    /\ forall uuid currentSpeaker t,
         createTask self env uuid currentSpeaker s = Some t ->
         isTaskLike s = true
         /\ deadline t = toFormat (plusDays 7 (dateContext self))
         /\ assignedDate t = toFormat (now env)
         /\ priority t <> None
         /\ occursIn (description t) s.
Proof.
  intros self env s.
  assert (Hd : TaskDetails.deadline (extractTaskDetails self env s)
               = toFormat (plusDays 7 (dateContext self))).
  { unfold extractTaskDetails. cbn [TaskDetails.deadline].
    now rewrite parsedDeadline_none. }
  split; [exact Hd |].
  intros uuid speaker t. unfold createTask.
  destruct (isTaskLike s); cbn [negb]; [| discriminate].
  intros H. injection H as <-. cbn [deadline assignedDate priority description].
  repeat split; try assumption; [discriminate | apply trim_occurs].
Qed.
